(** * meetingCaster: the notification backend, its scheduler and cast sessions

    A shallow embedding of the Go backend (main.go, scheduler.go with the
    cast session code, image.go) and of the web form's submit handler,
    followed by the properties of the specification that were checked
    against it.

    Conventions of the embedding.
    - Go strings are [string] (bytes).  Go [int], [int64] and
      [time.Duration] are [Z]; the one place where the width shows
      ([Time.Sub], which saturates) is written out.
    - [error] is [option string]: [None] is [nil].
    - The maps of [App] are [gmap]s.  The [notifications] table is a
      [gmap] from its primary key [id] to the other columns.
    - Everything the program asks of the outside (the file system, mDNS
      discovery, the Chromecast, the store's willingness to execute a
      statement, the media generators) is answered by a [World] record.
    - Functions that change [App] are written in a small state monad that
      also records the trace of [Event]s (lock operations, external
      calls, store statements) of the call.  Calls of [log.Printf] are
      left out. *)

From Stdlib Require Import ZArith Ascii String List Lia Bool.
From stdpp Require Import gmap strings list fin_maps pretty.

Local Open Scope string_scope.
Local Open Scope list_scope.
Local Open Scope Z_scope.

(** ** Go's [time] package, as far as the program uses it

    This is the standard library (go.mod asks for go 1.24), not code of
    the repository: times, their comparison and difference, and
    [time.Parse] (the general parser of time/format.go) for the three
    layouts the program parses with.  For [time.RFC3339] the library
    first tries a stricter parser and falls back to the general one,
    which accepts all the stricter one does with the same result; the
    general one is given. *)

Module GoTime.

(** [*time.Location]: [time.UTC], [time.Local], or a zone made by
    [time.FixedZone]. *)
Inductive Location : Type :=
| UTC
| Local
| FixedZone (name : string) (offset : Z).

(** [time.Time]: seconds since the Unix epoch, nanoseconds within the
    second (0 <= nsec < 1e9), and the location used for display. *)
Record Time : Type := mkTime { unixSec : Z; nsec : Z; loc : Location }.

(** [t.UTC()] *)
Definition Time_UTC (t : Time) : Time := mkTime (unixSec t) (nsec t) UTC.

(** [t.After(u)], [t.Before(u)], [t.Equal(u)]: comparison of instants;
    the location plays no part. *)
Definition Time_After (t u : Time) : bool :=
  (unixSec u <? unixSec t) || ((unixSec t =? unixSec u) && (nsec u <? nsec t)).

Definition Time_Before (t u : Time) : bool :=
  (unixSec t <? unixSec u) || ((unixSec t =? unixSec u) && (nsec t <? nsec u)).

Definition Time_Equal (t u : Time) : bool :=
  (unixSec t =? unixSec u) && (nsec t =? nsec u).

(** [time.Duration] is an int64 count of nanoseconds. *)
Definition Second : Z := 1000000000.
Definition Minute : Z := 60 * Second.
Definition minDuration : Z := - 2 ^ 63.
Definition maxDuration : Z := 2 ^ 63 - 1.

(** [t.Add(d)]: Go's [/] and [%] truncate toward zero; the nanoseconds
    are brought back into a second. *)
Definition Time_Add (t : Time) (d : Z) : Time :=
  let dsec := Z.quot d Second in
  let ns := nsec t + Z.rem d Second in
  if Second <=? ns then mkTime (unixSec t + dsec + 1) (ns - Second) (loc t)
  else if ns <? 0 then mkTime (unixSec t + dsec - 1) (ns + Second) (loc t)
  else mkTime (unixSec t + dsec) ns (loc t).

(** [t.Sub(u)]: the difference, or [minDuration] / [maxDuration] when it
    does not fit a Duration. *)
Definition Time_Sub (t u : Time) : Z :=
  let d := (unixSec t - unixSec u) * Second + (nsec t - nsec u) in
  if d <? minDuration then minDuration
  else if maxDuration <? d then maxDuration
  else d.

(** [int(d.Seconds())].  [Seconds] is [float64(d / Second) +
    float64(d % Second) / 1e9] and the conversion to [int] truncates
    toward zero.  On a whole number of seconds the float is exact
    (|d / Second| < 2^53), and at the two saturation values the fraction
    is far from 1; the times of stored rows are whole seconds, so the
    truncated quotient is what the program gets. *)
Definition Duration_SecondsInt (d : Z) : Z := Z.quot d Second.

(** *** Calendar *)

Definition isLeap (year : Z) : bool :=
  (year mod 4 =? 0) && (negb (year mod 100 =? 0) || (year mod 400 =? 0)).

Definition daysIn (month year : Z) : Z :=
  if month =? 2 then (if isLeap year then 29 else 28)
  else if (month =? 4) || (month =? 6) || (month =? 9) || (month =? 11) then 30
  else 31.

Definition daysBefore (month : Z) : Z :=
  nth (Z.to_nat (month - 1))
      [0; 31; 59; 90; 120; 151; 181; 212; 243; 273; 304; 334] 0.

(** Days from 1970-01-01 to the given civil date (proleptic Gregorian). *)
Definition daysSinceEpoch (year month day : Z) : Z :=
  let y := year - 1 in
  365 * y + y / 4 - y / 100 + y / 400
  + daysBefore month
  + (if isLeap year && (3 <=? month) then 1 else 0)
  + (day - 1)
  - 719162.

(** [time.Date(year, month, day, hour, min, sec, nsec, time.UTC)] for
    fields that are already in range (the parser checks them). *)
Definition DateUTC (year month day hour min sec ns : Z) : Time :=
  mkTime (daysSinceEpoch year month day * 86400 + hour * 3600 + min * 60 + sec)
         ns UTC.

(** *** Parsing *)

Inductive ParseError : Type :=
| errBad
| errRange (what : string)
| errExtraText
| errDayOutOfRange.

Definition byteVal (c : ascii) : Z := Z.of_N (N_of_ascii c).

Definition isDigitChar (c : ascii) : bool :=
  (48 <=? byteVal c) && (byteVal c <=? 57).

Definition digitVal (c : ascii) : Z := byteVal c - 48.

(** [getnum(s, fixed)]: one or two leading digits; exactly two when
    [fixed]. *)
Definition getnum (s : string) (fixed : bool) : (Z * string) + ParseError :=
  match s with
  | String c0 rest =>
      if isDigitChar c0 then
        match rest with
        | String c1 rest' =>
            if isDigitChar c1 then inl (digitVal c0 * 10 + digitVal c1, rest')
            else if fixed then inr errBad else inl (digitVal c0, rest)
        | EmptyString => if fixed then inr errBad else inl (digitVal c0, rest)
        end
      else inr errBad
  | EmptyString => inr errBad
  end.

(** [cutspace] *)
Fixpoint cutspace (s : string) : string :=
  match s with
  | String c rest => if Ascii.eqb c " " then cutspace rest else s
  | EmptyString => s
  end.

(** [skip(value, prefix)]: the literal text of a layout must be matched;
    a space of the layout matches any run of spaces of the value.  Go cuts
    the whole run of spaces off the prefix at once ([cutspace(prefix)]);
    here the recursion is on the prefix and [inSpaces] says that the
    previous byte of the prefix was a space of a run already matched. *)
Fixpoint skipFrom (inSpaces : bool) (value prefix : string) : string + ParseError :=
  match prefix with
  | EmptyString => inl value
  | String p prefix' =>
      if Ascii.eqb p " " then
        if inSpaces then skipFrom true value prefix'
        else
          match value with
          | String v _ =>
              if negb (Ascii.eqb v " ") then inr errBad
              else skipFrom true (cutspace value) prefix'
          | EmptyString => skipFrom true value prefix'
          end
      else
        match value with
        | String v value' =>
            if Ascii.eqb v p then skipFrom false value' prefix' else inr errBad
        | EmptyString => inr errBad
        end
  end.

Definition skip (value prefix : string) : string + ParseError :=
  skipFrom false value prefix.

(** The fields collected by [parse]: Go's local variables [year], [month],
    [day], [hour], [min], [sec], [nsec], [z] and [zoneOffset] (-1 while
    no offset was read). *)
Record Fields : Type := mkFields {
  f_year : Z; f_month : Z; f_day : Z;
  f_hour : Z; f_min : Z; f_sec : Z; f_nsec : Z;
  f_z : option Location;
  f_zoneOffset : Z
}.

Definition initFields : Fields := mkFields 0 (-1) (-1) 0 0 0 0 None (-1).

(** The pieces of a layout.  [nextStdChunk] cuts a layout string into
    literal text and the reference-time elements below; the three
    layouts of the program are given already cut. *)
Inductive Chunk : Type :=
| Lit (text : string)
| stdLongYear          (* 2006 *)
| stdZeroMonth         (* 01 *)
| stdZeroDay           (* 02 *)
| stdHour              (* 15 *)
| stdZeroMinute        (* 04 *)
| stdZeroSecond        (* 05 *)
| stdISO8601ColonTZ.   (* Z07:00 *)

(** [time.RFC3339 = "2006-01-02T15:04:05Z07:00"] *)
Definition RFC3339 : list Chunk :=
  [stdLongYear; Lit "-"; stdZeroMonth; Lit "-"; stdZeroDay; Lit "T";
   stdHour; Lit ":"; stdZeroMinute; Lit ":"; stdZeroSecond; stdISO8601ColonTZ].

(** ["2006-01-02T15:04:05Z"]: the final Z is literal text. *)
Definition layoutZ : list Chunk :=
  [stdLongYear; Lit "-"; stdZeroMonth; Lit "-"; stdZeroDay; Lit "T";
   stdHour; Lit ":"; stdZeroMinute; Lit ":"; stdZeroSecond; Lit "Z"].

(** ["2006-01-02 15:04:05"] *)
Definition layoutSpace : list Chunk :=
  [stdLongYear; Lit "-"; stdZeroMonth; Lit "-"; stdZeroDay; Lit " ";
   stdHour; Lit ":"; stdZeroMinute; Lit ":"; stdZeroSecond].

(** The leading run of digits of a string, and what follows it. *)
Fixpoint spanDigits (s : string) : list Z * string :=
  match s with
  | String c rest =>
      if isDigitChar c then
        let '(ds, r) := spanDigits rest in (digitVal c :: ds, r)
      else ([], s)
  | EmptyString => ([], s)
  end.

Definition digitsToZ (ds : list Z) : Z := fold_left (fun acc d => acc * 10 + d) ds 0.

(** [parseNanoseconds(value, n)] on the digits that follow the comma or
    period: at most nine digits count, scaled to nanoseconds. *)
Definition parseNanoseconds (ds : list Z) : Z :=
  let used := firstn 9 ds in
  digitsToZ used * 10 ^ (9 - Z.of_nat (length used)).

Definition commaOrPeriod (c : ascii) : bool := Ascii.eqb c "." || Ascii.eqb c ",".

(** The four digits of [stdLongYear]: [len(value) < 4 || !isDigit(value, 0)]
    is an error, and [atoi] of the first four bytes must succeed. *)
Definition parseLongYear (value : string) : (Z * string) + ParseError :=
  match value with
  | String a (String b (String c (String d rest))) =>
      if isDigitChar a && isDigitChar b && isDigitChar c && isDigitChar d
      then inl (digitsToZ [digitVal a; digitVal b; digitVal c; digitVal d], rest)
      else inr errBad
  | _ => inr errBad
  end.

(** The numeric offset of [stdISO8601ColonTZ], [+hh:mm] or [-hh:mm]. *)
Definition parseColonOffset (value : string) : (Z * string) + ParseError :=
  match value with
  | String sign (String h1 (String h2 (String colon (String m1 (String m2 rest))))) =>
      if negb (Ascii.eqb colon ":") then inr errBad
      else
        let hr := getnum (String h1 (String h2 EmptyString)) true in
        let mm := match hr with
                  | inl _ => getnum (String m1 (String m2 EmptyString)) true
                  | inr e => inr e
                  end in
        let hrv := match hr with inl (v, _) => v | inr _ => 0 end in
        let mmv := match mm with inl (v, _) => v | inr _ => 0 end in
        if 60 <? mmv then inr (errRange "time zone offset minute")
        else if 24 <? hrv then inr (errRange "time zone offset hour")
        else
          match mm with
          | inr e => inr e
          | inl _ =>
              let zoneOffset := (hrv * 60 + mmv) * 60 in
              if Ascii.eqb sign "+" then inl (zoneOffset, rest)
              else if Ascii.eqb sign "-" then inl (- zoneOffset, rest)
              else inr errBad
          end
  | _ => inr errBad
  end.

(** One element of the layout against the value: the body of the
    [switch std & stdMask] of [parse].  None of the three layouts has a
    fractional-second element, so a fraction met after the seconds is
    always read by the special case of [stdZeroSecond]. *)
Definition parseStd (c : Chunk) (value : string) (f : Fields)
  : (string * Fields) + ParseError :=
  match c with
  | Lit text =>
      match skip value text with
      | inl value' => inl (value', f)
      | inr e => inr e
      end
  | stdLongYear =>
      match parseLongYear value with
      | inl (y, value') =>
          inl (value', mkFields y (f_month f) (f_day f) (f_hour f) (f_min f)
                                (f_sec f) (f_nsec f) (f_z f) (f_zoneOffset f))
      | inr e => inr e
      end
  | stdZeroMonth =>
      match getnum value true with
      | inl (m, value') =>
          if (m <=? 0) || (12 <? m) then inr (errRange "month")
          else inl (value', mkFields (f_year f) m (f_day f) (f_hour f) (f_min f)
                                     (f_sec f) (f_nsec f) (f_z f) (f_zoneOffset f))
      | inr e => inr e
      end
  | stdZeroDay =>
      match getnum value true with
      | inl (d, value') =>
          inl (value', mkFields (f_year f) (f_month f) d (f_hour f) (f_min f)
                                (f_sec f) (f_nsec f) (f_z f) (f_zoneOffset f))
      | inr e => inr e
      end
  | stdHour =>
      match getnum value false with
      | inl (h, value') =>
          if (h <? 0) || (24 <=? h) then inr (errRange "hour")
          else inl (value', mkFields (f_year f) (f_month f) (f_day f) h (f_min f)
                                     (f_sec f) (f_nsec f) (f_z f) (f_zoneOffset f))
      | inr e => inr e
      end
  | stdZeroMinute =>
      match getnum value true with
      | inl (m, value') =>
          if (m <? 0) || (60 <=? m) then inr (errRange "minute")
          else inl (value', mkFields (f_year f) (f_month f) (f_day f) (f_hour f) m
                                     (f_sec f) (f_nsec f) (f_z f) (f_zoneOffset f))
      | inr e => inr e
      end
  | stdZeroSecond =>
      match getnum value true with
      | inl (s, value') =>
          if (s <? 0) || (60 <=? s) then inr (errRange "second")
          else
            let f' := mkFields (f_year f) (f_month f) (f_day f) (f_hour f) (f_min f)
                               s (f_nsec f) (f_z f) (f_zoneOffset f) in
            match value' with
            | String sep after =>
                match spanDigits after with
                | (d :: ds, value'') =>
                    if commaOrPeriod sep then
                      inl (value'', mkFields (f_year f) (f_month f) (f_day f)
                                      (f_hour f) (f_min f) s
                                      (parseNanoseconds (d :: ds))
                                      (f_z f) (f_zoneOffset f))
                    else inl (value', f')
                | ([], _) => inl (value', f')
                end
            | EmptyString => inl (value', f')
            end
      | inr e => inr e
      end
  | stdISO8601ColonTZ =>
      match value with
      | String c value' =>
          if Ascii.eqb c "Z" then
            inl (value', mkFields (f_year f) (f_month f) (f_day f) (f_hour f)
                                  (f_min f) (f_sec f) (f_nsec f) (Some UTC)
                                  (f_zoneOffset f))
          else
            match parseColonOffset value with
            | inl (off, value'') =>
                inl (value'', mkFields (f_year f) (f_month f) (f_day f) (f_hour f)
                                       (f_min f) (f_sec f) (f_nsec f) (f_z f) off)
            | inr e => inr e
            end
      | EmptyString => inr errBad
      end
  end.

(** The loop of [parse] over the layout; when the layout is used up the
    value must be used up too. *)
Fixpoint parseChunks (layout : list Chunk) (value : string) (f : Fields)
  : Fields + ParseError :=
  match layout with
  | [] => match value with
          | EmptyString => inl f
          | _ => inr errExtraText
          end
  | c :: layout' =>
      match parseStd c value f with
      | inl (value', f') => parseChunks layout' value' f'
      | inr e => inr e
      end
  end.

(** The offset in force at an instant in a location; [time.Local] is the
    host's zone, given by [localOffset]. *)
Definition lookupOffset (localOffset : Z -> Z) (l : Location) (unix : Z) : Z :=
  match l with
  | UTC => 0
  | Local => localOffset unix
  | FixedZone _ off => off
  end.

(** [parse(layout, value, time.UTC, local)]: both entry points of the
    program have UTC as the default location. *)
Definition parse (localOffset : Z -> Z) (layout : list Chunk) (value : string)
  (local : Location) : Time + ParseError :=
  match parseChunks layout value initFields with
  | inr e => inr e
  | inl f =>
      if (f_day f <? 1) || (daysIn (f_month f) (f_year f) <? f_day f)
      then inr errDayOutOfRange
      else
        let t := DateUTC (f_year f) (f_month f) (f_day f)
                         (f_hour f) (f_min f) (f_sec f) (f_nsec f) in
        match f_z f with
        | Some z => inl (mkTime (unixSec t) (nsec t) z)
        | None =>
            if negb (f_zoneOffset f =? -1) then
              let t' := mkTime (unixSec t - f_zoneOffset f) (nsec t) UTC in
              if lookupOffset localOffset local (unixSec t') =? f_zoneOffset f
              then inl (mkTime (unixSec t') (nsec t') local)
              else inl (mkTime (unixSec t') (nsec t') (FixedZone "" (f_zoneOffset f)))
            else inl t
        end
  end.

(** [time.Parse(layout, value)] *)
Definition Parse (localOffset : Z -> Z) (layout : list Chunk) (value : string)
  : Time + ParseError :=
  parse localOffset layout value Local.

(** [time.ParseInLocation(layout, value, time.UTC)] *)
Definition ParseInLocationUTC (localOffset : Z -> Z) (layout : list Chunk)
  (value : string) : Time + ParseError :=
  parse localOffset layout value UTC.

End GoTime.

Import GoTime.

(** ** Data of the backend (main.go, scheduler.go) *)

(** Go's [error]: [None] is [nil]. *)
Definition error : Type := option string.

(** The [start_time] and [end_time] columns hold the text
    [t.Format("2006-01-02 15:04:05")] of a UTC time: fixed width, whole
    seconds.  The model keeps, instead of that text, the Unix second it
    denotes; on such texts SQLite's comparison is the order of the
    instants.  [formatDBTime] is the [Format] call that writes a column
    or a query argument; [scanDBTime] is what [parseTimeInUTC] returns
    for a column read back, be it handed over as written or, by the
    driver, as [2006-01-02T15:04:05Z] ([Parse_reads_texts] below), so
    that the error branches after [rows.Scan] and [parseTimeInUTC] in
    the loops over rows are not taken. *)
Definition DBTime : Type := Z.
Definition formatDBTime (t : Time) : DBTime := unixSec t.
Definition scanDBTime (s : DBTime) : Time := mkTime s 0 UTC.

(** [type Notification struct] *)
Record Notification : Type := mkNotification {
  ID : string;
  Message : string;
  StartTime : Time;
  EndTime : Time;
  Device : string;
  Status : string;
  RepeatCount : Z
}.

(** A row of the [notifications] table without its primary key [id]. *)
Record Row : Type := mkRow {
  message : string;
  start_time : DBTime;
  end_time : DBTime;
  device : string;
  status : string;
  repeat_count : Z
}.

Definition setStatus (st : string) (r : Row) : Row :=
  mkRow (message r) (start_time r) (end_time r) (device r) st (repeat_count r).

(** [mdns.Device], the fields the program reads. *)
Record MdnsDevice : Type := mkMdnsDevice { Names : list string; Url : string }.

(** [type CastSession struct].  [CastClient] is kept as the device it was
    configured with; [Cancel] is the cancel function of the session's
    context, named by the notification whose context it cancels ([None]
    is a nil function); [Context] and [Mutex] carry no data of their
    own. *)
Record CastSession : Type := mkCastSession {
  NotificationID : string;
  cs_Device : string;
  CastClient : MdnsDevice;
  Cancel : option string;
  Active : bool
}.

Definition setActive (b : bool) (cs : CastSession) : CastSession :=
  mkCastSession (NotificationID cs) (cs_Device cs) (CastClient cs) (Cancel cs) b.

(** [type App struct]: the store, the session table and the in-progress
    set; the two mutexes appear in the traces. *)
Record App : Type := mkApp {
  DB : gmap string Row;
  ActiveCasts : gmap string CastSession;
  VideoGenInProgress : gmap string bool
}.

Inductive Mutex : Type :=
| CastMutex
| VideoGenMutex
| SessionMutex (notifID : string).

(** The statements the program executes and the queries it runs.  The
    times of a query are the [now.Format(...)] arguments. *)
Inductive Stmt : Type :=
| InsertNotification (id : string) (r : Row)
| UpdateStatus (st id : string)
| DeleteNotification (id : string).

Inductive Query : Type :=
| SelectPendingStarted (now : DBTime)          (* status = 'pending' AND start_time <= ? AND end_time > ? *)
| SelectActiveEnded (now : DBTime)             (* status = 'active' AND end_time <= ? *)
| SelectPendingSoon (now future : DBTime).     (* status = 'pending' AND start_time > ? AND start_time <= ? *)

(** How a call of an external generator ends. *)
Inductive Outcome (A : Type) : Type :=
| Returned (a : A)
| Failed (msg : string)
| Panicked.
Arguments Returned {A} a.
Arguments Failed {A} msg.
Arguments Panicked {A}.

(** What the outside answers. *)
Record World : Type := mkWorld {
  localOffset : Z -> Z;                        (* the host's time zone *)
  osStat : string -> bool;                     (* os.Stat(path) returns no error *)
  uuidNew : string;                            (* uuid.New().String() *)
  dbPrepareOk : bool;                          (* DB.Prepare succeeds *)
  dbExecOk : Stmt -> bool;                     (* the store is able to execute *)
  dbQueryOk : Query -> bool;                   (* the store is able to answer *)
  mdnsDevices : string -> list MdnsDevice;     (* devices seen while looking for a name *)
  GetLANIp : string + string;                  (* ip.GetLANIp() *)
  PlayMedia : string -> string -> error;       (* client.PlayMedia(uri, url) *)
  formatKitchenEST : Time -> string;           (* t.In(New York).Format("3:04 PM") *)
  imageOutcome : string -> Outcome string;     (* generateNotificationImageSimple, by id *)
  ttsOutcome : string -> string -> Outcome string;  (* generateTTSAudio, by text and id *)
  ffmpegOutcome : list string -> Outcome unit  (* the ffmpeg run and the check of its playlist *)
}.

Inductive Event : Type :=
| EvLock (m : Mutex)
| EvUnlock (m : Mutex)
| EvMdnsSearch (name : string) (waitSeconds : Z)
| EvGetLANIp
| EvServerStart (port : string)
| EvSleep (milliseconds : Z)
| EvPlayMedia (deviceURI mediaURL : string)
| EvCancel (notifID : string)
| EvRecordSession (notifID : string)
| EvRemoveSession (notifID : string)
| EvExec (s : Stmt) (ok : bool)
| EvQuery (q : Query) (ok : bool)
| EvGo (now : Time)
| EvImage (notifID : string)
| EvTTS (text notifID : string) (repeatCount : Z)
| EvFfmpeg (args : list string).

(** ** The state monad of the handlers: [App] threaded, trace collected *)

Definition M (A : Type) : Type := App -> A * App * list Event.

Definition ret {A} (x : A) : M A := fun a => (x, a, []).

Definition bind {A B} (m : M A) (k : A -> M B) : M B :=
  fun a =>
    let '(x, a1, t1) := m a in
    let '(y, a2, t2) := k x a1 in
    (y, a2, t1 ++ t2).

#[global] Instance M_ret : MRet M := @ret.
#[global] Instance M_bind : MBind M := fun A B k m => bind m k.

Definition emit (e : Event) : M unit := fun a => (tt, a, [e]).
Definition get : M App := fun a => (a, a, []).
Definition put (a' : App) : M unit := fun _ => (tt, a', []).

Definition result {A} (m : A * App * list Event) : A := fst (fst m).
Definition final {A} (m : A * App * list Event) : App := snd (fst m).
Definition trace {A} (m : A * App * list Event) : list Event := snd m.

(** [mu.Lock(); defer mu.Unlock()] around a body. *)
Definition locked {A} (mu : Mutex) (body : M A) : M A :=
  emit (EvLock mu) ;;
  r ← body;
  emit (EvUnlock mu) ;;
  ret r.

(** A loop over the rows of a cursor. *)
Fixpoint forEach {A} (l : list A) (body : A -> M unit) : M unit :=
  match l with
  | [] => ret tt
  | x :: l' => body x ;; forEach l' body
  end.

(** *** The store *)

Definition applyStmt (s : Stmt) (db : gmap string Row) : option (gmap string Row) :=
  match s with
  | InsertNotification id r =>
      match db !! id with
      | Some _ => None                     (* id TEXT PRIMARY KEY *)
      | None => Some (<[id := r]> db)
      end
  | UpdateStatus st id => Some (alter (setStatus st) id db)
  | DeleteNotification id => Some (delete id db)
  end.

(** [DB.Exec]: [true] when no error is returned. *)
Definition dbExec (w : World) (s : Stmt) : M bool :=
  a ← get;
  match (if dbExecOk w s then applyStmt s (DB a) else None) with
  | Some db' =>
      put (mkApp db' (ActiveCasts a) (VideoGenInProgress a)) ;;
      emit (EvExec s true) ;;
      ret true
  | None => emit (EvExec s false) ;; ret false
  end.

Definition selects (q : Query) (r : Row) : bool :=
  match q with
  | SelectPendingStarted now =>
      String.eqb (status r) "pending" && (start_time r <=? now) && (now <? end_time r)
  | SelectActiveEnded now =>
      String.eqb (status r) "active" && (end_time r <=? now)
  | SelectPendingSoon now future =>
      String.eqb (status r) "pending" && (now <? start_time r) && (start_time r <=? future)
  end.

Arguments selects : simpl never.

(** [rows.Scan] and the two [parseTimeInUTC] calls on a row. *)
Definition scanRow (kr : string * Row) : Notification :=
  mkNotification (fst kr) (message (snd kr))
                 (scanDBTime (start_time (snd kr))) (scanDBTime (end_time (snd kr)))
                 (device (snd kr)) (status (snd kr)) (repeat_count (snd kr)).

(** [DB.Query]: the rows selected at the time of the query, in the order
    of the table (the queries have no ORDER BY), or [None] when the query
    fails. *)
Definition dbQuery (w : World) (q : Query) : M (option (list Notification)) :=
  a ← get;
  if dbQueryOk w q then
    emit (EvQuery q true) ;;
    ret (Some (scanRow <$> map_to_list (filter (fun kr => selects q (snd kr) = true) (DB a))))
  else emit (EvQuery q false) ;; ret None.

(** ** Cast sessions (the second file of scheduler.go) *)

(** [getDevice]: an mDNS search of [waitTime] seconds, then the first
    device that carries the wanted name. *)
Definition getDevice (w : World) (ipv6 : bool) (waitTime : Z) (targetDevice : string)
  : M (MdnsDevice + string) :=
  emit (EvMdnsSearch targetDevice waitTime) ;;
  ret (match find (fun d => existsb (String.eqb targetDevice) (Names d))
                  (mdnsDevices w targetDevice) with
       | Some d => inl d
       | None => inr ("failed to find device for name '" +:+ targetDevice +:+ "'")
       end).

Definition serverPort : string := ":8889".

Definition recordSession (notifID : string) (session : CastSession) : M unit :=
  a ← get;
  put (mkApp (DB a) (<[notifID := session]> (ActiveCasts a)) (VideoGenInProgress a)) ;;
  emit (EvRecordSession notifID).

Definition removeSession (notifID : string) : M unit :=
  a ← get;
  put (mkApp (DB a) (delete notifID (ActiveCasts a)) (VideoGenInProgress a)) ;;
  emit (EvRemoveSession notifID).

(** [func (a *App) startCast(notifID, deviceName, message string) error] *)
Definition startCast (w : World) (notifID deviceName message : string) : M error :=
  locked CastMutex (
    a ← get;
    match ActiveCasts a !! notifID with
    | Some _ => ret (Some "cast already active for this notification")
    | None =>
        found ← getDevice w false 5 deviceName;
        match found with
        | inr e => ret (Some ("failed to find device: " +:+ e))
        | inl deviceToUse =>
            emit EvGetLANIp ;;
            match GetLANIp w with
            | inr e => ret (Some ("failed to get local IP: " +:+ e))
            | inl localIP =>
                (* castCtx, castCancel := context.WithCancel(...) *)
                emit (EvServerStart serverPort) ;;
                emit (EvSleep 1000) ;;
                let notificationURL :=
                  "http://" +:+ localIP +:+ serverPort +:+ "/files/" +:+ notifID
                  +:+ "/playlist.m3u8" in
                emit (EvPlayMedia (Url deviceToUse) notificationURL) ;;
                match PlayMedia w (Url deviceToUse) notificationURL with
                | Some e =>
                    emit (EvCancel notifID) ;;
                    ret (Some ("failed to cast media: " +:+ e))
                | None =>
                    recordSession notifID
                      (mkCastSession notifID deviceName deviceToUse (Some notifID) true) ;;
                    dbExec w (UpdateStatus "active" notifID) ;;
                    ret None
                end
            end
        end
    end).

(** [func (a *App) stopCast(notifID string) error].  The table holds
    pointers, so [session.Active = false] is seen through the table. *)
Definition stopCast (w : World) (notifID : string) : M error :=
  locked CastMutex (
    a ← get;
    match ActiveCasts a !! notifID with
    | None => ret None
    | Some session =>
        emit (EvLock (SessionMutex notifID)) ;;
        if negb (Active session) then
          emit (EvUnlock (SessionMutex notifID)) ;;
          ret None
        else
          put (mkApp (DB a) (<[notifID := setActive false session]> (ActiveCasts a))
                     (VideoGenInProgress a)) ;;
          emit (EvUnlock (SessionMutex notifID)) ;;
          match Cancel session with
          | Some ctx => emit (EvCancel ctx)
          | None => ret tt
          end ;;
          emit (EvSleep 1500) ;;
          removeSession notifID ;;
          dbExec w (UpdateStatus "completed" notifID) ;;
          ret None
    end).

(** ** The scheduler (the first file of scheduler.go) *)

Definition playlistPath (id : string) : string :=
  "./data/chunks/" +:+ id +:+ "/playlist.m3u8".

(** [func (a *App) checkAndProcessNotifications()] with the clock reading
    [now := time.Now().UTC()] as argument.  The pre-generation goroutine
    is only started here; it is [pgStep] below. *)
Definition checkAndProcessNotifications (w : World) (now : Time) : M unit :=
  emit (EvGo now) ;;
  pending ← dbQuery w (SelectPendingStarted (formatDBTime now));
  match pending with
  | None => ret tt
  | Some rows =>
      forEach rows (fun notif =>
        if (Time_After now (StartTime notif) || Time_Equal now (StartTime notif))
           && Time_Before now (EndTime notif)
        then
          if osStat w (playlistPath (ID notif)) then
            startCast w (ID notif) (Device notif) (Message notif) ;; ret tt
          else ret tt
        else ret tt) ;;
      active ← dbQuery w (SelectActiveEnded (formatDBTime now));
      match active with
      | None => ret tt
      | Some rows =>
          forEach rows (fun notif =>
            if Time_After now (EndTime notif) || Time_Equal now (EndTime notif)
            then stopCast w (ID notif) ;; ret tt
            else ret tt)
      end
  end.

(** ** Media generation (image.go) *)

(** [filepath.Join("./data/chunks", notificationID)] *)
Definition videosDir (notificationID : string) : string :=
  "data/chunks/" +:+ notificationID.

(** The arguments of the ffmpeg command of [generateNotificationVideo];
    [fmt.Sprintf("%d", durationSeconds)] is [pretty]. *)
Definition ffmpegArgs (imagePath notificationID : string) (durationSeconds : Z)
  (audioPath : string) : list string :=
  let segmentPattern := videosDir notificationID +:+ "/%d.ts" in
  if negb (String.eqb audioPath "") then
    ["-y"; "-loop"; "1"; "-framerate"; "1";
     "-t"; pretty durationSeconds;
     "-i"; imagePath;
     "-i"; audioPath;
     "-f"; "lavfi";
     "-t"; pretty durationSeconds;
     "-i"; "anullsrc=r=16000:cl=mono";
     "-filter_complex"; "[1:a][2:a]concat=n=2:v=0:a=1[outa]";
     "-map"; "0:v"; "-map"; "[outa]";
     "-preset"; "ultrafast"; "-c:v"; "libx264"; "-c:a"; "aac";
     "-b:a"; "64k"; "-ar"; "16000"; "-ac"; "1"; "-b:v"; "512k";
     "-profile:v"; "baseline"; "-crf"; "28"; "-pix_fmt"; "yuv420p";
     "-threads"; "0"; "-max_interleave_delta"; "0";
     "-f"; "hls"; "-hls_list_size"; "0"; "-hls_time"; "10";
     "-hls_playlist_type"; "event";
     "-hls_flags"; "independent_segments+append_list";
     "-hls_segment_filename"; segmentPattern;
     "-master_pl_name"; "playlist.m3u8";
     videosDir notificationID +:+ "/playlist"]
  else
    ["-y"; "-loop"; "1"; "-framerate"; "1";
     "-t"; pretty durationSeconds;
     "-i"; imagePath;
     "-preset"; "ultrafast"; "-c:v"; "libx264"; "-b:v"; "512k";
     "-profile:v"; "baseline"; "-crf"; "28"; "-pix_fmt"; "yuv420p";
     "-threads"; "0";
     "-f"; "hls"; "-hls_list_size"; "0"; "-hls_time"; "10";
     "-hls_playlist_type"; "event";
     "-hls_flags"; "independent_segments+append_list";
     "-hls_segment_filename"; segmentPattern;
     "-master_pl_name"; "playlist.m3u8";
     videosDir notificationID +:+ "/playlist"].

(** [generateNotificationVideo]: the ffmpeg run; the creation of the
    directory and the check of the written playlist are part of the
    outcome the world gives for the run. *)
Definition generateNotificationVideo (w : World) (imagePath notificationID : string)
  (durationSeconds : Z) (audioPath : string) : M (Outcome string) :=
  let args := ffmpegArgs imagePath notificationID durationSeconds audioPath in
  emit (EvFfmpeg args) ;;
  ret (match ffmpegOutcome w args with
       | Returned _ => Returned (videosDir notificationID +:+ "/playlist.m3u8")
       | Failed msg => Failed ("failed to create HLS video with ffmpeg: " +:+ msg)
       | Panicked => Panicked
       end).

(** ** Pre-generation (scheduler.go), one step at a time

    [preGenerateVideosForPendingNotifications] runs in a goroutine of its
    own, started at every tick, so several of them can be running.  It is
    given as a step function on the places where other goroutines can
    come in between: each step is one stretch of code that either runs
    under [VideoGenMutex] or does not touch the shared maps. *)

Inductive PgPC : Type :=
| PgQuery (now : Time)                                  (* entry *)
| PgNext (rows : list Notification)                     (* rows.Next() *)
| PgAcquire (n : Notification) (rows : list Notification)   (* playlist absent, before Lock *)
| PgJob (n : Notification) (rows : list Notification)       (* in the closure, mark set *)
| PgRelease (n : Notification) (panicking : bool) (rows : list Notification)
                                                        (* the closure's deferred function *)
| PgReturned.                                           (* returned, or panic recovered *)

(** [duration := int(n.EndTime.Sub(n.StartTime).Seconds());
     if duration < 1 { duration = 10 }] *)
Definition videoDuration (n : Notification) : Z :=
  let duration := Duration_SecondsInt (Time_Sub (EndTime n) (StartTime n)) in
  if duration <? 1 then 10 else duration.

Definition ttsText (w : World) (n : Notification) : string :=
  "Hi Dan, this message is to tell you that Michel is in a meeting until "
  +:+ formatKitchenEST w (EndTime n)
  +:+ " and he had this message for you: " +:+ Message n.

(** The body of the closure up to its return or panic; the result says
    whether it panicked. *)
Definition pgJobBody (w : World) (n : Notification) : M bool :=
  let duration := videoDuration n in
  emit (EvImage (ID n)) ;;
  match imageOutcome w (ID n) with
  | Panicked => ret true
  | Failed _ => ret false
  | Returned imagePath =>
      emit (EvTTS (ttsText w n) (ID n) (RepeatCount n)) ;;
      match ttsOutcome w (ttsText w n) (ID n) with
      | Panicked => ret true
      | tts =>
          let audioPath := match tts with Returned p => p | _ => "" end in
          video ← generateNotificationVideo w imagePath (ID n) duration audioPath;
          match video with
          | Panicked => ret true
          | _ => ret false
          end
      end
  end.

Definition setInProgress (id : string) : M unit :=
  a ← get;
  put (mkApp (DB a) (ActiveCasts a) (<[id := true]> (VideoGenInProgress a))).

Definition clearInProgress (id : string) : M unit :=
  a ← get;
  put (mkApp (DB a) (ActiveCasts a) (delete id (VideoGenInProgress a))).

Definition pgStep (w : World) (pc : PgPC) : M PgPC :=
  match pc with
  | PgQuery now =>
      let futureTime := Time_Add now (5 * Minute) in
      rows ← dbQuery w (SelectPendingSoon (formatDBTime now) (formatDBTime futureTime));
      match rows with
      | None => ret PgReturned
      | Some rows => ret (PgNext rows)
      end
  | PgNext [] => ret PgReturned
  | PgNext (n :: rows) =>
      if osStat w (playlistPath (ID n)) then ret (PgNext rows)
      else ret (PgAcquire n rows)
  | PgAcquire n rows =>
      emit (EvLock VideoGenMutex) ;;
      a ← get;
      match VideoGenInProgress a !! ID n with
      | Some true =>
          emit (EvUnlock VideoGenMutex) ;;
          ret (PgNext rows)
      | _ =>
          setInProgress (ID n) ;;
          emit (EvUnlock VideoGenMutex) ;;
          ret (PgJob n rows)
      end
  | PgJob n rows =>
      panicking ← pgJobBody w n;
      ret (PgRelease n panicking rows)
  | PgRelease n panicking rows =>
      emit (EvLock VideoGenMutex) ;;
      clearInProgress (ID n) ;;
      emit (EvUnlock VideoGenMutex) ;;
      ret (if panicking : bool then PgReturned else PgNext rows)
  | PgReturned => ret PgReturned
  end.

(** The steps left before [PgReturned], at most. *)
Definition pgBound (pc : PgPC) : nat :=
  match pc with
  | PgQuery _ => O
  | PgNext rows => S (4 * length rows)
  | PgAcquire _ rows => S (S (S (S (4 * length rows))))
  | PgJob _ rows => S (S (S (4 * length rows)))
  | PgRelease _ _ rows => S (S (4 * length rows))
  | PgReturned => O
  end.

(** [preGenerateVideosForPendingNotifications(now)] run without anything
    in between: the steps in sequence. *)
Fixpoint pgRun (fuel : nat) (w : World) (pc : PgPC) : M PgPC :=
  match fuel with
  | O => ret pc
  | S fuel' =>
      match pc with
      | PgReturned => ret pc
      | _ => pc' ← pgStep w pc; pgRun fuel' w pc'
      end
  end.

Definition preGenerateVideosForPendingNotifications (w : World) (now : Time) : M PgPC :=
  pc ← pgStep w (PgQuery now);
  pgRun (pgBound pc) w pc.

(** ** HTTP handlers (main.go) *)

(** [parseTimeInUTC]: RFC 3339 first, then the layout with a literal [Z],
    then the space-separated layout read in UTC; when all three fail the
    error of the RFC 3339 attempt is returned. *)
Definition parseTimeInUTC (w : World) (timeStr : string) : Time + ParseError :=
  match Parse (localOffset w) RFC3339 timeStr with
  | inl t => inl (Time_UTC t)
  | inr _ =>
      match Parse (localOffset w) layoutZ timeStr with
      | inl t => inl (Time_UTC t)
      | inr _ =>
          match ParseInLocationUTC (localOffset w) layoutSpace timeStr with
          | inl t => inl t
          | inr _ => Parse (localOffset w) RFC3339 timeStr
          end
      end
  end.

(** The body of a creation request after [c.BodyParser]; a field absent
    from the JSON has Go's zero value. *)
Record requestBody : Type := mkRequestBody {
  rb_Message : string;
  rb_Device : string;
  rb_StartTime : string;
  rb_EndTime : string;
  rb_RepeatCount : Z
}.

Inductive Payload : Type :=
| ErrorJSON (msg : string) (cause : option ParseError)
| NotificationJSON (n : Notification)
| MessageJSON (msg : string).

Definition Response : Type := (Z * Payload)%type.

(** [func createNotification(c *fiber.Ctx) error]; [body] is [None] when
    [c.BodyParser] fails. *)
Definition createNotification (w : World) (body : option requestBody) : M Response :=
  match body with
  | None => ret (400, ErrorJSON "Invalid request body" None)
  | Some rb =>
      match Parse (localOffset w) RFC3339 (rb_StartTime rb) with
      | inr e => ret (400, ErrorJSON "Invalid start_time format" (Some e))
      | inl startTime =>
          match Parse (localOffset w) RFC3339 (rb_EndTime rb) with
          | inr e => ret (400, ErrorJSON "Invalid end_time format" (Some e))
          | inl endTime =>
              let repeatCount :=
                if rb_RepeatCount rb <? 1 then 1 else rb_RepeatCount rb in
              let notif := mkNotification (uuidNew w) (rb_Message rb) startTime endTime
                                          (rb_Device rb) "pending" repeatCount in
              let startTimeUTC := Time_UTC (StartTime notif) in
              let endTimeUTC := Time_UTC (EndTime notif) in
              if negb (dbPrepareOk w) then ret (500, ErrorJSON "Database error" None)
              else
                ok ← dbExec w (InsertNotification (ID notif)
                                 (mkRow (Message notif)
                                        (formatDBTime startTimeUTC)
                                        (formatDBTime endTimeUTC)
                                        (Device notif) (Status notif)
                                        (RepeatCount notif)));
                if ok : bool then ret (201, NotificationJSON notif)
                else ret (500, ErrorJSON "Failed to create notification" None)
          end
      end
  end.

(** [func deleteNotification(c *fiber.Ctx) error] *)
Definition deleteNotification (w : World) (id : string) : M Response :=
  stopCast w id ;;
  ok ← dbExec w (DeleteNotification id);
  if ok : bool then ret (200, MessageJSON "Notification deleted")
  else ret (500, ErrorJSON "Failed to delete notification" None).

(** ** The web form (the page's script) *)

(** [formData] of [handleSubmit]: the two times are the
    [toISOString()] texts. *)
Record FormData : Type := mkFormData {
  fd_message : string;
  fd_device : string;
  fd_start_time : string;
  fd_end_time : string;
  fd_repeat_count : Z
}.

Inductive Submit : Type :=
| AlertSelectDevice                 (* 'Please select a device' *)
| AlertEndAfterStart                (* 'End time must be after start time' *)
| Post (body : requestBody).        (* fetch(POST /api/notifications) *)

(** [handleSubmit] from the built [formData] on; [>=] on JavaScript
    strings compares them code unit by code unit. *)
Definition handleSubmit (formData : FormData) : Submit :=
  if String.eqb (fd_device formData) "" then AlertSelectDevice
  else if String.leb (fd_end_time formData) (fd_start_time formData)
  then AlertEndAfterStart
  else Post (mkRequestBody (fd_message formData) (fd_device formData)
                           (fd_start_time formData) (fd_end_time formData)
                           (fd_repeat_count formData)).

(** ** Several pre-generation goroutines at once

    The state of the process as far as pre-generation goes: the [App] and
    the program counters of the goroutines started by the ticks.  A step
    is the start of a goroutine, one step of one goroutine, or anything
    else the process does (the scans, the HTTP handlers, among them the
    on-demand generation of [serveNotificationVideo]), none of which
    touches [VideoGenInProgress]. *)

Record Sys : Type := mkSys { sys_app : App; sys_threads : list PgPC }.

Inductive sysStep : Sys -> Sys -> Prop :=
| step_go (s : Sys) (now : Time) :
    sysStep s (mkSys (sys_app s) (sys_threads s ++ [PgQuery now]))
| step_pg (s : Sys) (i : nat) (pc : PgPC) (w : World) :
    sys_threads s !! i = Some pc ->
    sysStep s (mkSys (final (pgStep w pc (sys_app s)))
                     (<[i := result (pgStep w pc (sys_app s))]> (sys_threads s)))
| step_other (s : Sys) (a' : App) :
    VideoGenInProgress a' = VideoGenInProgress (sys_app s) ->
    sysStep s (mkSys a' (sys_threads s)).

(** [main] starts with empty maps and no goroutine. *)
Inductive reachable : Sys -> Prop :=
| reach_init (db : gmap string Row) : reachable (mkSys (mkApp db ∅ ∅) [])
| reach_step (s s' : Sys) : reachable s -> sysStep s s' -> reachable s'.

(** A goroutine is inside the closure for [id]: from the moment it has
    set the mark until its deferred function has run. *)
Definition inFlight (id : string) (pc : PgPC) : bool :=
  match pc with
  | PgJob n _ | PgRelease n _ _ => String.eqb (ID n) id
  | _ => false
  end.

Fixpoint countIf {A} (p : A -> bool) (l : list A) : nat :=
  match l with
  | [] => O
  | x :: l' => ((if p x then 1 else 0) + countIf p l')%nat
  end.

(** [a.VideoGenInProgress[id]] *)
Definition marked (id : string) (a : App) : bool :=
  match VideoGenInProgress a !! id with
  | Some true => true
  | _ => false
  end.

(** ** Traces: locks and long-running work *)

#[global] Instance Mutex_eq_dec : EqDecision Mutex.
Proof. solve_decision. Defined.

(** Device discovery, the waits, the session establishment and the media
    generators. *)
Definition isLong (e : Event) : bool :=
  match e with
  | EvMdnsSearch _ _ | EvSleep _ | EvPlayMedia _ _
  | EvImage _ | EvTTS _ _ _ | EvFfmpeg _ => true
  | _ => false
  end.

Definition locksOrUnlocks (mu : Mutex) (e : Event) : bool :=
  match e with
  | EvLock m | EvUnlock m => bool_decide (m = mu)
  | _ => false
  end.

(** Does a long-running event occur in the trace while [mu] is held?
    [held] is whether [mu] is held at the start. *)
Fixpoint longWhileHeld (mu : Mutex) (held : bool) (tr : list Event) : bool :=
  match tr with
  | [] => false
  | EvLock m :: tr' => longWhileHeld mu (if bool_decide (m = mu) then true else held) tr'
  | EvUnlock m :: tr' => longWhileHeld mu (if bool_decide (m = mu) then false else held) tr'
  | e :: tr' => (held && isLong e) || longWhileHeld mu held tr'
  end.

(** A schedule of two goroutines: the events in the order they happen,
    each with the goroutine it belongs to. *)
Definition proj (b : bool) (l : list (bool * Event)) : list Event :=
  snd <$> List.filter (fun x => Bool.eqb (fst x) b) l.

(** The schedule respects [mu]: it is locked only when free and unlocked
    only by its holder. *)
Fixpoint respects (mu : Mutex) (holder : option bool) (l : list (bool * Event)) : bool :=
  match l with
  | [] => true
  | (b, EvLock m) :: l' =>
      if bool_decide (m = mu) then
        match holder with
        | None => respects mu (Some b) l'
        | Some _ => false
        end
      else respects mu holder l'
  | (b, EvUnlock m) :: l' =>
      if bool_decide (m = mu) then
        match holder with
        | Some b' => Bool.eqb b b' && respects mu None l'
        | None => false
        end
      else respects mu holder l'
  | _ :: l' => respects mu holder l'
  end.

Definition isCancel (e : Event) : bool :=
  match e with EvCancel _ => true | _ => false end.

Definition isRemoveSession (id : string) (e : Event) : bool :=
  match e with EvRemoveSession i => String.eqb i id | _ => false end.

Definition isRecordSession (id : string) (e : Event) : bool :=
  match e with EvRecordSession i => String.eqb i id | _ => false end.

Definition isExec (e : Event) : bool :=
  match e with EvExec _ _ => true | _ => false end.

(** Ticks one after the other, each with its clock reading and its
    world. *)
Fixpoint runTicks (ticks : list (World * Time)) (a : App) : App :=
  match ticks with
  | [] => a
  | (w, now) :: ticks' => runTicks ticks' (final (checkAndProcessNotifications w now a))
  end.

(** ** Examples *)

Definition app0 : App := mkApp ∅ ∅ ∅.

Definition tv : MdnsDevice := mkMdnsDevice ["Living Room TV"] "192.168.1.20".

(** A world where everything works. *)
Definition calm : World :=
  mkWorld (fun _ => 0) (fun _ => true) "n1" true (fun _ => true) (fun _ => true)
          (fun _ => [tv]) (inl "192.168.1.2") (fun _ _ => None)
          (fun _ => "3:00 PM")
          (fun id => Returned ("/data/images/" +:+ id +:+ ".png"))
          (fun _ id => Returned ("/data/audio/" +:+ id +:+ "_single.mp3"))
          (fun _ => Returned tt).

(** ** Definitions used in the statements *)

(** What a tick keeps for one identifier: its row and its session. *)
Definition sameAt (id : string) (a a' : App) : Prop :=
  DB a' !! id = DB a !! id /\ ActiveCasts a' !! id = ActiveCasts a !! id.

(** The row [createNotification] inserts for a request whose times
    parse. *)
Definition createdRow (rb : requestBody) (startTime endTime : Time) : Row :=
  mkRow (rb_Message rb) (unixSec startTime) (unixSec endTime) (rb_Device rb)
        "pending" (if rb_RepeatCount rb <? 1 then 1 else rb_RepeatCount rb).

(** The three layouts start alike and part ways at the byte after the
    day. *)
Definition datePrefix : list Chunk :=
  [stdLongYear; Lit "-"; stdZeroMonth; Lit "-"; stdZeroDay].

Definition timeOfDay : list Chunk :=
  [stdHour; Lit ":"; stdZeroMinute; Lit ":"; stdZeroSecond].

(** The loop of [parse] over a first part of a layout. *)
Fixpoint parseSteps (layout : list Chunk) (value : string) (f : Fields)
  : (string * Fields) + ParseError :=
  match layout with
  | [] => inl (value, f)
  | c :: layout' =>
      match parseStd c value f with
      | inl (value', f') => parseSteps layout' value' f'
      | inr e => inr e
      end
  end.

(** Elements other than the zone element leave [z] and [zoneOffset]
    alone. *)
Definition noZone (c : Chunk) : bool :=
  match c with stdISO8601ColonTZ => false | _ => true end.

Definition digitChar (d : Z) : ascii := ascii_of_N (Z.to_N (48 + d)).

Definition twoDigits (n : Z) : string :=
  String (digitChar (n / 10)) (String (digitChar (n mod 10)) EmptyString).

Definition fourDigits (n : Z) : string :=
  String (digitChar (n / 1000))
    (String (digitChar (n / 100 mod 10))
       (String (digitChar (n / 10 mod 10))
          (String (digitChar (n mod 10)) EmptyString))).

(** The text of a date and time of day in the two forms:
    [2006-01-02 15:04:05] and [2006-01-02T15:04:05Z]. *)
Definition textSpace (y mo d h mi s : Z) : string :=
  fourDigits y +:+ "-" +:+ twoDigits mo +:+ "-" +:+ twoDigits d +:+ " "
  +:+ twoDigits h +:+ ":" +:+ twoDigits mi +:+ ":" +:+ twoDigits s.



(** The mark of an identifier is set exactly when one goroutine is in
    its closure, and then only one. *)
Definition dedupInv (s : Sys) : Prop :=
  forall id,
    countIf (inFlight id) (sys_threads s)
    = if marked id (sys_app s) then 1%nat else O.

Definition tag (b : bool) (t : list Event) : list (bool * Event) :=
  (fun e => (b, e)) <$> t.

Definition freeOf (mu : Mutex) (t : list Event) : bool :=
  forallb (fun e => negb (locksOrUnlocks mu e)) t.

(** A schedule of the process, to build reachable states by running it. *)
Inductive SysAction : Type :=
| DoGo (now : Time)
| DoPg (i : nat) (w : World).

Definition sysDo (s : Sys) (act : SysAction) : Sys :=
  match act with
  | DoGo now => mkSys (sys_app s) (sys_threads s ++ [PgQuery now])
  | DoPg i w =>
      match sys_threads s !! i with
      | Some pc => mkSys (final (pgStep w pc (sys_app s)))
                         (<[i := result (pgStep w pc (sys_app s))]> (sys_threads s))
      | None => s
      end
  end.

Definition sysRun (acts : list SysAction) (s : Sys) : Sys := fold_left sysDo acts s.

(** The sessions of the table as [startCast] records them. *)
Definition sessionsWf (a : App) : Prop :=
  forall id s, ActiveCasts a !! id = Some s ->
    NotificationID s = id /\ Active s = true /\ Cancel s = Some id.

(** ** Concrete data for the examples *)

Definition session1 : CastSession :=
  mkCastSession "n1" "Living Room TV" tv (Some "n1") true.

Definition row1 : Row := mkRow "hi" 1735725600 1735729200 "Living Room TV" "active" 1.

(** A process with one notification being cast. *)
Definition app1 : App := mkApp {["n1" := row1]} {["n1" := session1]} ∅.

Definition rowPending : Row :=
  mkRow "hi" 1735725600 1735729200 "Living Room TV" "pending" 1.

Definition appPending : App := mkApp {["n1" := rowPending]} ∅ ∅.

(** A world like [calm] where no playlist has been written yet. *)
Definition notReady : World :=
  mkWorld (fun _ => 0) (fun _ => false) "n1" true (fun _ => true) (fun _ => true)
          (fun _ => [tv]) (inl "192.168.1.2") (fun _ _ => None)
          (fun _ => "3:00 PM")
          (fun id => Returned ("/data/images/" +:+ id +:+ ".png"))
          (fun _ id => Returned ("/data/audio/" +:+ id +:+ "_single.mp3"))
          (fun _ => Returned tt).

Definition inWindow : Time := mkTime 1735725610 0 UTC.

Definition rowElapsed : Row :=
  mkRow "hi" 1735725000 1735725600 "Living Room TV" "pending" 1.

(** A row that ends before it starts, as [createNotification] stores it
    when asked to: pending, already ended at [inWindow], and starting a
    minute later. *)
Definition rowBackwards : Row :=
  mkRow "hi" 1735725670 1735725550 "Living Room TV" "pending" 1.

(** A request to start at 10:01:10 and end at 09:59:10 of the same day. *)
Definition requestBackwards : requestBody :=
  mkRequestBody "hi" "Living Room TV" "2025-01-01T10:01:10Z" "2025-01-01T09:59:10Z" 1.

Definition requestNoRepeat : requestBody :=
  mkRequestBody "hi" "Living Room TV" "2025-01-01T10:00:00Z" "2025-01-01T11:00:00Z" 0.


(** Two ticks, 100 and 90 seconds before the start of the pending
    notification, whose goroutines both find it without a playlist. *)
Definition raceSchedule : list SysAction :=
  [DoGo (mkTime 1735725500 0 UTC); DoGo (mkTime 1735725510 0 UTC);
   DoPg 0 notReady; DoPg 1 notReady; DoPg 0 notReady; DoPg 1 notReady;
   DoPg 0 notReady; DoPg 1 notReady].

Definition raceState : Sys := sysRun raceSchedule (mkSys (mkApp {["n1" := rowPending]} ∅ ∅) []).

(** ** More of the code *)

(** *** Text wrapping (image.go) *)

Section WrapText.

(** [strings.Fields] of the standard library: the words of a text, cut at
    white space as Unicode has it. *)
Variable Fields : string -> list string.

(** The loop of [wrapText] over [words[1:]], with [lines] and
    [currentLine] as they stand; [len] counts bytes. *)
Fixpoint wrapLoop (maxWidth : Z) (lines : list string) (currentLine : string)
  (words : list string) : list string :=
  match words with
  | [] => lines ++ [currentLine]
  | word :: words' =>
      let testLine := currentLine +:+ " " +:+ word in
      if Z.of_nat (String.length testLine) <=? maxWidth
      then wrapLoop maxWidth lines testLine words'
      else wrapLoop maxWidth (lines ++ [currentLine]) word words'
  end.

(** [func wrapText(text string, maxWidth int) []string] *)
Definition wrapText (text : string) (maxWidth : Z) : list string :=
  match Fields text with
  | [] => [""]
  | first :: rest => wrapLoop maxWidth [] first rest
  end.

(** The lines [generateNotificationImageSimple] draws: the message
    wrapped at 30 bytes, cut after [maxLines]. *)
Definition messageLines (message : string) : list string :=
  let lines := wrapText message 30 in
  if (5 <? length lines)%nat then firstn 5 lines else lines.

End WrapText.

(** [strings.Fields] on a text whose white space is ASCII (tab, line
    feed, vertical tab, form feed, carriage return, space); for the
    examples. *)
Definition isAsciiSpace (c : ascii) : bool :=
  ((9 <=? byteVal c) && (byteVal c <=? 13)) || (byteVal c =? 32).

Fixpoint asciiFieldsFrom (word : string) (s : string) : list string :=
  match s with
  | EmptyString => if String.eqb word "" then [] else [word]
  | String c s' =>
      if isAsciiSpace c then
        if String.eqb word "" then asciiFieldsFrom "" s'
        else word :: asciiFieldsFrom "" s'
      else asciiFieldsFrom (word +:+ String c EmptyString) s'
  end.

Definition asciiFields (s : string) : list string := asciiFieldsFrom "" s.

(** *** Narration (image.go) *)

(** What [generateTTSAudio] asks of the outside: the directory, the
    Text-to-Speech client and its answer, the file it writes, the ffmpeg
    run that repeats the narration. *)
Record TTSWorld : Type := mkTTSWorld {
  ttsMkdirAll : error;                       (* os.MkdirAll(audioDir, 0755) *)
  ttsNewClient : error;                      (* texttospeech.NewClient(ctx) *)
  ttsSynthesizeSpeech : string -> string + string;  (* the audio content, or an error *)
  ttsWriteFile : string -> string -> error;  (* os.WriteFile(path, content, 0644) *)
  ttsConcatRun : list string -> error        (* concatCmd.Run() *)
}.

(** The loop that builds [inputs]: [-i singleAudioPath], [repeatCount]
    times. *)
Fixpoint concatInputs (n : nat) (singleAudioPath : string) : list string :=
  match n with
  | O => []
  | S n' => concatInputs n' singleAudioPath ++ ["-i"; singleAudioPath]
  end.

(** The arguments of the ffmpeg command that repeats the narration. *)
Definition concatArgs (singleAudioPath finalAudioPath : string) (repeatCount : Z)
  : list string :=
  let inputs := concatInputs (Z.to_nat repeatCount) singleAudioPath in
  let filterComplex := "concat=n=" +:+ pretty repeatCount +:+ ":v=0:a=1[out]" in
  (["-y"] ++ inputs) ++ ["-filter_complex"; filterComplex; "-map"; "[out]"; finalAudioPath].

(** [func generateTTSAudio(text string, notificationID string,
    repeatCount int) (string, error)]: the path of the audio, or an
    error.  [filepath.Join] is concatenation for an identifier without
    path separators, as [uuid.New] makes them. *)
Definition generateTTSAudio (tw : TTSWorld) (text notificationID : string)
  (repeatCount : Z) : string + string :=
  let audioDir := "/data/audio" in
  match ttsMkdirAll tw with
  | Some e => inr ("failed to create audio directory: " +:+ e)
  | None =>
      let singleAudioPath := audioDir +:+ "/" +:+ notificationID +:+ "_single.mp3" in
      match ttsNewClient tw with
      | Some e => inr ("failed to create TTS client: " +:+ e)
      | None =>
          match ttsSynthesizeSpeech tw text with
          | inr e => inr ("failed to synthesize speech: " +:+ e)
          | inl audioContent =>
              match ttsWriteFile tw singleAudioPath audioContent with
              | Some e => inr ("failed to write audio file: " +:+ e)
              | None =>
                  if repeatCount <=? 1 then inl singleAudioPath
                  else
                    let finalAudioPath :=
                      audioDir +:+ "/" +:+ notificationID +:+ ".mp3" in
                    match ttsConcatRun tw
                            (concatArgs singleAudioPath finalAudioPath repeatCount) with
                    | Some _ => inl singleAudioPath
                    | None => inl finalAudioPath
                    end
              end
          end
      end
  end.

(** *** Device discovery (the second file of scheduler.go) *)

(** [type ChromecastDevice struct] (main.go) *)
Record ChromecastDevice : Type := mkChromecastDevice {
  Name : string;
  UUID : string;
  Address : string
}.

(** The name [discoverDevices] gives a device: its first name, or its URL
    when it has none or an empty one. *)
Definition deviceName (device : MdnsDevice) : string :=
  let first := match Names device with
               | name :: _ => name
               | [] => ""
               end in
  if String.eqb first "" then Url device else first.

(** The loop of [discoverDevices] over the devices found, with [seen] and
    [foundDevices] as they stand. *)
Fixpoint discoverLoop (devices : list MdnsDevice) (seen : gset string)
  (foundDevices : list ChromecastDevice) : list ChromecastDevice :=
  match devices with
  | [] => foundDevices
  | device :: devices' =>
      if decide (Url device ∈ seen) then discoverLoop devices' seen foundDevices
      else discoverLoop devices' ({[Url device]} ∪ seen)
             (foundDevices
              ++ [mkChromecastDevice (deviceName device) (Url device) (Url device)])
  end.

(** [getCachedDevices] on the package variable [discoveredDevices]. *)
Definition getCachedDevices (discoveredDevices : list ChromecastDevice)
  : list ChromecastDevice := discoveredDevices.

(** [func (a *App) discoverDevices() []ChromecastDevice] run without
    another discovery in between: from the devices the search reports
    and the package variable [discoveredDevices], the list returned and
    the new value of the variable. *)
Definition discoverDevices (devices : list MdnsDevice)
  (discoveredDevices : list ChromecastDevice)
  : list ChromecastDevice * list ChromecastDevice :=
  let foundDevices := discoverLoop devices ∅ [] in
  let discoveredDevices' := foundDevices in
  if (length foundDevices =? 0)%nat
  then (getCachedDevices discoveredDevices', discoveredDevices')
  else (foundDevices, discoveredDevices').

(** *** Reading a notification (main.go) *)

(** [func getNotification(c *fiber.Ctx) error]; [queryOk] is whether the
    store answers ([sql.ErrNoRows] apart). *)
Definition getNotification (queryOk : bool) (id : string) : M Response :=
  a ← get;
  if negb queryOk then ret (500, ErrorJSON "Database error" None)
  else
    match DB a !! id with
    | None => ret (404, ErrorJSON "Notification not found" None)
    | Some r => ret (200, NotificationJSON (scanRow (id, r)))
    end.

(** *** The process as a sequence of operations *)

(** A tick of the scheduler or a request to one of the handlers. *)
Inductive Op : Type :=
| OpTick (w : World) (now : Time)
| OpCreate (w : World) (body : option requestBody)
| OpDelete (w : World) (id : string).

Definition runOp (a : App) (op : Op) : App :=
  match op with
  | OpTick w now => final (checkAndProcessNotifications w now a)
  | OpCreate w body => final (createNotification w body a)
  | OpDelete w id => final (deleteNotification w id a)
  end.

Definition runOps (ops : list Op) (a : App) : App := fold_left runOp ops a.

(** The status column moves forward by one step or stays. *)
Definition statusStep (r r' : Row) : Prop :=
  r' = r
  \/ (status r = "pending" /\ r' = setStatus "active" r)
  \/ (status r = "active" /\ r' = setStatus "completed" r).

(** *** Concrete data for the further examples *)

(** A search that reports a device twice and a device without a name. *)
Definition scan : list MdnsDevice :=
  [tv; mkMdnsDevice [] "192.168.1.21"; mkMdnsDevice ["Kitchen"] "192.168.1.20"].

Definition calmScan : World :=
  mkWorld (localOffset calm) (osStat calm) (uuidNew calm) (dbPrepareOk calm)
          (dbExecOk calm) (dbQueryOk calm) (fun _ => scan) (GetLANIp calm)
          (PlayMedia calm) (formatKitchenEST calm) (imageOutcome calm)
          (ttsOutcome calm) (ffmpegOutcome calm).

(** A Text-to-Speech service that answers, and an ffmpeg that fails. *)
Definition ttsNoConcat : TTSWorld :=
  mkTTSWorld None None (fun text => inl ("mp3:" +:+ text)) (fun _ _ => None)
             (fun _ => Some "exit status 1").

(** A request with a fraction of a second and an offset from UTC. *)
Definition requestFraction : requestBody :=
  mkRequestBody "hi" "Living Room TV" "2025-01-01T11:00:00.5+01:00"
                "2025-01-01T12:00:00+01:00" 2.

(** A world like [calm] whose store refuses to delete. *)
Definition noDelete : World :=
  mkWorld (localOffset calm) (osStat calm) (uuidNew calm) (dbPrepareOk calm)
          (fun s => match s with DeleteNotification _ => false | _ => true end)
          (dbQueryOk calm) (mdnsDevices calm) (GetLANIp calm)
          (PlayMedia calm) (formatKitchenEST calm) (imageOutcome calm)
          (ttsOutcome calm) (ffmpegOutcome calm).

(** *** The two loops of the scheduler, by name *)

(** The body of the loop of [checkAndProcessNotifications] over the
    pending rows. *)
Definition startDue (w : World) (now : Time) (notif : Notification) : M unit :=
  if (Time_After now (StartTime notif) || Time_Equal now (StartTime notif))
     && Time_Before now (EndTime notif)
  then
    if osStat w (playlistPath (ID notif)) then
      startCast w (ID notif) (Device notif) (Message notif) ;; ret tt
    else ret tt
  else ret tt.

(** The body of its loop over the active rows. *)
Definition stopEnded (w : World) (now : Time) (notif : Notification) : M unit :=
  if Time_After now (EndTime notif) || Time_Equal now (EndTime notif)
  then stopCast w (ID notif) ;; ret tt
  else ret tt.

(** A world like [calm] whose store refuses to update a status. *)
Definition noUpdate : World :=
  mkWorld (localOffset calm) (osStat calm) (uuidNew calm) (dbPrepareOk calm)
          (fun s => match s with UpdateStatus _ _ => false | _ => true end)
          (dbQueryOk calm) (mdnsDevices calm) (GetLANIp calm)
          (PlayMedia calm) (formatKitchenEST calm) (imageOutcome calm)
          (ttsOutcome calm) (ffmpegOutcome calm).

(** The process after a restart during a cast: the row is active, the
    table of sessions is empty. *)
Definition appRestarted : App := mkApp {["n1" := row1]} ∅ ∅.

(** The process after a tick that started the cast of [rowPending] and
    could not update its status. *)
Definition appUnmarked : App :=
  final (checkAndProcessNotifications noUpdate inWindow appPending).

Definition afterWindow : Time := mkTime 1735729300 0 UTC.


(** *** Counting the generations of a pre-generation run *)

Definition isImageOf (id : string) (e : Event) : bool :=
  match e with EvImage i => String.eqb i id | _ => false end.

(** The row is the one of [id] and its playlist is not there. *)
Definition needsVideo (w : World) (id : string) (n : Notification) : bool :=
  String.eqb (ID n) id && negb (osStat w (playlistPath (ID n))).

(** The generations for [id] a goroutine at [pc] can still start. *)
Definition pcWeight (w : World) (id : string) (pc : PgPC) : nat :=
  match pc with
  | PgNext rows => countIf (needsVideo w id) rows
  | PgAcquire n rows | PgJob n rows =>
      ((if String.eqb (ID n) id then 1 else 0) + countIf (needsVideo w id) rows)%nat
  | PgRelease _ _ rows => countIf (needsVideo w id) rows
  | PgQuery _ | PgReturned => O
  end.

(** A row [r'] that a row [r] can become: the same, or further along
    pending, active, completed, with the other columns unchanged. *)
Definition statusPath (r r' : Row) : Prop :=
  r' = r
  \/ (status r = "pending" /\ r' = setStatus "active" r)
  \/ (status r = "pending" /\ r' = setStatus "completed" r)
  \/ (status r = "active" /\ r' = setStatus "completed" r).

Definition isDeleteOf (id : string) (op : Op) : bool :=
  match op with OpDelete _ id' => String.eqb id' id | _ => false end.

(** * Properties *)

Ltac munfold :=
  unfold locked, recordSession, removeSession, dbExec, dbQuery, getDevice,
    setInProgress, clearInProgress, generateNotificationVideo,
    mbind, M_bind, bind, ret, emit, get, put in *.

Ltac mresults := unfold result, final, trace in *.

Lemma final_pair {A} (x : A) (a : App) (t : list Event) : final (x, a, t) = a.
Proof. reflexivity. Qed.

Lemma result_pair {A} (x : A) (a : App) (t : list Event) : result (x, a, t) = x.
Proof. reflexivity. Qed.

Lemma trace_pair {A} (x : A) (a : App) (t : list Event) : trace (x, a, t) = t.
Proof. reflexivity. Qed.

Lemma countIf_app {A} (p : A -> bool) (l1 l2 : list A) :
  countIf p (l1 ++ l2) = (countIf p l1 + countIf p l2)%nat.
Proof. induction l1 as [|x l1 IH]; simpl; [reflexivity|]. rewrite IH. lia. Qed.

Lemma countIf_insert {A} (p : A -> bool) (l : list A) (i : nat) (x y : A) :
  l !! i = Some x ->
  (countIf p (<[i := y]> l) + (if p x then 1 else 0)
   = countIf p l + (if p y then 1 else 0))%nat.
Proof.
  revert i. induction l as [|z l IH]; intros i Hi; [discriminate|].
  destruct i as [|i]; simpl in *.
  - injection Hi as ->. lia.
  - specialize (IH i Hi). lia.
Qed.

(** ** Locks and schedules *)

Lemma locked_trace {A} (mu : Mutex) (body : M A) (a : App) :
  trace (locked mu body a) = EvLock mu :: trace (body a) ++ [EvUnlock mu].
Proof.
  unfold locked. munfold. mresults. destruct (body a) as [[x a1] t1]. reflexivity.
Qed.

Lemma longWhileHeld_locked (mu : Mutex) (t : list Event) :
  freeOf mu t = true ->
  longWhileHeld mu false (EvLock mu :: t ++ [EvUnlock mu]) = existsb isLong t.
Proof.
  intros Hfree. cbn [longWhileHeld]. rewrite bool_decide_eq_true_2 by reflexivity.
  induction t as [|e t IH]; cbn [app longWhileHeld existsb].
  - reflexivity.
  - cbn [freeOf forallb] in Hfree. apply andb_prop in Hfree as [He Hfree].
    specialize (IH Hfree). apply negb_true_iff in He.
    destruct e; cbn [locksOrUnlocks isLong andb orb] in *;
      rewrite ?He; first [exact IH | reflexivity | rewrite IH; reflexivity].
Qed.

Lemma proj_cons (b b' : bool) (e : Event) (l : list (bool * Event)) :
  proj b ((b', e) :: l) = if Bool.eqb b' b then e :: proj b l else proj b l.
Proof. unfold proj. simpl. destruct (Bool.eqb b' b); reflexivity. Qed.

Lemma proj_none (b : bool) (l : list (bool * Event)) :
  proj b l = [] -> l = tag (negb b) (proj (negb b) l).
Proof.
  induction l as [|[b' e] l IH]; [reflexivity|].
  rewrite !proj_cons. destruct b, b'; simpl; try discriminate; intros H;
    unfold tag; simpl; f_equal; apply (IH H).
Qed.

Lemma respects_skip (mu : Mutex) (holder : option bool) (b : bool) (e : Event)
  (l : list (bool * Event)) :
  locksOrUnlocks mu e = false ->
  respects mu holder ((b, e) :: l) = respects mu holder l.
Proof.
  destruct e; simpl; try reflexivity; intros ->; reflexivity.
Qed.

(** While one goroutine holds the mutex and the other is about to lock
    it, the holder runs on to its unlock before the other moves. *)
Lemma holder_runs_first (mu : Mutex) (b : bool) (rest2 : list Event)
  (l : list (bool * Event)) (r : list Event) :
  freeOf mu r = true ->
  proj b l = r ++ [EvUnlock mu] ->
  proj (negb b) l = EvLock mu :: rest2 ->
  respects mu (Some b) l = true ->
  l = tag b (r ++ [EvUnlock mu]) ++ tag (negb b) (EvLock mu :: rest2).
Proof.
  revert r. induction l as [|[b' e] l IH]; intros r Hfree Hb Hnb Hresp.
  - destruct r; discriminate.
  - rewrite proj_cons in Hb, Hnb.
    destruct (Bool.eqb b' b) eqn:Hbb.
    + apply Bool.eqb_prop in Hbb. subst b'.
      replace (Bool.eqb b (negb b)) with false in Hnb by (destruct b; reflexivity).
      destruct r as [|x r]; simpl in Hb.
      * injection Hb as -> Hb.
        rewrite (proj_none b l Hb), Hnb. reflexivity.
      * injection Hb as -> Hb. simpl in Hfree.
        apply andb_prop in Hfree as [Hx Hfree]. apply negb_true_iff in Hx.
        rewrite (respects_skip mu _ b x l Hx) in Hresp.
        simpl. unfold tag in *. simpl. f_equal.
        exact (IH r Hfree Hb Hnb Hresp).
    + assert (b' = negb b) by (destruct b, b'; simpl in *; congruence). subst b'.
      replace (Bool.eqb (negb b) (negb b)) with true in Hnb by (destruct b; reflexivity).
      injection Hnb as -> _. simpl in Hresp.
      rewrite bool_decide_eq_true_2 in Hresp by reflexivity. discriminate.
Qed.

(** Two calls that hold the same mutex from their first to their last
    event can only run one after the other. *)
Lemma exclusive_calls_serial (mu : Mutex) (m1 m2 : list Event) (l : list (bool * Event)) :
  freeOf mu m1 = true ->
  freeOf mu m2 = true ->
  proj false l = EvLock mu :: m1 ++ [EvUnlock mu] ->
  proj true l = EvLock mu :: m2 ++ [EvUnlock mu] ->
  respects mu None l = true ->
  l = tag false (EvLock mu :: m1 ++ [EvUnlock mu]) ++ tag true (EvLock mu :: m2 ++ [EvUnlock mu])
  \/ l = tag true (EvLock mu :: m2 ++ [EvUnlock mu]) ++ tag false (EvLock mu :: m1 ++ [EvUnlock mu]).
Proof.
  intros H1 H2 Hf Ht Hresp.
  destruct l as [|[b e] l]; [discriminate|].
  rewrite proj_cons in Hf, Ht. destruct b; simpl in Hf, Ht.
  - right. injection Ht as -> Ht. simpl in Hresp.
    rewrite bool_decide_eq_true_2 in Hresp by reflexivity.
    rewrite (holder_runs_first mu true (m1 ++ [EvUnlock mu]) l m2 H2 Ht Hf Hresp).
    reflexivity.
  - left. injection Hf as -> Hf. simpl in Hresp.
    rewrite bool_decide_eq_true_2 in Hresp by reflexivity.
    rewrite (holder_runs_first mu false (m2 ++ [EvUnlock mu]) l m1 H1 Hf Ht Hresp).
    reflexivity.
Qed.

(** ** The session table: [startCast] and [stopCast] *)

(** A failed [startCast] leaves the [App] as it was and neither records
    a session nor executes a statement. *)
Lemma startCast_error_unchanged (w : World) (id dev msg : string) (a : App) (e : string) :
  result (startCast w id dev msg a) = Some e ->
  final (startCast w id dev msg a) = a
  /\ countIf (isRecordSession id) (trace (startCast w id dev msg a)) = O
  /\ countIf isExec (trace (startCast w id dev msg a)) = O.
Proof.
  unfold startCast. munfold. mresults.
  destruct (ActiveCasts a !! id) eqn:Hs; simpl.
  { intros _. destruct a; auto. }
  destruct (find _ _); simpl.
  2:{ intros _. destruct a; auto. }
  destruct (GetLANIp w); simpl.
  2:{ intros _. destruct a; auto. }
  destruct (PlayMedia w _ _); simpl.
  { intros _. destruct a; auto. }
  destruct (dbExecOk w _); simpl; discriminate.
Qed.

(** C3: [startCast] on an identifier that already has a session returns
    an error and keeps that session; and whenever [startCast] returns an
    error, whatever the cause (a session exists, the device is not found,
    the local address is not known, the media does not play), the
    session table and the store are as before: no session is recorded
    and the status of the notification is not changed. *)
Theorem startCast_exclusive_and_clean_on_error
  (w : World) (id dev msg : string) (a : App) :
  (forall s, ActiveCasts a !! id = Some s ->
     result (startCast w id dev msg a) = Some "cast already active for this notification"
     /\ ActiveCasts (final (startCast w id dev msg a)) !! id = Some s)
  /\ (forall e, result (startCast w id dev msg a) = Some e ->
        ActiveCasts (final (startCast w id dev msg a)) = ActiveCasts a
        /\ DB (final (startCast w id dev msg a)) = DB a
        /\ countIf (isRecordSession id) (trace (startCast w id dev msg a)) = O
        /\ countIf isExec (trace (startCast w id dev msg a)) = O)
  /\ (ActiveCasts a !! id = None ->
      (find (fun d => existsb (String.eqb dev) (Names d)) (mdnsDevices w dev) = None
       \/ (exists e, GetLANIp w = inr e)
       \/ (exists d ip e, find (fun d => existsb (String.eqb dev) (Names d))
                               (mdnsDevices w dev) = Some d
                          /\ GetLANIp w = inl ip
                          /\ PlayMedia w (Url d)
                               ("http://" +:+ ip +:+ serverPort +:+ "/files/" +:+ id
                                +:+ "/playlist.m3u8") = Some e)) ->
      result (startCast w id dev msg a) <> None
      /\ ActiveCasts (final (startCast w id dev msg a)) !! id = None).
Proof.
  split; [|split].
  - intros s Hs.
    assert (Hr : result (startCast w id dev msg a)
                 = Some "cast already active for this notification").
    { unfold startCast. munfold. mresults. rewrite Hs. reflexivity. }
    split; [exact Hr|].
    destruct (startCast_error_unchanged w id dev msg a _ Hr) as [-> _]. exact Hs.
  - intros e He.
    destruct (startCast_error_unchanged w id dev msg a e He) as (-> & H1 & H2).
    auto.
  - intros Hnone Hcause.
    assert (Hr : result (startCast w id dev msg a) <> None).
    { unfold startCast. munfold. mresults. rewrite Hnone. simpl.
      destruct Hcause as [Hf | [[e He] | (d & ip & e & Hf & Hip & Hp)]].
      - rewrite Hf. simpl. discriminate.
      - destruct (find _ _); simpl; [|discriminate].
        rewrite He. simpl. discriminate.
      - rewrite Hf. simpl. rewrite Hip. simpl. rewrite Hp. simpl. discriminate. }
    split; [exact Hr|].
    destruct (result (startCast w id dev msg a)) as [e|] eqn:He; [|congruence].
    destruct (startCast_error_unchanged w id dev msg a e He) as [-> _]. exact Hnone.
Qed.

Lemma startCast_exclusive_witness :
  result (startCast calm "n1" "Living Room TV" "hi" app1)
  = Some "cast already active for this notification"
  /\ ActiveCasts (final (startCast calm "n1" "Living Room TV" "hi" app1)) !! "n1"
     = Some session1.
Proof.
  apply (startCast_exclusive_and_clean_on_error calm "n1" "Living Room TV" "hi" app1).
  vm_compute. reflexivity.
Defined.

(** [stopCast] without a recorded session does nothing. *)
Lemma stopCast_absent (w : World) (id : string) (a : App) :
  ActiveCasts a !! id = None ->
  stopCast w id a = (None, a, [EvLock CastMutex; EvUnlock CastMutex]).
Proof.
  intros H. unfold stopCast. munfold. rewrite H. reflexivity.
Qed.

(** [stopCast] on a recorded, active session: one teardown. *)
Lemma stopCast_active (w : World) (id : string) (a : App) (s : CastSession) :
  ActiveCasts a !! id = Some s -> Active s = true ->
  result (stopCast w id a) = None
  /\ ActiveCasts (final (stopCast w id a)) = delete id (ActiveCasts a)
  /\ VideoGenInProgress (final (stopCast w id a)) = VideoGenInProgress a
  /\ DB (final (stopCast w id a))
     = (if dbExecOk w (UpdateStatus "completed" id)
        then alter (setStatus "completed") id (DB a) else DB a)
  /\ countIf isCancel (trace (stopCast w id a))
     = (if Cancel s is Some _ then 1%nat else O)
  /\ countIf (isRemoveSession id) (trace (stopCast w id a)) = 1%nat.
Proof.
  intros H Hact. unfold stopCast. munfold. mresults. rewrite H. simpl.
  rewrite Hact. simpl.
  destruct (Cancel s); simpl;
    destruct (dbExecOk w _); simpl;
    rewrite delete_insert_eq, String.eqb_refl; repeat split; reflexivity.
Qed.

(** The trace of [startCast] between its [Lock] and its deferred
    [Unlock]. *)
Lemma startCast_trace (w : World) (id dev msg : string) (a : App) :
  exists mid,
    trace (startCast w id dev msg a) = EvLock CastMutex :: mid ++ [EvUnlock CastMutex]
    /\ freeOf CastMutex mid = true
    /\ (ActiveCasts a !! id = None -> existsb isLong mid = true).
Proof.
  unfold startCast. rewrite locked_trace.
  eexists. split; [reflexivity|].
  munfold. mresults.
  destruct (ActiveCasts a !! id); simpl; [split; [reflexivity|discriminate]|].
  destruct (find _ _); simpl; [|auto].
  destruct (GetLANIp w); simpl; [|auto].
  destruct (PlayMedia w _ _); simpl; [auto|].
  destruct (dbExecOk w _); simpl; auto.
Qed.

Lemma stopCast_trace (w : World) (id : string) (a : App) :
  exists mid,
    trace (stopCast w id a) = EvLock CastMutex :: mid ++ [EvUnlock CastMutex]
    /\ freeOf CastMutex mid = true
    /\ (forall s, ActiveCasts a !! id = Some s -> Active s = true ->
          existsb isLong mid = true).
Proof.
  unfold stopCast. rewrite locked_trace.
  eexists. split; [reflexivity|].
  munfold. mresults.
  destruct (ActiveCasts a !! id) as [s|]; simpl; [|split; [reflexivity|discriminate]].
  destruct (Active s) eqn:Hact; simpl.
  - destruct (Cancel s); simpl; destruct (dbExecOk w _); simpl; auto.
  - split; [reflexivity|]. intros s' [= <-]. congruence.
Qed.

(** [startCast] and [stopCast] keep the table in the shape [startCast]
    gives it: every recorded session is active and has its cancel
    function. *)
Lemma startCast_sessionsWf (w : World) (id dev msg : string) (a : App) :
  sessionsWf a -> sessionsWf (final (startCast w id dev msg a)).
Proof.
  intros Hwf. unfold startCast. munfold. mresults.
  destruct (ActiveCasts a !! id) eqn:Hs; simpl; [exact Hwf|].
  destruct (find _ _); simpl; [|exact Hwf].
  destruct (GetLANIp w); simpl; [|exact Hwf].
  destruct (PlayMedia w _ _); simpl; [exact Hwf|].
  destruct (dbExecOk w _); simpl; intros id' s'; simpl;
    (destruct (decide (id = id')) as [<-|Hne];
     [rewrite lookup_insert_eq; intros [= <-]; auto
     |rewrite lookup_insert_ne by exact Hne; apply Hwf]).
Qed.

Lemma stopCast_sessionsWf (w : World) (id : string) (a : App) :
  sessionsWf a -> sessionsWf (final (stopCast w id a)).
Proof.
  intros Hwf.
  destruct (ActiveCasts a !! id) as [s|] eqn:Hs.
  - destruct (Hwf id s Hs) as (_ & Hact & _).
    destruct (stopCast_active w id a s Hs Hact) as (_ & Ha & _).
    intros id' s'. rewrite Ha.
    destruct (decide (id = id')) as [<-|Hne].
    + rewrite lookup_delete_eq. discriminate.
    + rewrite lookup_delete_ne by exact Hne. apply Hwf.
  - rewrite (stopCast_absent w id a Hs). exact Hwf.
Qed.



(** ** One pre-generation per notification *)

(** What one step does to the in-progress set and to the program
    counter. *)
Lemma pgStep_spec (w : World) (pc : PgPC) (a : App) :
  let a' := final (pgStep w pc a) in
  let pc' := result (pgStep w pc a) in
  match pc with
  | PgQuery _ =>
      VideoGenInProgress a' = VideoGenInProgress a
      /\ (pc' = PgReturned \/ exists rows, pc' = PgNext rows)
  | PgNext [] => VideoGenInProgress a' = VideoGenInProgress a /\ pc' = PgReturned
  | PgNext (n :: rows) =>
      VideoGenInProgress a' = VideoGenInProgress a
      /\ (pc' = PgNext rows \/ pc' = PgAcquire n rows)
  | PgAcquire n rows =>
      (marked (ID n) a = true
       /\ VideoGenInProgress a' = VideoGenInProgress a /\ pc' = PgNext rows)
      \/ (marked (ID n) a = false
          /\ VideoGenInProgress a' = <[ID n := true]> (VideoGenInProgress a)
          /\ pc' = PgJob n rows)
  | PgJob n rows =>
      VideoGenInProgress a' = VideoGenInProgress a
      /\ exists panicking, pc' = PgRelease n panicking rows
  | PgRelease n panicking rows =>
      VideoGenInProgress a' = delete (ID n) (VideoGenInProgress a)
      /\ pc' = (if panicking then PgReturned else PgNext rows)
  | PgReturned => VideoGenInProgress a' = VideoGenInProgress a /\ pc' = PgReturned
  end.
Proof.
  destruct pc as [now|[|n rows]|n rows|n rows|n p rows|]; simpl; munfold; mresults.
  - destruct (dbQueryOk w _); simpl; eauto.
  - auto.
  - destruct (osStat w _); simpl; auto.
  - unfold marked. destruct (VideoGenInProgress a !! ID n) as [[|]|]; simpl; auto.
  - unfold pgJobBody. munfold.
    destruct (imageOutcome w (ID n)); simpl; eauto.
    destruct (ttsOutcome w _ (ID n)); simpl; eauto;
      destruct (ffmpegOutcome w _); simpl; eauto.
  - auto.
  - auto.
Qed.

(** Pre-generation never writes to the store. *)
Lemma pgStep_DB (w : World) (pc : PgPC) (a : App) : DB (final (pgStep w pc a)) = DB a.
Proof.
  destruct pc as [now|[|n rows]|n rows|n rows|n p rows|]; simpl; munfold; mresults;
    try reflexivity.
  - destruct (dbQueryOk w _); reflexivity.
  - destruct (osStat w _); reflexivity.
  - destruct (VideoGenInProgress a !! ID n) as [[|]|]; reflexivity.
  - unfold pgJobBody. munfold.
    destruct (imageOutcome w (ID n)); simpl; try reflexivity.
    destruct (ttsOutcome w _ (ID n)); simpl; try reflexivity;
      destruct (ffmpegOutcome w _); reflexivity.
Qed.

(** No step of pre-generation does long-running work under a lock. *)
Lemma pgStep_short_locks (w : World) (pc : PgPC) (a : App) (mu : Mutex) :
  longWhileHeld mu false (trace (pgStep w pc a)) = false.
Proof.
  destruct pc as [now|[|n rows]|n rows|n rows|n p rows|]; simpl; munfold; mresults.
  - destruct (dbQueryOk w _); reflexivity.
  - reflexivity.
  - destruct (osStat w _); reflexivity.
  - destruct (VideoGenInProgress a !! ID n) as [[|]|]; simpl;
      destruct (bool_decide (VideoGenMutex = mu)); reflexivity.
  - unfold pgJobBody. munfold.
    destruct (imageOutcome w (ID n)); simpl; try reflexivity.
    destruct (ttsOutcome w _ (ID n)); simpl; try reflexivity;
      destruct (ffmpegOutcome w _); reflexivity.
  - simpl. destruct (bool_decide (VideoGenMutex = mu)); reflexivity.
  - reflexivity.
Qed.

Lemma marked_eq (id : string) (a a' : App) :
  VideoGenInProgress a' = VideoGenInProgress a -> marked id a' = marked id a.
Proof. unfold marked. intros ->. reflexivity. Qed.

Lemma dedupInv_step (s s' : Sys) : dedupInv s -> sysStep s s' -> dedupInv s'.
Proof.
  intros Hinv Hstep id. specialize (Hinv id).
  destruct Hstep as [s now | s i pc w Hi | s a' Hsame]; simpl.
  - rewrite countIf_app. simpl. lia.
  - pose proof (countIf_insert (inFlight id) (sys_threads s) i pc
                  (result (pgStep w pc (sys_app s))) Hi) as Hcount.
    pose proof (pgStep_spec w pc (sys_app s)) as Hspec. simpl in Hspec.
    set (a' := final (pgStep w pc (sys_app s))) in *.
    set (pc' := result (pgStep w pc (sys_app s))) in *.
    destruct pc as [now|[|n rows]|n rows|n rows|n p rows|]; simpl in Hcount.
    + destruct Hspec as [Hv [-> | [rows ->]]];
        rewrite (marked_eq id _ _ Hv); simpl in Hcount; lia.
    + destruct Hspec as [Hv ->]. rewrite (marked_eq id _ _ Hv). simpl in Hcount. lia.
    + destruct Hspec as [Hv [-> | ->]];
        rewrite (marked_eq id _ _ Hv); simpl in Hcount; lia.
    + destruct Hspec as [(Hm & Hv & ->) | (Hm & Hv & ->)].
      * rewrite (marked_eq id _ _ Hv). simpl in Hcount. lia.
      * simpl in Hcount. unfold marked at 1. rewrite Hv.
        destruct (String.eqb (ID n) id) eqn:Heq.
        -- apply String.eqb_eq in Heq. subst id.
           rewrite lookup_insert_eq. rewrite Hm in Hinv. lia.
        -- apply String.eqb_neq in Heq.
           rewrite lookup_insert_ne by exact Heq. fold (marked id (sys_app s)). lia.
    + destruct Hspec as [Hv [p ->]]. rewrite (marked_eq id _ _ Hv).
      simpl in Hcount. lia.
    + destruct Hspec as [Hv Hpc].
      assert (Hfree : inFlight id pc' = false) by (rewrite Hpc; destruct p; reflexivity).
      rewrite Hfree in Hcount. unfold marked at 1. rewrite Hv.
      destruct (String.eqb (ID n) id) eqn:Heq.
      * apply String.eqb_eq in Heq. subst id. rewrite lookup_delete_eq.
        destruct (marked (ID n) (sys_app s)); lia.
      * apply String.eqb_neq in Heq.
        rewrite lookup_delete_ne by exact Heq. fold (marked id (sys_app s)). lia.
    + destruct Hspec as [Hv ->]. rewrite (marked_eq id _ _ Hv). simpl in Hcount. lia.
  - rewrite (marked_eq id _ _ Hsame). exact Hinv.
Qed.

Lemma dedupInv_reachable (s : Sys) : reachable s -> dedupInv s.
Proof.
  induction 1 as [db | s s' _ IH Hstep].
  - intros id. reflexivity.
  - exact (dedupInv_step s s' IH Hstep).
Qed.

Lemma sysRun_reachable (acts : list SysAction) (s : Sys) :
  reachable s -> reachable (sysRun acts s).
Proof.
  revert s. induction acts as [|act acts IH]; intros s Hs; simpl; [exact Hs|].
  apply IH. destruct act as [now|i w]; simpl.
  - exact (reach_step _ _ Hs (step_go s now)).
  - destruct (sys_threads s !! i) as [pc|] eqn:Hi; [|exact Hs].
    exact (reach_step _ _ Hs (step_pg s i pc w Hi)).
Defined.

(** C2: in every state the process can reach, and for every identifier,
    at most one pre-generation goroutine is inside the closure that
    prepares its content, and one is exactly when the in-progress mark is
    set.  The closure always ends in its deferred function, whether the
    image, the narration or the video succeeds, fails or panics, and the
    deferred function clears the mark before the goroutine is out of the
    closure. *)
Theorem pregeneration_exclusive (s : Sys) :
  reachable s ->
  (forall id,
     (countIf (inFlight id) (sys_threads s) <= 1)%nat
     /\ (countIf (inFlight id) (sys_threads s) = 1%nat <-> marked id (sys_app s) = true))
  /\ (forall w n rows a,
        exists panicking,
          result (pgStep w (PgJob n rows) a) = PgRelease n panicking rows
          /\ marked (ID n) (final (pgStep w (PgJob n rows) a)) = marked (ID n) a)
  /\ (forall w n panicking rows a,
        VideoGenInProgress (final (pgStep w (PgRelease n panicking rows) a)) !! ID n = None
        /\ inFlight (ID n) (result (pgStep w (PgRelease n panicking rows) a)) = false).
Proof.
  intros Hreach. split; [|split].
  - intros id. pose proof (dedupInv_reachable s Hreach id) as H.
    destruct (marked id (sys_app s)); rewrite H; split; try lia; split; intros; try lia;
      try reflexivity; discriminate.
  - intros w n rows a.
    pose proof (pgStep_spec w (PgJob n rows) a) as [Hv [p Hp]].
    exists p. split; [exact Hp|]. apply marked_eq. exact Hv.
  - intros w n p rows a.
    pose proof (pgStep_spec w (PgRelease n p rows) a) as [Hv Hp].
    rewrite Hv, Hp. split; [apply lookup_delete_eq|]. destruct p; reflexivity.
Qed.

Example raceState_threads :
  sys_threads raceState = [PgJob (scanRow ("n1", rowPending)) []; PgNext []]
  /\ marked "n1" (sys_app raceState) = true.
Proof. vm_compute. split; reflexivity. Qed.

Lemma pregeneration_exclusive_witness :
  (countIf (inFlight "n1") (sys_threads raceState) <= 1)%nat
  /\ (countIf (inFlight "n1") (sys_threads raceState) = 1%nat
      <-> marked "n1" (sys_app raceState) = true).
Proof.
  apply (proj1 (pregeneration_exclusive raceState
                  (sysRun_reachable raceSchedule _ (reach_init {["n1" := rowPending]})))).
Defined.

(** Run alone, [preGenerateVideosForPendingNotifications] returns, and
    leaves every mark as it found it. *)
Lemma pgRun_returns (w : World) (fuel : nat) (pc : PgPC) (a : App) :
  (pgBound pc <= fuel)%nat ->
  (forall now, pc <> PgQuery now) ->
  result (pgRun fuel w pc a) = PgReturned
  /\ forall id, marked id (final (pgRun fuel w pc a))
                = if inFlight id pc then false else marked id a.
Proof.
  revert pc a. induction fuel as [|fuel IH]; intros pc a Hb Hq.
  - destruct pc; simpl in Hb; try lia.
    + exfalso. exact (Hq now eq_refl).
    + split; reflexivity.
  - pose proof (pgStep_spec w pc a) as Hspec. simpl in Hspec.
    destruct pc as [now|rows|n rows|n rows|n p rows|].
    + exfalso. exact (Hq now eq_refl).
    + cbn [pgRun]. unfold mbind, M_bind, bind. mresults.
      destruct (pgStep w (PgNext rows) a) as [[pc' a'] t] eqn:Hs. simpl in Hspec.
      destruct rows as [|n rows].
      * destruct Hspec as [Hv ->].
        destruct (IH PgReturned a') as [Hr Hm]; [simpl; lia|discriminate|].
        mresults. destruct (pgRun fuel w PgReturned a') as [[r a''] t']. simpl in *.
        split; [exact Hr|]. intros id. rewrite Hm. apply marked_eq. exact Hv.
      * destruct Hspec as [Hv [-> | ->]].
        -- destruct (IH (PgNext rows) a') as [Hr Hm]; [simpl in *; lia|discriminate|].
           mresults. destruct (pgRun fuel w (PgNext rows) a') as [[r a''] t']. simpl in *.
           split; [exact Hr|]. intros id. rewrite Hm. apply marked_eq. exact Hv.
        -- destruct (IH (PgAcquire n rows) a') as [Hr Hm]; [simpl in *; lia|discriminate|].
           mresults. destruct (pgRun fuel w (PgAcquire n rows) a') as [[r a''] t'].
           simpl in *.
           split; [exact Hr|]. intros id. rewrite Hm. apply marked_eq. exact Hv.
    + cbn [pgRun]. unfold mbind, M_bind, bind. mresults.
      destruct (pgStep w (PgAcquire n rows) a) as [[pc' a'] t] eqn:Hs. simpl in Hspec.
      destruct Hspec as [(Hmk & Hv & ->) | (Hmk & Hv & ->)].
      * destruct (IH (PgNext rows) a') as [Hr Hm]; [simpl in *; lia|discriminate|].
        mresults. destruct (pgRun fuel w (PgNext rows) a') as [[r a''] t']. simpl in *.
        split; [exact Hr|]. intros id. rewrite Hm. apply marked_eq. exact Hv.
      * destruct (IH (PgJob n rows) a') as [Hr Hm]; [simpl in *; lia|discriminate|].
        mresults. destruct (pgRun fuel w (PgJob n rows) a') as [[r a''] t']. simpl in *.
        split; [exact Hr|]. intros id. rewrite Hm.
        destruct (String.eqb (ID n) id) eqn:Heq.
        -- apply String.eqb_eq in Heq. subst id. symmetry. exact Hmk.
        -- apply String.eqb_neq in Heq. unfold marked. rewrite Hv.
           rewrite lookup_insert_ne by exact Heq. reflexivity.
    + cbn [pgRun]. unfold mbind, M_bind, bind. mresults.
      destruct (pgStep w (PgJob n rows) a) as [[pc' a'] t] eqn:Hs. simpl in Hspec.
      destruct Hspec as [Hv [p ->]].
      destruct (IH (PgRelease n p rows) a') as [Hr Hm]; [simpl in *; lia|discriminate|].
      mresults. destruct (pgRun fuel w (PgRelease n p rows) a') as [[r a''] t'].
      simpl in *.
      split; [exact Hr|]. intros id. rewrite Hm.
      destruct (String.eqb (ID n) id); [reflexivity|]. apply marked_eq. exact Hv.
    + cbn [pgRun]. unfold mbind, M_bind, bind. mresults.
      destruct (pgStep w (PgRelease n p rows) a) as [[pc' a'] t] eqn:Hs. simpl in Hspec.
      destruct Hspec as [Hv ->].
      assert (Hnext : exists pc', pc' = (if p then PgReturned else PgNext rows)
                                  /\ (pgBound pc' <= fuel)%nat
                                  /\ (forall now, pc' <> PgQuery now)
                                  /\ (forall id, inFlight id pc' = false)).
      { eexists. split; [reflexivity|]. destruct p; simpl in *;
          repeat split; try lia; try discriminate. }
      destruct Hnext as (pc' & <- & Hb' & Hq' & Hfree).
      destruct (IH pc' a' Hb' Hq') as [Hr Hm].
      mresults. destruct (pgRun fuel w pc' a') as [[r a''] t']. simpl in *.
      split; [exact Hr|]. intros id. rewrite Hm, Hfree.
      unfold marked. rewrite Hv.
      destruct (String.eqb (ID n) id) eqn:Heq.
      * apply String.eqb_eq in Heq. subst id. rewrite lookup_delete_eq. reflexivity.
      * apply String.eqb_neq in Heq. rewrite lookup_delete_ne by exact Heq. reflexivity.
    + split; reflexivity.
Qed.

Lemma preGenerate_returns (w : World) (now : Time) (a : App) :
  result (preGenerateVideosForPendingNotifications w now a) = PgReturned
  /\ forall id, marked id (final (preGenerateVideosForPendingNotifications w now a))
                = marked id a.
Proof.
  unfold preGenerateVideosForPendingNotifications. unfold mbind, M_bind, bind. mresults.
  pose proof (pgStep_spec w (PgQuery now) a) as Hspec. cbv beta zeta iota in Hspec.
  mresults.
  destruct (pgStep w (PgQuery now) a) as [[pc a'] t]. simpl in Hspec.
  destruct Hspec as [Hv Hpc].
  assert (Hq : forall now', pc <> PgQuery now')
    by (destruct Hpc as [->|[rows ->]]; discriminate).
  assert (Hfree : forall id, inFlight id pc = false)
    by (destruct Hpc as [->|[rows ->]]; reflexivity).
  destruct (pgRun_returns w (pgBound pc) pc a' (le_n _) Hq) as [Hr Hm].
  mresults. destruct (pgRun (pgBound pc) w pc a') as [[r a''] t']. simpl in *.
  split; [exact Hr|]. intros id. rewrite Hm, Hfree. apply marked_eq. exact Hv.
Qed.

(** ** What the locks cover *)

(** C9 (amended): the lock of the in-progress set is held only to test
    and set or to clear a mark, never during long-running work.  The
    lock of the session table is another matter: [startCast] and
    [stopCast] take [CastMutex] first and release it last, so device
    discovery, the wait for the server, the start of the media and the
    settle delay all happen while it is held, and a start and a stop,
    also for two different identifiers, run one after the other. *)
Theorem cast_mutex_held_throughout
  (w1 w2 : World) (id1 dev msg id2 : string) (a1 a2 : App) :
  (forall w pc a mu, longWhileHeld mu false (trace (pgStep w pc a)) = false)
  /\ (ActiveCasts a1 !! id1 = None ->
      longWhileHeld CastMutex false (trace (startCast w1 id1 dev msg a1)) = true)
  /\ (forall s, ActiveCasts a2 !! id2 = Some s -> Active s = true ->
      longWhileHeld CastMutex false (trace (stopCast w2 id2 a2)) = true)
  /\ (forall l,
        proj false l = trace (startCast w1 id1 dev msg a1) ->
        proj true l = trace (stopCast w2 id2 a2) ->
        respects CastMutex None l = true ->
        l = tag false (trace (startCast w1 id1 dev msg a1))
            ++ tag true (trace (stopCast w2 id2 a2))
        \/ l = tag true (trace (stopCast w2 id2 a2))
               ++ tag false (trace (startCast w1 id1 dev msg a1))).
Proof.
  destruct (startCast_trace w1 id1 dev msg a1) as (m1 & Ht1 & Hf1 & Hl1).
  destruct (stopCast_trace w2 id2 a2) as (m2 & Ht2 & Hf2 & Hl2).
  split; [|split; [|split]].
  - intros w pc a mu. apply pgStep_short_locks.
  - intros Hnone. rewrite Ht1, (longWhileHeld_locked _ _ Hf1). exact (Hl1 Hnone).
  - intros s Hs Hact. rewrite Ht2, (longWhileHeld_locked _ _ Hf2). exact (Hl2 s Hs Hact).
  - intros l. rewrite Ht1, Ht2. apply exclusive_calls_serial; assumption.
Qed.

Lemma cast_mutex_held_throughout_witness :
  longWhileHeld CastMutex false (trace (startCast calm "n2" "Living Room TV" "hi" app1))
  = true
  /\ longWhileHeld CastMutex false (trace (stopCast calm "n1" app1)) = true.
Proof.
  pose proof (cast_mutex_held_throughout calm calm "n2" "Living Room TV" "hi" "n1" app1 app1)
    as (_ & Hstart & Hstop & _).
  split.
  - apply Hstart. vm_compute. reflexivity.
  - apply (Hstop session1); vm_compute; reflexivity.
Defined.

(** A start for one notification comes while another is being stopped:
    the settle delay of the stop and the device discovery of the start
    each happen with [CastMutex] held, and a schedule in which the start
    begins before the stop has finished does not respect the mutex. *)
Lemma cast_start_and_stop_do_not_overlap :
  "n2" <> "n1"
  /\ longWhileHeld CastMutex false (trace (stopCast calm "n1" app1)) = true
  /\ longWhileHeld CastMutex false (trace (startCast calm "n2" "Living Room TV" "hi" app1))
     = true
  /\ respects CastMutex None
       ([(true, EvLock CastMutex); (true, EvLock (SessionMutex "n1"));
         (true, EvUnlock (SessionMutex "n1")); (true, EvCancel "n1");
         (false, EvLock CastMutex); (false, EvMdnsSearch "Living Room TV" 5);
         (true, EvSleep 1500)]) = false.
Proof. vm_compute. repeat split. discriminate. Qed.

(** ** The scans of a tick *)

Lemma sameAt_refl (id : string) (a : App) : sameAt id a a.
Proof. split; reflexivity. Qed.

Lemma sameAt_trans (id : string) (a b c : App) :
  sameAt id a b -> sameAt id b c -> sameAt id a c.
Proof. intros [H1 H2] [H3 H4]. split; congruence. Qed.

Lemma startCast_other (w : World) (id id' dev msg : string) (a : App) :
  id' <> id -> sameAt id a (final (startCast w id' dev msg a)).
Proof.
  intros Hne. unfold startCast, sameAt. munfold. mresults.
  destruct (ActiveCasts a !! id'); simpl; [auto|].
  destruct (find _ _); simpl; [|auto].
  destruct (GetLANIp w); simpl; [|auto].
  destruct (PlayMedia w _ _); simpl; [auto|].
  destruct (dbExecOk w _); simpl.
  - rewrite lookup_alter_ne by exact Hne. rewrite lookup_insert_ne by exact Hne. auto.
  - rewrite lookup_insert_ne by exact Hne. auto.
Qed.

Lemma stopCast_other (w : World) (id id' : string) (a : App) :
  id' <> id -> sameAt id a (final (stopCast w id' a)).
Proof.
  intros Hne. unfold stopCast, sameAt. munfold. mresults.
  destruct (ActiveCasts a !! id') as [s|]; simpl; [|auto].
  destruct (Active s); simpl; [|auto].
  destruct (Cancel s); simpl; destruct (dbExecOk w _); simpl;
    rewrite ?lookup_alter_ne by exact Hne;
    rewrite lookup_delete_ne by exact Hne;
    rewrite lookup_insert_ne by exact Hne; auto.
Qed.

(** A loop keeps what each of its iterations keeps. *)
Lemma forEach_keeps {A} (P : App -> App -> Prop) (l : list A) (body : A -> M unit) :
  (forall a, P a a) ->
  (forall a b c, P a b -> P b c -> P a c) ->
  (forall x a, x ∈ l -> P a (final (body x a))) ->
  forall a, P a (final (forEach l body a)).
Proof.
  intros Hrefl Htrans. induction l as [|x l IH]; intros Hbody a; simpl.
  - apply Hrefl.
  - munfold. mresults.
    pose proof (Hbody x a (list_elem_of_here x l)) as Hx.
    destruct (body x a) as [[u a1] t1] eqn:Hb. simpl in Hx.
    assert (IH' : P a1 (final (forEach l body a1))).
    { apply IH. intros y b Hy. apply Hbody. apply list_elem_of_further. exact Hy. }
    mresults. destruct (forEach l body a1) as [[u2 a2] t2]. simpl in *.
    eapply Htrans; eauto.
Qed.

(** The rows a query returns are rows of the store that it selects. *)
Lemma dbQuery_rows (w : World) (q : Query) (a : App) (rows : list Notification) :
  result (dbQuery w q a) = Some rows ->
  final (dbQuery w q a) = a
  /\ forall n, n ∈ rows ->
       exists r, DB a !! ID n = Some r /\ selects q r = true /\ n = scanRow (ID n, r).
Proof.
  munfold. mresults. destruct (dbQueryOk w q); simpl; [|discriminate].
  intros [= <-]. split; [reflexivity|].
  intros n Hn. apply list_elem_of_fmap in Hn as ([k r] & -> & Hkr).
  apply elem_of_map_to_list in Hkr.
  apply map_lookup_filter_Some in Hkr as [Hl Hsel]. simpl in *.
  exists r. auto.
Qed.

Lemma dbQuery_final (w : World) (q : Query) (a : App) : final (dbQuery w q a) = a.
Proof. munfold. mresults. destruct (dbQueryOk w q); reflexivity. Qed.

(** The tick keeps the row and the session of [id] as soon as its two
    loops do nothing for [id]: the first because the row is not selected
    or its playlist is missing, the second because the row is not
    [active]. *)
Lemma tick_keeps (w : World) (now : Time) (a : App) (id : string) (r : Row) :
  DB a !! id = Some r ->
  status r <> "active" ->
  (selects (SelectPendingStarted (formatDBTime now)) r = false
   \/ osStat w (playlistPath id) = false) ->
  sameAt id a (final (checkAndProcessNotifications w now a)).
Proof.
  intros Hr Hst Hskip. unfold checkAndProcessNotifications.
  unfold mbind, M_bind, bind, emit. mresults. simpl.
  destruct (dbQuery w (SelectPendingStarted (formatDBTime now)) a)
    as [[pending a1] t1] eqn:Hq1.
  pose proof (dbQuery_final w (SelectPendingStarted (formatDBTime now)) a) as Hf1.
  pose proof (dbQuery_rows w (SelectPendingStarted (formatDBTime now)) a) as Hrows1.
  rewrite Hq1 in Hf1, Hrows1. mresults. simpl in Hf1, Hrows1. subst a1.
  destruct pending as [rows|]; simpl; [|apply sameAt_refl].
  destruct (Hrows1 rows eq_refl) as [_ Hin1]. clear Hrows1.
  match goal with
  | |- context [forEach rows ?b a] => set (body1 := b)
  end.
  assert (H1 : sameAt id a (final (forEach rows body1 a))).
  { apply (forEach_keeps (sameAt id)).
    - apply sameAt_refl.
    - apply sameAt_trans.
    - intros n b Hn. subst body1. simpl.
      destruct (_ && _); [|apply sameAt_refl].
      destruct (string_dec (ID n) id) as [Heq|Hne].
      + destruct (Hin1 n Hn) as (r' & Hl & Hsel & _).
        rewrite Heq in Hl. assert (r' = r) by congruence. subst r'.
        destruct Hskip as [Hs|Hs].
        * congruence.
        * rewrite Heq, Hs. apply sameAt_refl.
      + destruct (osStat w (playlistPath (ID n))); [|apply sameAt_refl].
        unfold mbind, M_bind, bind, ret. mresults.
        pose proof (startCast_other w id (ID n) (Device n) (Message n) b Hne) as Hs.
        mresults. destruct (startCast w (ID n) (Device n) (Message n) b) as [[e b'] t].
        exact Hs. }
  mresults. destruct (forEach rows body1 a) as [[u a2] t2]. simpl in H1. simpl.
  destruct (dbQuery w (SelectActiveEnded (formatDBTime now)) a2)
    as [[active a3] t3] eqn:Hq2.
  pose proof (dbQuery_final w (SelectActiveEnded (formatDBTime now)) a2) as Hf2.
  pose proof (dbQuery_rows w (SelectActiveEnded (formatDBTime now)) a2) as Hrows2.
  rewrite Hq2 in Hf2, Hrows2. mresults. simpl in Hf2, Hrows2. subst a3.
  destruct active as [rows2|]; simpl; [|exact H1].
  destruct (Hrows2 rows2 eq_refl) as [_ Hin2]. clear Hrows2.
  match goal with
  | |- context [forEach rows2 ?b a2] => set (body2 := b)
  end.
  assert (H2 : sameAt id a2 (final (forEach rows2 body2 a2))).
  { apply (forEach_keeps (sameAt id)).
    - apply sameAt_refl.
    - apply sameAt_trans.
    - intros n b Hn. subst body2. simpl.
      destruct (_ || _); [|apply sameAt_refl].
      destruct (string_dec (ID n) id) as [Heq|Hne].
      + destruct (Hin2 n Hn) as (r' & Hl & Hsel & _).
        rewrite Heq in Hl. destruct H1 as [H1 _]. rewrite H1, Hr in Hl.
        assert (r' = r) by congruence. subst r'.
        unfold selects in Hsel. apply andb_prop in Hsel as [Hsel _].
        apply String.eqb_eq in Hsel. contradiction.
      + unfold mbind, M_bind, bind, ret. mresults.
        pose proof (stopCast_other w id (ID n) b Hne) as Hs.
        mresults. destruct (stopCast w (ID n) b) as [[e b'] t].
        exact Hs. }
  mresults. destruct (forEach rows2 body2 a2) as [[u3 a4] t4]. simpl in *.
  eapply sameAt_trans; eauto.
Qed.

Lemma pending_ne_active (r : Row) : status r = "pending" -> status r <> "active".
Proof. intros ->. discriminate. Qed.

(** C5: the activation scan starts a session for a pending notification
    only when [os.Stat] finds its playlist
    [./data/chunks/<id>/playlist.m3u8].  When the playlist is missing
    the tick leaves the row as it is, still [pending], and records no
    session for it, so the next tick meets the same row again.  Hence a
    row that a tick turns [active] was [pending] and had its playlist. *)
Theorem activation_needs_playlist (w : World) (now : Time) (a : App) (id : string) (r : Row) :
  DB a !! id = Some r ->
  let a' := final (checkAndProcessNotifications w now a) in
  (status r = "pending" -> osStat w (playlistPath id) = false ->
     DB a' !! id = Some r /\ ActiveCasts a' !! id = ActiveCasts a !! id)
  /\ (forall r', status r <> "active" ->
        DB a' !! id = Some r' -> status r' = "active" ->
        status r = "pending" /\ osStat w (playlistPath id) = true).
Proof.
  intros Hr a'. split.
  - intros Hst Hno.
    destruct (tick_keeps w now a id r Hr (pending_ne_active r Hst) (or_intror Hno))
      as [H1 H2].
    fold a' in H1, H2. split; congruence.
  - intros r' Hna Hr' Hact.
    assert (Hchanged : DB a' !! id <> Some r).
    { rewrite Hr'. intros [= ->]. contradiction. }
    destruct (String.eqb (status r) "pending") eqn:Hst.
    + apply String.eqb_eq in Hst. split; [exact Hst|].
      destruct (osStat w (playlistPath id)) eqn:Hstat; [reflexivity|].
      destruct (tick_keeps w now a id r Hr Hna (or_intror Hstat)) as [H1 _].
      fold a' in H1. congruence.
    + assert (Hsel : selects (SelectPendingStarted (formatDBTime now)) r = false).
      { unfold selects. rewrite Hst. reflexivity. }
      destruct (tick_keeps w now a id r Hr Hna (or_introl Hsel)) as [H1 _].
      fold a' in H1. congruence.
Qed.

Lemma activation_needs_playlist_witness :
  DB (final (checkAndProcessNotifications notReady inWindow appPending)) !! "n1"
  = Some rowPending
  /\ ActiveCasts (final (checkAndProcessNotifications notReady inWindow appPending)) !! "n1"
     = ActiveCasts appPending !! "n1".
Proof.
  apply (proj1 (activation_needs_playlist notReady inWindow appPending "n1" rowPending
                  eq_refl));
    vm_compute; reflexivity.
Defined.

(** With the playlist in place the same tick starts the session and
    marks the row [active]. *)
Example activation_with_playlist :
  DB (final (checkAndProcessNotifications calm inWindow appPending)) !! "n1"
  = Some (setStatus "active" rowPending)
  /\ ActiveCasts (final (checkAndProcessNotifications calm inWindow appPending)) !! "n1"
     = Some session1.
Proof. vm_compute. split; reflexivity. Qed.

(** A pending row whose end is not after the clock reading is selected
    neither by the activation query nor by the deactivation query, and
    by the pre-generation query only if its start is after its end. *)
Lemma elapsed_not_selected (now : Time) (r : Row) :
  status r = "pending" ->
  Time_Before now (scanDBTime (end_time r)) = false ->
  selects (SelectPendingStarted (formatDBTime now)) r = false
  /\ selects (SelectActiveEnded (formatDBTime now)) r = false
  /\ (selects (SelectPendingSoon (formatDBTime now)
                 (formatDBTime (Time_Add now (5 * Minute)))) r = true ->
      end_time r < start_time r).
Proof.
  intros Hst Hend. unfold selects, formatDBTime, Time_Before, scanDBTime in *.
  simpl in *. rewrite Hst. simpl.
  apply orb_false_iff in Hend as [Hlt _]. apply Z.ltb_ge in Hlt.
  repeat split.
  - replace (unixSec now <? end_time r) with false by (symmetry; apply Z.ltb_ge; lia).
    apply andb_false_r.
  - intros H. apply andb_prop in H as [H _]. apply Z.ltb_lt in H. lia.
Qed.

(** C6 (amended): a notification that is [pending] while its end time is
    not after the clock reading keeps its row, status included, through
    every tick taken at such a reading: the activation query does not
    select it (it asks for start <= now < end), the deactivation query
    does not (it asks for [active]), and pre-generation never writes to
    the store.  The pre-generation query can select it, but only when
    its start time is after its end time. *)
Theorem elapsed_pending_row_stays
  (ticks : list (World * Time)) (a : App) (id : string) (r : Row) :
  DB a !! id = Some r ->
  status r = "pending" ->
  Forall (fun t => Time_Before (snd t) (scanDBTime (end_time r)) = false) ticks ->
  DB (runTicks ticks a) !! id = Some r
  /\ Forall (fun t =>
       selects (SelectPendingStarted (formatDBTime (snd t))) r = false
       /\ selects (SelectActiveEnded (formatDBTime (snd t))) r = false
       /\ (selects (SelectPendingSoon (formatDBTime (snd t))
                      (formatDBTime (Time_Add (snd t) (5 * Minute)))) r = true ->
           end_time r < start_time r)) ticks
  /\ (forall w pc a', DB (final (pgStep w pc a')) = DB a').
Proof.
  intros Hr Hst Hall. split; [|split].
  - revert a Hr. induction Hall as [|[w now] ticks Hend _ IH]; intros a Hr; simpl.
    + exact Hr.
    + apply IH.
      destruct (elapsed_not_selected now r Hst Hend) as [Hsel _].
      destruct (tick_keeps w now a id r Hr (pending_ne_active r Hst) (or_introl Hsel))
        as [H _].
      congruence.
  - induction Hall as [|t ticks Hend _ IH]; constructor; auto.
    apply elapsed_not_selected; assumption.
  - apply pgStep_DB.
Qed.

Lemma elapsed_pending_row_stays_witness :
  DB (runTicks [(calm, inWindow); (calm, mkTime 1735725620 0 UTC)]
               (mkApp {["n1" := rowElapsed]} ∅ ∅)) !! "n1" = Some rowElapsed.
Proof.
  apply (elapsed_pending_row_stays
           [(calm, inWindow); (calm, mkTime 1735725620 0 UTC)]
           (mkApp {["n1" := rowElapsed]} ∅ ∅) "n1" rowElapsed).
  - vm_compute. reflexivity.
  - reflexivity.
  - repeat constructor.
Defined.

(** The pre-generation scan selects such a row although its end time has
    passed, and goes on to prepare its video. *)
Lemma elapsed_pending_selected_by_pregeneration :
  status rowBackwards = "pending"
  /\ Time_Before inWindow (scanDBTime (end_time rowBackwards)) = false
  /\ result (pgStep notReady (PgQuery inWindow) (mkApp {["n1" := rowBackwards]} ∅ ∅))
     = PgNext [scanRow ("n1", rowBackwards)]
  /\ result (pgRun 3 notReady (PgQuery inWindow) (mkApp {["n1" := rowBackwards]} ∅ ∅))
     = PgJob (scanRow ("n1", rowBackwards)) [].
Proof. vm_compute. repeat split; reflexivity. Qed.

(** ** Creation of notifications *)

Lemma createNotification_parsed (w : World) (rb : requestBody) (a : App) (s e : Time) :
  Parse (localOffset w) RFC3339 (rb_StartTime rb) = inl s ->
  Parse (localOffset w) RFC3339 (rb_EndTime rb) = inl e ->
  createNotification w (Some rb) a
  = if negb (dbPrepareOk w) then (500, ErrorJSON "Database error" None, a, [])
    else
      match (if dbExecOk w (InsertNotification (uuidNew w) (createdRow rb s e))
             then applyStmt (InsertNotification (uuidNew w) (createdRow rb s e)) (DB a)
             else None) with
      | Some db' =>
          (201,
           NotificationJSON
             (mkNotification (uuidNew w) (rb_Message rb) s e (rb_Device rb) "pending"
                (if rb_RepeatCount rb <? 1 then 1 else rb_RepeatCount rb)),
           mkApp db' (ActiveCasts a) (VideoGenInProgress a),
           [EvExec (InsertNotification (uuidNew w) (createdRow rb s e)) true])
      | None =>
          (500, ErrorJSON "Failed to create notification" None, a,
           [EvExec (InsertNotification (uuidNew w) (createdRow rb s e)) false])
      end.
Proof.
  intros Hs He. unfold createNotification. rewrite Hs, He.
  destruct (dbPrepareOk w); simpl; [|reflexivity].
  munfold. unfold createdRow, formatDBTime, Time_UTC. simpl.
  destruct (if dbExecOk w _ then _ else _); reflexivity.
Qed.


(** C1 (amended): [createNotification] does not compare the start with
    the end.  It answers 400 only to a body it cannot read or to a
    timestamp that is not RFC 3339; a request whose two timestamps parse
    is inserted as a [pending] row and answered 201, whatever their
    order, when the store takes the row.  The check that the end is
    after the start is made by the web form, which posts nothing
    otherwise. *)
Theorem createNotification_accepts_any_order
  (w : World) (rb : requestBody) (a : App) (s e : Time) :
  Parse (localOffset w) RFC3339 (rb_StartTime rb) = inl s ->
  Parse (localOffset w) RFC3339 (rb_EndTime rb) = inl e ->
  (dbPrepareOk w = true ->
   dbExecOk w (InsertNotification (uuidNew w) (createdRow rb s e)) = true ->
   DB a !! uuidNew w = None ->
   fst (result (createNotification w (Some rb) a)) = 201
   /\ DB (final (createNotification w (Some rb) a))
      = <[uuidNew w := createdRow rb s e]> (DB a))
  /\ fst (result (createNotification w (Some rb) a)) <> 400
  /\ (forall fd body,
        String.leb (fd_end_time fd) (fd_start_time fd) = true ->
        handleSubmit fd <> Post body)
  /\ (forall fd,
        fd_device fd <> "" ->
        String.leb (fd_end_time fd) (fd_start_time fd) = false ->
        handleSubmit fd
        = Post (mkRequestBody (fd_message fd) (fd_device fd) (fd_start_time fd)
                              (fd_end_time fd) (fd_repeat_count fd))).
Proof.
  intros Hs He. rewrite (createNotification_parsed w rb a s e Hs He).
  split; [|split; [|split]].
  - intros Hprep Hexec Hfree. rewrite Hprep, Hexec. simpl. rewrite Hfree.
    split; reflexivity.
  - destruct (dbPrepareOk w); simpl; [|discriminate].
    destruct (if dbExecOk w _ then _ else _); simpl; discriminate.
  - intros fd body Hle. unfold handleSubmit.
    destruct (String.eqb _ _); [discriminate|]. rewrite Hle. discriminate.
  - intros fd Hdev Hlt. unfold handleSubmit.
    apply String.eqb_neq in Hdev. rewrite Hdev, Hlt. reflexivity.
Qed.

Lemma createNotification_accepts_any_order_witness :
  fst (result (createNotification calm (Some requestBackwards) app0)) = 201
  /\ DB (final (createNotification calm (Some requestBackwards) app0))
     = <[uuidNew calm := createdRow requestBackwards
                            (mkTime 1735725670 0 UTC) (mkTime 1735725550 0 UTC)]>
         (DB app0).
Proof.
  apply (createNotification_accepts_any_order calm requestBackwards app0
           (mkTime 1735725670 0 UTC) (mkTime 1735725550 0 UTC));
    vm_compute; reflexivity.
Defined.

(** The request is accepted and its row stored although its start is
    after its end. *)
Lemma createNotification_stores_start_after_end :
  Parse (localOffset calm) RFC3339 (rb_StartTime requestBackwards)
  = inl (mkTime 1735725670 0 UTC)
  /\ Parse (localOffset calm) RFC3339 (rb_EndTime requestBackwards)
     = inl (mkTime 1735725550 0 UTC)
  /\ Time_Before (mkTime 1735725670 0 UTC) (mkTime 1735725550 0 UTC) = false
  /\ fst (result (createNotification calm (Some requestBackwards) app0)) = 201
  /\ DB (final (createNotification calm (Some requestBackwards) app0)) !! "n1"
     = Some rowBackwards.
Proof. vm_compute. repeat split; reflexivity. Qed.



Example createNotification_repeat_count_stored :
  (repeat_count <$> DB (final (createNotification calm (Some requestNoRepeat) app0)) !! "n1")
  = Some 1.
Proof. vm_compute. reflexivity. Qed.

(** ** Reading timestamps *)

Lemma parseChunks_app (l1 l2 : list Chunk) (value : string) (f : Fields) :
  parseChunks (l1 ++ l2) value f
  = match parseSteps l1 value f with
    | inl (value', f') => parseChunks l2 value' f'
    | inr e => inr e
    end.
Proof.
  revert value f. induction l1 as [|c l1 IH]; intros value f; simpl; [reflexivity|].
  destruct (parseStd c value f) as [[v' f']|e]; [apply IH|reflexivity].
Qed.




Lemma parseStd_noZone (c : Chunk) (value value' : string) (f f' : Fields) :
  noZone c = true ->
  parseStd c value f = inl (value', f') ->
  f_z f' = f_z f /\ f_zoneOffset f' = f_zoneOffset f.
Proof.
  intros Hc. destruct c; try discriminate; simpl.
  - destruct (skip value text); [|discriminate]. intros [= _ <-]. auto.
  - destruct (parseLongYear value) as [[y v]|]; [|discriminate].
    intros [= _ <-]. auto.
  - destruct (getnum value true) as [[m v]|]; [|discriminate].
    destruct (_ || _); [discriminate|]. intros [= _ <-]. auto.
  - destruct (getnum value true) as [[m v]|]; [|discriminate].
    intros [= _ <-]. auto.
  - destruct (getnum value false) as [[m v]|]; [|discriminate].
    destruct (_ || _); [discriminate|]. intros [= _ <-]. auto.
  - destruct (getnum value true) as [[m v]|]; [|discriminate].
    destruct (_ || _); [discriminate|]. intros [= _ <-]. auto.
  - destruct (getnum value true) as [[m v]|]; [|discriminate].
    destruct (_ || _); [discriminate|].
    destruct v as [|sep after]; [intros [= _ <-]; auto|].
    destruct (spanDigits after) as [[|d ds] v'']; [intros [= _ <-]; auto|].
    destruct (commaOrPeriod sep); intros [= _ <-]; auto.
Qed.




















Example parseTimeInUTC_reads_stored_text :
  textSpace 2025 1 1 10 0 0 = "2025-01-01 10:00:00"
  /\ parseTimeInUTC calm "2025-01-01 10:00:00" = inl (scanDBTime 1735725600).
Proof. vm_compute. split; reflexivity. Qed.


(** ** The length of the generated video *)







(** * Further properties of the code *)

(** ** Text wrapping *)

Lemma string_app_assoc (a b c : string) : (a +:+ b) +:+ c = a +:+ (b +:+ c).
Proof.
  induction a as [|x a IH]; [reflexivity|].
  change (String x ((a +:+ b) +:+ c) = String x (a +:+ (b +:+ c))).
  rewrite IH. reflexivity.
Qed.

Lemma concat_cons (sep x y : string) (l : list string) :
  String.concat sep (x :: y :: l) = x +:+ sep +:+ String.concat sep (y :: l).
Proof. reflexivity. Qed.

Lemma concat_merge (sep a b : string) (l rest : list string) :
  String.concat sep (l ++ (a +:+ sep +:+ b) :: rest)
  = String.concat sep (l ++ a :: b :: rest).
Proof.
  induction l as [|x l IH].
  - destruct rest as [|c rest]; [reflexivity|].
    cbn [app]. rewrite !concat_cons. rewrite !string_app_assoc. reflexivity.
  - assert (Hne : forall (u : string) (k : list string), exists y t, l ++ u :: k = y :: t).
    { intros u k. destruct l as [|y l]; simpl; eauto. }
    cbn [app].
    destruct (Hne (a +:+ sep +:+ b) rest) as (y1 & t1 & E1).
    destruct (Hne a (b :: rest)) as (y2 & t2 & E2).
    rewrite E1, E2 in IH |- *. rewrite !concat_cons. rewrite IH. reflexivity.
Qed.

Lemma wrapLoop_concat (maxWidth : Z) (words lines : list string) (currentLine : string) :
  String.concat " " (wrapLoop maxWidth lines currentLine words)
  = String.concat " " (lines ++ currentLine :: words).
Proof.
  revert lines currentLine.
  induction words as [|word words IH]; intros lines currentLine; simpl; [reflexivity|].
  destruct (_ <=? _).
  - rewrite IH. apply concat_merge.
  - rewrite IH. rewrite <- app_assoc. reflexivity.
Qed.

Lemma wrapLoop_length (maxWidth : Z) (words lines : list string) (currentLine : string) :
  (length lines + 1 <= length (wrapLoop maxWidth lines currentLine words)
   <= length lines + 1 + length words)%nat.
Proof.
  revert lines currentLine.
  induction words as [|word words IH]; intros lines currentLine; simpl.
  - rewrite length_app. simpl. lia.
  - destruct (_ <=? _).
    + specialize (IH lines (currentLine +:+ " " +:+ word)). lia.
    + specialize (IH (lines ++ [currentLine]) word). rewrite length_app in IH.
      simpl in IH. lia.
Qed.

(** Whatever holds of the lines so far, of the current line, of the
    words to come and of every text that fits holds of every line of the
    result. *)
Lemma wrapLoop_lines (P : string -> Prop) (maxWidth : Z) (words lines : list string)
  (currentLine : string) :
  (forall t, Z.of_nat (String.length t) <= maxWidth -> P t) ->
  Forall P lines -> P currentLine -> Forall P words ->
  Forall P (wrapLoop maxWidth lines currentLine words).
Proof.
  intros Hfit. revert lines currentLine.
  induction words as [|word words IH]; intros lines currentLine Hl Hc Hw; simpl.
  - apply Forall_app. split; [exact Hl|]. constructor; [exact Hc|constructor].
  - inversion Hw as [|? ? Hword Hwords]; subst.
    destruct (_ <=? _) eqn:Hle.
    + apply IH; auto. apply Hfit. apply Z.leb_le. exact Hle.
    + apply IH; auto. apply Forall_app. split; [exact Hl|].
      constructor; [exact Hc|constructor].
Qed.

(** X1: wrapping loses nothing and reorders nothing.  The lines of
    [wrapText], joined by single spaces, are the words of the text joined
    by single spaces; there is always at least one line, and never more
    lines than words (one line for a text without words). *)
Theorem wrapText_keeps_the_words (Fields : string -> list string) (text : string)
  (maxWidth : Z) :
  String.concat " " (wrapText Fields text maxWidth) = String.concat " " (Fields text)
  /\ (1 <= length (wrapText Fields text maxWidth)
      <= Nat.max 1 (length (Fields text)))%nat.
Proof.
  unfold wrapText. destruct (Fields text) as [|first rest]; simpl.
  - split; [reflexivity|lia].
  - split.
    + apply (wrapLoop_concat maxWidth rest [] first).
    + pose proof (wrapLoop_length maxWidth rest [] first) as H. simpl in H. lia.
Qed.

Lemma wrapText_Forall (Fields : string -> list string) (text : string) (maxWidth : Z) :
  Forall (fun line => Z.of_nat (String.length line) <= maxWidth
                      \/ line ∈ Fields text
                      \/ (Fields text = [] /\ line = ""))
         (wrapText Fields text maxWidth).
Proof.
  unfold wrapText. destruct (Fields text) as [|first rest] eqn:Hf.
  - constructor; [|constructor]. auto.
  - apply wrapLoop_lines.
    + intros t Ht. left. exact Ht.
    + constructor.
    + right. left. apply list_elem_of_here.
    + apply Forall_forall. intros t Ht. right. left. apply list_elem_of_further.
      exact Ht.
Qed.

(** X2: every line of [wrapText] fits in [maxWidth] bytes, unless it is
    a single word of the text that is longer by itself (a word is never
    cut); a text without words gives the one empty line. *)
Theorem wrapText_line_width (Fields : string -> list string) (text : string)
  (maxWidth : Z) (line : string) :
  line ∈ wrapText Fields text maxWidth ->
  Z.of_nat (String.length line) <= maxWidth
  \/ line ∈ Fields text
  \/ (Fields text = [] /\ line = "").
Proof.
  intros Hin. pose proof (wrapText_Forall Fields text maxWidth) as H.
  rewrite Forall_forall in H. apply (H line Hin).
Qed.

Lemma wrapText_line_width_witness :
  Z.of_nat (String.length "a long") <= 12
  \/ "a long" ∈ asciiFields "Michel is in a long   meeting"
  \/ (asciiFields "Michel is in a long   meeting" = [] /\ "a long" = "").
Proof.
  apply (wrapText_line_width asciiFields "Michel is in a long   meeting" 12).
  vm_compute. apply list_elem_of_further. apply list_elem_of_here.
Defined.

Example wrapText_example :
  wrapText asciiFields "Michel is in a long   meeting" 12
  = ["Michel is in"; "a long"; "meeting"]
  /\ wrapText asciiFields "   " 12 = [""]
  /\ wrapText asciiFields "incomprehensibilities now" 12 = ["incomprehensibilities"; "now"].
Proof. vm_compute. repeat split; reflexivity. Qed.

(** ** Device discovery *)

(** The loop adds each address not seen yet, once, and nothing else. *)
Lemma discoverLoop_addresses (devices : list MdnsDevice) :
  forall (seen : gset string) (foundDevices : list ChromecastDevice),
  (forall u, u ∈ seen <-> u ∈ Address <$> foundDevices) ->
  NoDup (Address <$> foundDevices) ->
  NoDup (Address <$> discoverLoop devices seen foundDevices)
  /\ forall u, u ∈ Address <$> discoverLoop devices seen foundDevices
               <-> u ∈ seen \/ u ∈ Url <$> devices.
Proof.
  induction devices as [|device devices IH]; intros seen found Hseen Hnd; simpl.
  - split; [exact Hnd|]. intros u. rewrite <- Hseen. split; [auto|].
    intros [H|H]; [exact H|]. inversion H.
  - destruct (decide (Url device ∈ seen)) as [Hin|Hout].
    + destruct (IH seen found Hseen Hnd) as [IH1 IH2]. split; [exact IH1|].
      intros u. rewrite IH2. rewrite elem_of_cons. split.
      * intros [H|H]; auto.
      * intros [H|[->|H]]; auto.
    + destruct (IH ({[Url device]} ∪ seen)
                   (found ++ [mkChromecastDevice (deviceName device) (Url device)
                                (Url device)])) as [IH1 IH2].
      * intros u. rewrite fmap_app, elem_of_app, elem_of_union, elem_of_singleton.
        simpl. rewrite list_elem_of_singleton, <- Hseen. tauto.
      * rewrite fmap_app. apply NoDup_app. split; [exact Hnd|]. split.
        -- intros u Hu. simpl. rewrite list_elem_of_singleton. intros ->.
           apply Hout. apply Hseen. exact Hu.
        -- simpl. apply NoDup_singleton.
      * split; [exact IH1|]. intros u. rewrite IH2.
        rewrite elem_of_union, elem_of_singleton, elem_of_cons. tauto.
Qed.

(** What the loop adds is made from the first device of each address. *)
Lemma discoverLoop_first (devices : list MdnsDevice) :
  forall (seen : gset string) (foundDevices : list ChromecastDevice)
         (d : ChromecastDevice),
  d ∈ discoverLoop devices seen foundDevices ->
  d ∈ foundDevices
  \/ exists (i : nat) (device : MdnsDevice),
       devices !! i = Some device
       /\ (Url device ∉ seen)
       /\ (forall (j : nat) (other : MdnsDevice),
             (j < i)%nat -> devices !! j = Some other -> Url other <> Url device)
       /\ d = mkChromecastDevice (deviceName device) (Url device) (Url device).
Proof.
  induction devices as [|device devices IH]; intros seen found d; simpl.
  - auto.
  - destruct (decide (Url device ∈ seen)) as [Hin|Hout]; intros Hd.
    + destruct (IH _ _ _ Hd) as [H|(i & dev & Hi & Hns & Hfirst & ->)]; [auto|].
      right. exists (S i), dev. split; [exact Hi|]. split; [exact Hns|].
      split; [|reflexivity].
      intros [|j] other Hj Ho; simpl in Ho.
      * injection Ho as <-. intros E. apply Hns. rewrite <- E. exact Hin.
      * apply (Hfirst j other); [lia|exact Ho].
    + destruct (IH _ _ _ Hd) as [H|(i & dev & Hi & Hns & Hfirst & ->)].
      * apply elem_of_app in H. destruct H as [H|H]; [auto|].
        apply list_elem_of_singleton in H. right. exists O, device.
        split; [reflexivity|]. split; [exact Hout|]. split; [|exact H].
        intros j other Hj. lia.
      * right. exists (S i), dev. split; [exact Hi|].
        rewrite not_elem_of_union, not_elem_of_singleton in Hns.
        destruct Hns as [Hne Hns]. split; [exact Hns|]. split; [|reflexivity].
        intros [|j] other Hj Ho; simpl in Ho.
        -- injection Ho as <-. intros E. apply Hne. symmetry. exact E.
        -- apply (Hfirst j other); [lia|exact Ho].
Qed.

Lemma discoverDevices_found (devices : list MdnsDevice)
  (discoveredDevices : list ChromecastDevice) :
  discoverDevices devices discoveredDevices
  = (discoverLoop devices ∅ [], discoverLoop devices ∅ []).
Proof.
  unfold discoverDevices, getCachedDevices.
  destruct (length (discoverLoop devices ∅ []) =? 0)%nat; reflexivity.
Qed.

(** X3: a discovery lists every address the search reported, once.
    The list returned is the new value of [discoveredDevices] and owes
    nothing to the old one (a search that reports no device returns the
    empty list: the variable is overwritten before it is read); the
    addresses listed are those of the devices reported, without
    repetition; [UUID] and [Address] are the same. *)
Theorem discoverDevices_each_address_once (devices : list MdnsDevice)
  (discoveredDevices : list ChromecastDevice) :
  let out := discoverDevices devices discoveredDevices in
  out.1 = out.2
  /\ out = discoverDevices devices []
  /\ NoDup (Address <$> out.1)
  /\ (forall u, u ∈ Address <$> out.1 <-> u ∈ Url <$> devices)
  /\ (forall d, d ∈ out.1 -> UUID d = Address d).
Proof.
  cbv zeta. rewrite !discoverDevices_found. cbn [fst snd].
  split; [reflexivity|]. split; [reflexivity|].
  destruct (discoverLoop_addresses devices ∅ []) as [Hnd Hiff].
  { intros u. simpl. split; intros H; inversion H. }
  { constructor. }
  split; [exact Hnd|]. split.
  - intros u. rewrite Hiff. split; [|auto]. intros [H|H]; [|exact H].
    exfalso. revert H. apply not_elem_of_empty.
  - intros d Hd. apply discoverLoop_first in Hd.
    destruct Hd as [H|(i & dev & _ & _ & _ & ->)]; [inversion H|reflexivity].
Qed.

(** X4: a device is listed under the first of its names, or under its
    address when it has no name or an empty first name; of devices with
    the same address the first reported is the one listed. *)
Theorem discoverDevices_first_of_each_address (devices : list MdnsDevice)
  (discoveredDevices : list ChromecastDevice) (d : ChromecastDevice) :
  d ∈ (discoverDevices devices discoveredDevices).1 ->
  exists (i : nat) (device : MdnsDevice),
    devices !! i = Some device
    /\ (forall (j : nat) (other : MdnsDevice),
          (j < i)%nat -> devices !! j = Some other -> Url other <> Url device)
    /\ Address d = Url device
    /\ Name d = match Names device with
                | name :: _ => if String.eqb name "" then Url device else name
                | [] => Url device
                end.
Proof.
  rewrite discoverDevices_found. cbn [fst]. intros Hd.
  apply discoverLoop_first in Hd.
  destruct Hd as [H|(i & dev & Hi & _ & Hfirst & ->)]; [inversion H|].
  exists i, dev. split; [exact Hi|]. split; [exact Hfirst|].
  split; [reflexivity|]. unfold deviceName. simpl.
  destruct (Names dev) as [|name names]; reflexivity.
Qed.

Lemma discoverDevices_first_of_each_address_witness :
  exists (i : nat) (device : MdnsDevice),
    scan !! i = Some device
    /\ (forall (j : nat) (other : MdnsDevice),
          (j < i)%nat -> scan !! j = Some other -> Url other <> Url device)
    /\ Address (mkChromecastDevice "192.168.1.21" "192.168.1.21" "192.168.1.21")
       = Url device
    /\ Name (mkChromecastDevice "192.168.1.21" "192.168.1.21" "192.168.1.21")
       = match Names device with
         | name :: _ => if String.eqb name "" then Url device else name
         | [] => Url device
         end.
Proof.
  apply (discoverDevices_first_of_each_address scan []).
  vm_compute. apply list_elem_of_further. apply list_elem_of_here.
Defined.

Example discoverDevices_example :
  (discoverDevices scan []).1
  = [mkChromecastDevice "Living Room TV" "192.168.1.20" "192.168.1.20";
     mkChromecastDevice "192.168.1.21" "192.168.1.21" "192.168.1.21"].
Proof. vm_compute. reflexivity. Qed.

(** ** From the list of devices to a cast *)

Lemma find_first {A} (p : A -> bool) (l : list A) (x : A) :
  x ∈ l -> p x = true -> exists y, find p l = Some y /\ y ∈ l /\ p y = true.
Proof.
  intros Hin Hp. destruct (find p l) as [y|] eqn:Hf.
  - apply find_some in Hf. destruct Hf as [Hy Hpy]. exists y.
    split; [reflexivity|]. split; [|exact Hpy]. apply list_elem_of_In. exact Hy.
  - exfalso. apply list_elem_of_In in Hin.
    pose proof (find_none p l Hf x Hin) as H. congruence.
Qed.

Lemma existsb_eqb_names (name : string) (names : list string) :
  existsb (String.eqb name) names = true <-> name ∈ names.
Proof.
  rewrite existsb_exists. split.
  - intros (x & Hx & He). apply String.eqb_eq in He. subst x.
    apply list_elem_of_In. exact Hx.
  - intros H. exists name. split; [apply list_elem_of_In; exact H|].
    apply String.eqb_refl.
Qed.

(** What a [startCast] that meets no error does. *)
Lemma startCast_success (w : World) (id dev msg : string) (a : App)
  (found : MdnsDevice) (localIP : string) :
  ActiveCasts a !! id = None ->
  find (fun d => existsb (String.eqb dev) (Names d)) (mdnsDevices w dev) = Some found ->
  GetLANIp w = inl localIP ->
  PlayMedia w (Url found)
    ("http://" +:+ localIP +:+ serverPort +:+ "/files/" +:+ id +:+ "/playlist.m3u8")
  = None ->
  result (startCast w id dev msg a) = None
  /\ ActiveCasts (final (startCast w id dev msg a))
     = <[id := mkCastSession id dev found (Some id) true]> (ActiveCasts a)
  /\ DB (final (startCast w id dev msg a))
     = (if dbExecOk w (UpdateStatus "active" id)
        then alter (setStatus "active") id (DB a) else DB a)
  /\ VideoGenInProgress (final (startCast w id dev msg a)) = VideoGenInProgress a.
Proof.
  intros Hs Hf Hip Hplay. unfold startCast. munfold. mresults.
  rewrite Hs. simpl. rewrite Hf. simpl. rewrite Hip. simpl. rewrite Hplay. simpl.
  destruct (dbExecOk w _); simpl; auto.
Qed.

(** X5: a device that [discoverDevices] lists under a name can be cast
    to by that name.  When the search reports the same devices, the
    local address is known and the media plays, [startCast] with the
    listed name returns no error and records a session for a reported
    device that carries the name (the first such device, which may be
    another device than the one listed when two carry the same name). *)
Theorem listed_name_can_be_cast (w : World) (discoveredDevices : list ChromecastDevice)
  (d : ChromecastDevice) (id msg localIP : string) (a : App) :
  d ∈ (discoverDevices (mdnsDevices w (Name d)) discoveredDevices).1 ->
  Name d <> Address d ->
  ActiveCasts a !! id = None ->
  GetLANIp w = inl localIP ->
  (forall uri url, PlayMedia w uri url = None) ->
  exists found,
    found ∈ mdnsDevices w (Name d)
    /\ Name d ∈ Names found
    /\ result (startCast w id (Name d) msg a) = None
    /\ ActiveCasts (final (startCast w id (Name d) msg a)) !! id
       = Some (mkCastSession id (Name d) found (Some id) true).
Proof.
  intros Hd Hname Hs Hip Hplay.
  rewrite discoverDevices_found in Hd. cbn [fst] in Hd.
  apply discoverLoop_first in Hd.
  destruct Hd as [H|(i & dev & Hi & _ & _ & Hd)]; [inversion H|].
  assert (Hcarries : Name d ∈ Names dev).
  { subst d. simpl in *. unfold deviceName in *.
    destruct (Names dev) as [|name names]; simpl in *; [congruence|].
    destruct (String.eqb name ""); [congruence|]. apply list_elem_of_here. }
  destruct (find_first (fun x => existsb (String.eqb (Name d)) (Names x))
              (mdnsDevices w (Name d)) dev) as (found & Hf & Hin & Hp).
  { apply list_elem_of_lookup. exists i. exact Hi. }
  { apply existsb_eqb_names. exact Hcarries. }
  exists found. split; [exact Hin|]. split; [apply existsb_eqb_names; exact Hp|].
  destruct (startCast_success w id (Name d) msg a found localIP Hs Hf Hip (Hplay _ _))
    as (Hr & Ha & _ & _).
  split; [exact Hr|]. rewrite Ha. apply lookup_insert_eq.
Qed.

Lemma listed_name_can_be_cast_witness :
  exists found,
    found ∈ scan
    /\ "Living Room TV" ∈ Names found
    /\ result (startCast calmScan "n1" "Living Room TV" "hello" app0) = None
    /\ ActiveCasts (final (startCast calmScan "n1" "Living Room TV" "hello" app0)) !! "n1"
       = Some (mkCastSession "n1" "Living Room TV" found (Some "n1") true).
Proof.
  apply (listed_name_can_be_cast calmScan []
           (mkChromecastDevice "Living Room TV" "192.168.1.20" "192.168.1.20")
           "n1" "hello" "192.168.1.2" app0).
  - vm_compute. apply list_elem_of_here.
  - simpl. discriminate.
  - reflexivity.
  - reflexivity.
  - reflexivity.
Defined.

(** ** Narration *)

Lemma string_app_length (a b : string) :
  String.length (a +:+ b) = (String.length a + String.length b)%nat.
Proof.
  induction a as [|x a IH]; [reflexivity|].
  change (S (String.length (a +:+ b)) = S (String.length a + String.length b)).
  rewrite IH. reflexivity.
Qed.

Lemma audio_paths_differ (notificationID : string) :
  "/data/audio" +:+ "/" +:+ notificationID +:+ "_single.mp3"
  <> "/data/audio" +:+ "/" +:+ notificationID +:+ ".mp3".
Proof.
  intros E. apply (f_equal String.length) in E.
  rewrite !string_app_length in E. simpl in E. lia.
Qed.

Lemma concatInputs_replicate (n : nat) (singleAudioPath : string) :
  concatInputs n singleAudioPath
  = List.concat (replicate n ["-i"; singleAudioPath]).
Proof.
  induction n as [|n IH]; [reflexivity|].
  cbn [concatInputs]. rewrite IH. clear IH.
  induction n as [|n IH]; [reflexivity|].
  cbn [replicate List.concat] in *. rewrite <- app_assoc. rewrite IH. reflexivity.
Qed.

(** X6: the narration fails only before the repetition.  Once the
    directory, the client, the synthesis and the file are there,
    [generateTTSAudio] returns a path whatever the repeat count and
    whatever ffmpeg does: the repeated audio when more than one
    repetition is asked and ffmpeg succeeds, the single narration
    otherwise; for a count of at most one ffmpeg is not consulted. *)
Theorem generateTTSAudio_repetition_never_fails (tw : TTSWorld)
  (text notificationID audioContent : string) (repeatCount : Z) :
  let singleAudioPath := "/data/audio" +:+ "/" +:+ notificationID +:+ "_single.mp3" in
  let finalAudioPath := "/data/audio" +:+ "/" +:+ notificationID +:+ ".mp3" in
  ttsMkdirAll tw = None ->
  ttsNewClient tw = None ->
  ttsSynthesizeSpeech tw text = inl audioContent ->
  ttsWriteFile tw singleAudioPath audioContent = None ->
  exists path,
    generateTTSAudio tw text notificationID repeatCount = inl path
    /\ (path = finalAudioPath <->
        1 < repeatCount
        /\ ttsConcatRun tw (concatArgs singleAudioPath finalAudioPath repeatCount) = None)
    /\ (path = singleAudioPath \/ path = finalAudioPath)
    /\ (repeatCount <= 1 ->
        forall tw', ttsMkdirAll tw' = ttsMkdirAll tw -> ttsNewClient tw' = ttsNewClient tw ->
          ttsSynthesizeSpeech tw' = ttsSynthesizeSpeech tw ->
          ttsWriteFile tw' = ttsWriteFile tw ->
          generateTTSAudio tw' text notificationID repeatCount = inl path).
Proof.
  cbv zeta. intros Hdir Hclient Hsynth Hwrite.
  pose proof (audio_paths_differ notificationID) as Hne.
  unfold generateTTSAudio. rewrite Hdir, Hclient, Hsynth, Hwrite.
  destruct (repeatCount <=? 1) eqn:Hle.
  - apply Z.leb_le in Hle. eexists. split; [reflexivity|]. split; [|split].
    + split; [intros E; contradiction|]. intros [H _]. lia.
    + left. reflexivity.
    + intros _ tw' E1 E2 E3 E4. rewrite E1, E2, E3, Hsynth, E4, Hwrite.
      reflexivity.
  - apply Z.leb_gt in Hle.
    destruct (ttsConcatRun tw _) as [e|] eqn:Hrun.
    + eexists. split; [reflexivity|]. split; [|split].
      * split; [intros E; contradiction|]. intros [_ H]. discriminate.
      * left. reflexivity.
      * intros H. lia.
    + eexists. split; [reflexivity|]. split; [|split].
      * split; [intros _; split; [lia|reflexivity]|reflexivity].
      * right. reflexivity.
      * intros H. lia.
Qed.

Lemma generateTTSAudio_repetition_never_fails_witness :
  exists path,
    generateTTSAudio ttsNoConcat "Michel is in a meeting" "n1" 3 = inl path
    /\ (path = "/data/audio" +:+ "/" +:+ "n1" +:+ ".mp3" <->
        1 < 3
        /\ ttsConcatRun ttsNoConcat
             (concatArgs ("/data/audio" +:+ "/" +:+ "n1" +:+ "_single.mp3")
                ("/data/audio" +:+ "/" +:+ "n1" +:+ ".mp3") 3) = None)
    /\ (path = "/data/audio" +:+ "/" +:+ "n1" +:+ "_single.mp3"
        \/ path = "/data/audio" +:+ "/" +:+ "n1" +:+ ".mp3")
    /\ (3 <= 1 ->
        forall tw', ttsMkdirAll tw' = ttsMkdirAll ttsNoConcat ->
          ttsNewClient tw' = ttsNewClient ttsNoConcat ->
          ttsSynthesizeSpeech tw' = ttsSynthesizeSpeech ttsNoConcat ->
          ttsWriteFile tw' = ttsWriteFile ttsNoConcat ->
          generateTTSAudio tw' "Michel is in a meeting" "n1" 3 = inl path).
Proof.
  apply (generateTTSAudio_repetition_never_fails ttsNoConcat "Michel is in a meeting"
           "n1" "mp3:Michel is in a meeting" 3); reflexivity.
Defined.

(** The command that repeats the narration names the single
    narration as input once per repetition and asks the [concat] filter
    for as many inputs: its arguments are [-y], then [repeatCount] times
    [-i single], then the filter [concat=n=<repeatCount>...], the map and
    the output. *)
Lemma concatArgs_inputs_match_filter (singleAudioPath finalAudioPath : string)
  (repeatCount : Z) :
  concatArgs singleAudioPath finalAudioPath repeatCount
  = "-y" :: List.concat (replicate (Z.to_nat repeatCount) ["-i"; singleAudioPath])
    ++ ["-filter_complex"; "concat=n=" +:+ pretty repeatCount +:+ ":v=0:a=1[out]";
        "-map"; "[out]"; finalAudioPath].
Proof. unfold concatArgs. rewrite concatInputs_replicate. reflexivity. Qed.

(** ** The handlers *)


Lemma createNotification_created (w : World) (body : option requestBody) (a : App)
  (n : Notification) :
  result (createNotification w body a) = (201, NotificationJSON n) ->
  exists rb s e,
    body = Some rb
    /\ Parse (localOffset w) RFC3339 (rb_StartTime rb) = inl s
    /\ Parse (localOffset w) RFC3339 (rb_EndTime rb) = inl e
    /\ n = mkNotification (uuidNew w) (rb_Message rb) s e (rb_Device rb) "pending"
             (if rb_RepeatCount rb <? 1 then 1 else rb_RepeatCount rb)
    /\ DB a !! uuidNew w = None
    /\ final (createNotification w body a)
       = mkApp (<[uuidNew w := createdRow rb s e]> (DB a)) (ActiveCasts a)
               (VideoGenInProgress a).
Proof.
  destruct body as [rb|]; [|simpl; discriminate].
  destruct (Parse (localOffset w) RFC3339 (rb_StartTime rb)) as [s|err] eqn:Hs.
  2:{ unfold createNotification. rewrite Hs. simpl. discriminate. }
  destruct (Parse (localOffset w) RFC3339 (rb_EndTime rb)) as [e|err] eqn:He.
  2:{ unfold createNotification. rewrite Hs, He. simpl. discriminate. }
  rewrite (createNotification_parsed w rb a s e Hs He).
  destruct (dbPrepareOk w); simpl; [|discriminate].
  destruct (dbExecOk w _); simpl; [|discriminate].
  destruct (DB a !! uuidNew w) eqn:Hfree; simpl; [discriminate|].
  mresults. simpl. intros H. injection H as <-.
  exists rb, s, e. repeat (split; [first [assumption|reflexivity]|]). reflexivity.
Qed.



Lemma createNotification_outcome (w : World) (body : option requestBody) (a : App) :
  (exists n, result (createNotification w body a) = (201, NotificationJSON n))
  \/ ((fst (result (createNotification w body a)) = 400
       \/ fst (result (createNotification w body a)) = 500)
      /\ final (createNotification w body a) = a).
Proof.
  destruct body as [rb|]; [|right; split; [left|]; reflexivity].
  destruct (Parse (localOffset w) RFC3339 (rb_StartTime rb)) as [s|err] eqn:Hs.
  2:{ right. unfold createNotification. rewrite Hs. split; [left|]; reflexivity. }
  destruct (Parse (localOffset w) RFC3339 (rb_EndTime rb)) as [e|err] eqn:He.
  2:{ right. unfold createNotification. rewrite Hs, He. split; [left|]; reflexivity. }
  rewrite (createNotification_parsed w rb a s e Hs He).
  destruct (dbPrepareOk w); simpl; [|right; split; [right|]; reflexivity].
  destruct (dbExecOk w _); simpl; [|right; split; [right|]; reflexivity].
  destruct (DB a !! uuidNew w); simpl; [right; split; [right|]; reflexivity|].
  left. eexists. reflexivity.
Qed.

(** X8: a creation stores one new row or nothing.  The answer is 201,
    400 or 500; unless it is 201 the process is as before; when it is
    201 the identifier was free and the rows, sessions and marks that
    were there are untouched.  In particular an identifier already in
    the table is never overwritten. *)
Theorem createNotification_all_or_nothing (w : World) (body : option requestBody)
  (a : App) :
  let out := createNotification w body a in
  (fst (result out) = 201 \/ fst (result out) = 400 \/ fst (result out) = 500)
  /\ (fst (result out) <> 201 -> final out = a)
  /\ (fst (result out) = 201 ->
      DB a !! uuidNew w = None
      /\ exists r, DB (final out) = <[uuidNew w := r]> (DB a) /\ status r = "pending")
  /\ (forall id r, DB a !! id = Some r -> DB (final out) !! id = Some r)
  /\ ActiveCasts (final out) = ActiveCasts a
  /\ VideoGenInProgress (final out) = VideoGenInProgress a.
Proof.
  cbv zeta.
  destruct (createNotification_outcome w body a) as [[n Hn]|[Hcode Hfinal]].
  - destruct (createNotification_created w body a n Hn)
      as (rb & s & e & _ & _ & _ & _ & Hfree & Hf).
    rewrite Hn, Hf. simpl. split; [auto|]. split; [congruence|].
    split; [|split; [|split; reflexivity]].
    + intros _. split; [exact Hfree|]. eexists. split; reflexivity.
    + intros id r Hr. rewrite lookup_insert_ne; [exact Hr|]. congruence.
  - rewrite Hfinal. split; [tauto|]. split; [reflexivity|].
    split; [|split; [|split; reflexivity]].
    + intros H. destruct Hcode as [Hc|Hc]; rewrite Hc in H; discriminate.
    + auto.
Qed.

Lemma deleteNotification_steps (w : World) (id : string) (a : App) :
  let a1 := final (stopCast w id a) in
  deleteNotification w id a
  = if dbExecOk w (DeleteNotification id)
    then (200, MessageJSON "Notification deleted",
          mkApp (delete id (DB a1)) (ActiveCasts a1) (VideoGenInProgress a1),
          trace (stopCast w id a) ++ [EvExec (DeleteNotification id) true])
    else (500, ErrorJSON "Failed to delete notification" None, a1,
          trace (stopCast w id a) ++ [EvExec (DeleteNotification id) false]).
Proof.
  cbv zeta. unfold deleteNotification. unfold dbExec.
  unfold mbind, M_bind, bind, ret, emit, get, put. mresults.
  destruct (stopCast w id a) as [[r a1] t]. simpl.
  destruct (dbExecOk w (DeleteNotification id)); simpl; rewrite ?app_nil_r; reflexivity.
Qed.

(** X9: after a deletion answered by the store, the notification is
    gone for good.  Whether or not the identifier had a row or a session
    (sessions being as [startCast] records them), [deleteNotification]
    answers 200, and afterwards the identifier has no row and no session,
    [getNotification] answers 404 for it, and the rows and sessions of
    the other identifiers are as before. *)
Theorem deleteNotification_removes (w : World) (id : string) (a : App) :
  sessionsWf a ->
  dbExecOk w (DeleteNotification id) = true ->
  let a' := final (deleteNotification w id a) in
  result (deleteNotification w id a) = (200, MessageJSON "Notification deleted")
  /\ DB a' !! id = None
  /\ ActiveCasts a' !! id = None
  /\ result (getNotification true id a')
     = (404, ErrorJSON "Notification not found" None)
  /\ (forall id', id' <> id -> sameAt id' a a').
Proof.
  intros Hwf Hok. cbv zeta.
  pose proof (deleteNotification_steps w id a) as Hsteps. cbv zeta in Hsteps.
  rewrite Hok in Hsteps. rewrite Hsteps. mresults. cbn [fst snd DB ActiveCasts].
  assert (Hgone : ActiveCasts (stopCast w id a).1.2 !! id = None).
  { destruct (ActiveCasts a !! id) as [s|] eqn:Hs.
    - destruct (Hwf id s Hs) as (_ & Hact & _).
      destruct (stopCast_active w id a s Hs Hact) as (_ & Hc & _).
      unfold final in Hc. rewrite Hc. apply lookup_delete_eq.
    - rewrite (stopCast_absent w id a Hs). exact Hs. }
  split; [reflexivity|]. split; [apply lookup_delete_eq|]. split; [exact Hgone|].
  split.
  - unfold getNotification. munfold. simpl. rewrite lookup_delete_eq. reflexivity.
  - intros id' Hne. destruct (stopCast_other w id' id a) as [Hdb Hcasts]; [congruence|].
    unfold final in Hdb, Hcasts. split; simpl.
    + rewrite lookup_delete_ne by congruence. exact Hdb.
    + exact Hcasts.
Qed.

Lemma deleteNotification_removes_witness :
  result (deleteNotification calm "n1" app1) = (200, MessageJSON "Notification deleted")
  /\ DB (final (deleteNotification calm "n1" app1)) !! "n1" = None
  /\ ActiveCasts (final (deleteNotification calm "n1" app1)) !! "n1" = None
  /\ result (getNotification true "n1" (final (deleteNotification calm "n1" app1)))
     = (404, ErrorJSON "Notification not found" None)
  /\ (forall id', id' <> "n1" ->
        sameAt id' app1 (final (deleteNotification calm "n1" app1))).
Proof.
  apply (deleteNotification_removes calm "n1" app1).
  - intros id s Hs. unfold app1 in Hs. simpl in Hs.
    apply lookup_singleton_Some in Hs. destruct Hs as [<- <-].
    repeat split; reflexivity.
  - reflexivity.
Defined.

(** X10: a deletion that the store refuses still stops the cast.  When
    the DELETE fails the answer is 500 and the row stays, but the
    session of the identifier has been cancelled and removed, and the
    row is marked completed when the store took that update. *)
Theorem deleteNotification_refused_still_stops (w : World) (id : string) (a : App)
  (s : CastSession) :
  ActiveCasts a !! id = Some s ->
  Active s = true ->
  dbExecOk w (DeleteNotification id) = false ->
  let out := deleteNotification w id a in
  result out = (500, ErrorJSON "Failed to delete notification" None)
  /\ ActiveCasts (final out) = delete id (ActiveCasts a)
  /\ DB (final out)
     = (if dbExecOk w (UpdateStatus "completed" id)
        then alter (setStatus "completed") id (DB a) else DB a)
  /\ countIf (isRemoveSession id) (trace out) = 1%nat.
Proof.
  intros Hs Hact Hfail. cbv zeta.
  pose proof (deleteNotification_steps w id a) as Hsteps. cbv zeta in Hsteps.
  rewrite Hfail in Hsteps. rewrite Hsteps.
  destruct (stopCast_active w id a s Hs Hact) as (_ & Hc & _ & Hdb & _ & Hrm).
  rewrite result_pair, final_pair, trace_pair.
  split; [reflexivity|]. split; [exact Hc|]. split; [exact Hdb|].
  rewrite countIf_app, Hrm. reflexivity.
Qed.

Lemma deleteNotification_refused_still_stops_witness :
  result (deleteNotification noDelete "n1" app1)
  = (500, ErrorJSON "Failed to delete notification" None)
  /\ ActiveCasts (final (deleteNotification noDelete "n1" app1))
     = delete "n1" (ActiveCasts app1)
  /\ DB (final (deleteNotification noDelete "n1" app1))
     = (if dbExecOk noDelete (UpdateStatus "completed" "n1")
        then alter (setStatus "completed") "n1" (DB app1) else DB app1)
  /\ countIf (isRemoveSession "n1") (trace (deleteNotification noDelete "n1" app1))
     = 1%nat.
Proof.
  apply (deleteNotification_refused_still_stops noDelete "n1" app1 session1);
    reflexivity.
Defined.

(** ** The scheduler, row by row *)

Lemma tick_by_name (w : World) (now : Time) :
  checkAndProcessNotifications w now
  = (emit (EvGo now) ;;
     pending ← dbQuery w (SelectPendingStarted (formatDBTime now));
     match pending with
     | None => ret tt
     | Some rows =>
         forEach rows (startDue w now) ;;
         active ← dbQuery w (SelectActiveEnded (formatDBTime now));
         match active with
         | None => ret tt
         | Some rows => forEach rows (stopEnded w now)
         end
     end).
Proof. reflexivity. Qed.

Lemma tick_final (w : World) (now : Time) (a : App) :
  final (checkAndProcessNotifications w now a)
  = match result (dbQuery w (SelectPendingStarted (formatDBTime now)) a) with
    | None => a
    | Some rows1 =>
        let a1 := final (forEach rows1 (startDue w now) a) in
        match result (dbQuery w (SelectActiveEnded (formatDBTime now)) a1) with
        | None => a1
        | Some rows2 => final (forEach rows2 (stopEnded w now) a1)
        end
    end.
Proof.
  rewrite tick_by_name.
  unfold mbind, M_bind, bind, emit, ret. mresults. cbn [fst snd].
  pose proof (dbQuery_final w (SelectPendingStarted (formatDBTime now)) a) as Hf1.
  destruct (dbQuery w (SelectPendingStarted (formatDBTime now)) a)
    as [[pending a1] t1]. mresults. cbn [fst snd] in *. subst a1.
  destruct pending as [rows1|]; [|reflexivity].
  destruct (forEach rows1 (startDue w now) a) as [[u a2] t2]. cbn [fst snd].
  pose proof (dbQuery_final w (SelectActiveEnded (formatDBTime now)) a2) as Hf2.
  destruct (dbQuery w (SelectActiveEnded (formatDBTime now)) a2)
    as [[active a3] t3]. mresults. cbn [fst snd] in *. subst a3.
  destruct active as [rows2|]; [|reflexivity].
  destruct (forEach rows2 (stopEnded w now) a2) as [[u3 a4] t4]. reflexivity.
Qed.

Lemma forEach_cons_final {A} (x : A) (l : list A) (body : A -> M unit) (a : App) :
  final (forEach (x :: l) body a) = final (forEach l body (final (body x a))).
Proof.
  simpl. unfold mbind, M_bind, bind. mresults.
  destruct (body x a) as [[u a1] t1]. cbn [fst snd].
  destruct (forEach l body a1) as [[u2 a2] t2]. reflexivity.
Qed.

(** A loop over rows with distinct keys touches the row and the session
    of an identifier at most once: in the iteration of that key. *)
Lemma forEach_at {A} (key : A -> string) (body : A -> M unit) (id : string)
  (l : list A) :
  NoDup (key <$> l) ->
  (forall x a, x ∈ l -> key x <> id -> sameAt id a (final (body x a))) ->
  forall a,
    ((id ∉ key <$> l) /\ sameAt id a (final (forEach l body a)))
    \/ exists x a1,
         x ∈ l /\ key x = id /\ sameAt id a a1
         /\ sameAt id (final (body x a1)) (final (forEach l body a)).
Proof.
  induction l as [|x l IH]; intros Hnd Hother a.
  - left. split; [apply not_elem_of_nil|apply sameAt_refl].
  - rewrite fmap_cons in Hnd. apply NoDup_cons in Hnd. destruct Hnd as [Hx Hnd].
    rewrite forEach_cons_final.
    assert (Hother' : forall y b, y ∈ l -> key y <> id -> sameAt id b (final (body y b))).
    { intros y b Hy. apply Hother. apply list_elem_of_further. exact Hy. }
    destruct (string_dec (key x) id) as [Heq|Hne].
    + right. exists x, a. split; [apply list_elem_of_here|]. split; [exact Heq|].
      split; [apply sameAt_refl|].
      apply (forEach_keeps (sameAt id)).
      * apply sameAt_refl.
      * apply sameAt_trans.
      * intros y b Hy. apply Hother'; [exact Hy|]. intros E. apply Hx.
        rewrite Heq, <- E. apply list_elem_of_fmap_2. exact Hy.
    + pose proof (Hother x a (list_elem_of_here x l) Hne) as Hstep.
      destruct (IH Hnd Hother' (final (body x a))) as [[Hout Hsame]|(y & a1 & Hy & Hk & Hs1 & Hs2)].
      * left. split.
        -- rewrite fmap_cons. apply not_elem_of_cons. split; [congruence|exact Hout].
        -- eapply sameAt_trans; eauto.
      * right. exists y, a1. split; [apply list_elem_of_further; exact Hy|].
        split; [exact Hk|]. split; [|exact Hs2]. eapply sameAt_trans; eauto.
Qed.

Lemma dbQuery_NoDup (w : World) (q : Query) (a : App) (rows : list Notification) :
  result (dbQuery w q a) = Some rows -> NoDup (ID <$> rows).
Proof.
  munfold. mresults. destruct (dbQueryOk w q); simpl; [|discriminate].
  intros [= <-]. rewrite <- list_fmap_compose.
  apply (NoDup_fst_map_to_list (filter (fun kr => selects q (snd kr) = true) (DB a))).
Qed.

Lemma dbQuery_selected (w : World) (q : Query) (a : App) (id : string) (r : Row) :
  dbQueryOk w q = true -> DB a !! id = Some r -> selects q r = true ->
  exists rows, result (dbQuery w q a) = Some rows /\ scanRow (id, r) ∈ rows.
Proof.
  intros Hok Hr Hsel. munfold. mresults. rewrite Hok. simpl.
  eexists. split; [reflexivity|].
  apply list_elem_of_fmap. exists (id, r). split; [reflexivity|].
  apply elem_of_map_to_list. apply map_lookup_filter_Some. auto.
Qed.

Lemma startCast_cases (w : World) (id dev msg : string) (a : App) :
  final (startCast w id dev msg a) = a
  \/ (ActiveCasts a !! id = None
      /\ exists found,
           ActiveCasts (final (startCast w id dev msg a))
           = <[id := mkCastSession id dev found (Some id) true]> (ActiveCasts a)
           /\ DB (final (startCast w id dev msg a))
              = (if dbExecOk w (UpdateStatus "active" id)
                 then alter (setStatus "active") id (DB a) else DB a)).
Proof.
  destruct (result (startCast w id dev msg a)) as [e|] eqn:Hres.
  - left. apply (startCast_error_unchanged w id dev msg a e Hres).
  - right. revert Hres. unfold startCast. munfold. mresults.
    destruct (ActiveCasts a !! id) eqn:Hs; simpl; [discriminate|].
    destruct (find _ _) as [found|]; simpl; [|discriminate].
    destruct (GetLANIp w); simpl; [|discriminate].
    destruct (PlayMedia w _ _); simpl; [discriminate|].
    intros _. split; [reflexivity|]. exists found.
    destruct (dbExecOk w _); simpl; auto.
Qed.

Lemma stopCast_cases (w : World) (id : string) (a : App) :
  final (stopCast w id a) = a
  \/ exists s,
       ActiveCasts a !! id = Some s /\ Active s = true
       /\ ActiveCasts (final (stopCast w id a)) = delete id (ActiveCasts a)
       /\ DB (final (stopCast w id a))
          = (if dbExecOk w (UpdateStatus "completed" id)
             then alter (setStatus "completed") id (DB a) else DB a).
Proof.
  destruct (ActiveCasts a !! id) as [s|] eqn:Hs.
  - destruct (Active s) eqn:Hact.
    + right. exists s. destruct (stopCast_active w id a s Hs Hact) as (_ & Hc & _ & Hdb & _).
      auto.
    + left. unfold stopCast. munfold. mresults. rewrite Hs. simpl. rewrite Hact.
      reflexivity.
  - left. rewrite (stopCast_absent w id a Hs). reflexivity.
Qed.

Lemma startDue_final (w : World) (now : Time) (n : Notification) (a : App) :
  final (startDue w now n a)
  = if (Time_After now (StartTime n) || Time_Equal now (StartTime n))
       && Time_Before now (EndTime n) && osStat w (playlistPath (ID n))
    then final (startCast w (ID n) (Device n) (Message n) a)
    else a.
Proof.
  unfold startDue.
  destruct ((Time_After now (StartTime n) || Time_Equal now (StartTime n))
            && Time_Before now (EndTime n)); [|reflexivity].
  destruct (osStat w (playlistPath (ID n))); [|reflexivity].
  unfold mbind, M_bind, bind, ret. mresults.
  destruct (startCast w (ID n) (Device n) (Message n) a) as [[e b] t]. reflexivity.
Qed.

Lemma stopEnded_final (w : World) (now : Time) (n : Notification) (a : App) :
  final (stopEnded w now n a)
  = if Time_After now (EndTime n) || Time_Equal now (EndTime n)
    then final (stopCast w (ID n) a)
    else a.
Proof.
  unfold stopEnded.
  destruct (Time_After now (EndTime n) || Time_Equal now (EndTime n)); [|reflexivity].
  unfold mbind, M_bind, bind, ret. mresults.
  destruct (stopCast w (ID n) a) as [[e b] t]. reflexivity.
Qed.

Lemma startDue_other (w : World) (now : Time) (id : string) (n : Notification) (a : App) :
  ID n <> id -> sameAt id a (final (startDue w now n a)).
Proof.
  intros Hne. rewrite startDue_final. destruct (_ && _); [|apply sameAt_refl].
  apply startCast_other. exact Hne.
Qed.

Lemma stopEnded_other (w : World) (now : Time) (id : string) (n : Notification) (a : App) :
  ID n <> id -> sameAt id a (final (stopEnded w now n a)).
Proof.
  intros Hne. rewrite stopEnded_final. destruct (_ || _); [|apply sameAt_refl].
  apply stopCast_other. exact Hne.
Qed.

(** A query and the loop over its rows, seen from one identifier: the
    loop leaves the identifier alone, or the identifier has a row the
    query selects and is touched by the iteration of that row only. *)
Lemma queryLoop_at (w : World) (q : Query) (body : Notification -> M unit) (a : App)
  (id : string) (rows : list Notification) :
  result (dbQuery w q a) = Some rows ->
  (forall n b, ID n <> id -> sameAt id b (final (body n b))) ->
  ((id ∉ ID <$> rows) /\ sameAt id a (final (forEach rows body a)))
  \/ exists r b,
       DB a !! id = Some r /\ selects q r = true /\ sameAt id a b
       /\ sameAt id (final (body (scanRow (id, r)) b)) (final (forEach rows body a)).
Proof.
  intros Hq Hother.
  destruct (dbQuery_rows w q a rows Hq) as [_ Hin].
  destruct (forEach_at ID body id rows (dbQuery_NoDup w q a rows Hq)
              (fun x b _ => Hother x b) a) as [H|(n & b & Hn & Hk & Hs1 & Hs2)].
  - left. exact H.
  - right. destruct (Hin n Hn) as (r & Hr & Hsel & Hscan).
    rewrite Hk in Hr, Hscan. subst n. exists r, b. auto.
Qed.


Lemma ended_check (now : Time) (r : Row) (id : string) :
  0 <= nsec now ->
  selects (SelectActiveEnded (formatDBTime now)) r = true ->
  Time_After now (EndTime (scanRow (id, r)))
  || Time_Equal now (EndTime (scanRow (id, r))) = true.
Proof.
  intros Hns Hsel. unfold selects in Hsel.
  apply andb_prop in Hsel as [_ Hend]. apply Z.leb_le in Hend.
  unfold formatDBTime in *. unfold scanRow, scanDBTime. simpl.
  unfold Time_After, Time_Equal. simpl.
  destruct (Z.eq_dec (unixSec now) (end_time r)) as [E|E].
  - rewrite E. rewrite Z.ltb_irrefl, Z.eqb_refl. simpl.
    destruct (Z.eq_dec (nsec now) 0) as [E0|E0].
    + rewrite E0. reflexivity.
    + assert (H : (0 <? nsec now) = true) by (apply Z.ltb_lt; lia).
      rewrite H. reflexivity.
  - assert (H : (end_time r <? unixSec now) = true) by (apply Z.ltb_lt; lia).
    rewrite H. reflexivity.
Qed.

Lemma selects_pending (now : DBTime) (r : Row) :
  selects (SelectPendingStarted now) r = true ->
  status r = "pending" /\ now < end_time r.
Proof.
  unfold selects. intros H. apply andb_prop in H as [H He].
  apply andb_prop in H as [Hs _]. apply String.eqb_eq in Hs.
  apply Z.ltb_lt in He. auto.
Qed.

Lemma selects_active (now : DBTime) (r : Row) :
  selects (SelectActiveEnded now) r = true ->
  status r = "active" /\ end_time r <= now.
Proof.
  unfold selects. intros H. apply andb_prop in H as [Hs He].
  apply String.eqb_eq in Hs. apply Z.leb_le in He. auto.
Qed.

(** The first loop, seen from one identifier. *)
Lemma startLoop_at (w : World) (now : Time) (a : App) (id : string)
  (rows : list Notification) :
  result (dbQuery w (SelectPendingStarted (formatDBTime now)) a) = Some rows ->
  let a1 := final (forEach rows (startDue w now) a) in
  sameAt id a a1
  \/ exists r found,
       DB a !! id = Some r
       /\ selects (SelectPendingStarted (formatDBTime now)) r = true
       /\ ActiveCasts a !! id = None
       /\ osStat w (playlistPath id) = true
       /\ DB a1 !! id = Some (if dbExecOk w (UpdateStatus "active" id)
                              then setStatus "active" r else r)
       /\ ActiveCasts a1 !! id = Some (mkCastSession id (device r) found (Some id) true).
Proof.
  intros Hq. cbv zeta.
  destruct (queryLoop_at w _ (startDue w now) a id rows Hq
              (fun n b => startDue_other w now id n b))
    as [[_ H]|(r & b & Hr & Hsel & Hab & Hb)]; [left; exact H|].
  rewrite startDue_final in Hb. cbn [scanRow ID Device Message fst snd] in Hb.
  destruct (_ && _ && osStat w (playlistPath id)) eqn:Hc.
  2:{ left. eapply sameAt_trans; eauto. }
  apply andb_prop in Hc as [_ Hstat].
  destruct (startCast_cases w id (device r) (message r) b) as [Hsame|(Hnone & found & Hcasts & Hdb)].
  { left. rewrite Hsame in Hb. eapply sameAt_trans; eauto. }
  right. exists r, found. destruct Hab as [Hab1 Hab2]. destruct Hb as [Hb1 Hb2].
  split; [exact Hr|]. split; [exact Hsel|]. split; [congruence|].
  split; [exact Hstat|]. split.
  - rewrite Hb1, Hdb. destruct (dbExecOk w _).
    + rewrite lookup_alter_eq, Hab1, Hr. reflexivity.
    + rewrite Hab1, Hr. reflexivity.
  - rewrite Hb2, Hcasts. apply lookup_insert_eq.
Qed.

(** The second loop, seen from one identifier. *)
Lemma stopLoop_at (w : World) (now : Time) (a : App) (id : string)
  (rows : list Notification) :
  result (dbQuery w (SelectActiveEnded (formatDBTime now)) a) = Some rows ->
  let a1 := final (forEach rows (stopEnded w now) a) in
  sameAt id a a1
  \/ exists r s,
       DB a !! id = Some r
       /\ selects (SelectActiveEnded (formatDBTime now)) r = true
       /\ ActiveCasts a !! id = Some s /\ Active s = true
       /\ DB a1 !! id = Some (if dbExecOk w (UpdateStatus "completed" id)
                              then setStatus "completed" r else r)
       /\ ActiveCasts a1 !! id = None.
Proof.
  intros Hq. cbv zeta.
  destruct (queryLoop_at w _ (stopEnded w now) a id rows Hq
              (fun n b => stopEnded_other w now id n b))
    as [[_ H]|(r & b & Hr & Hsel & Hab & Hb)]; [left; exact H|].
  rewrite stopEnded_final in Hb. cbn [scanRow ID fst snd] in Hb.
  destruct (_ || _) eqn:Hc.
  2:{ left. eapply sameAt_trans; eauto. }
  destruct (stopCast_cases w id b) as [Hsame|(s & Hs & Hact & Hcasts & Hdb)].
  { left. rewrite Hsame in Hb. eapply sameAt_trans; eauto. }
  right. exists r, s. destruct Hab as [Hab1 Hab2]. destruct Hb as [Hb1 Hb2].
  split; [exact Hr|]. split; [exact Hsel|]. split; [congruence|].
  split; [exact Hact|]. split.
  - rewrite Hb1, Hdb. destruct (dbExecOk w _).
    + rewrite lookup_alter_eq, Hab1, Hr. reflexivity.
    + rewrite Hab1, Hr. reflexivity.
  - rewrite Hb2, Hcasts. apply lookup_delete_eq.
Qed.

(** A tick, seen from one identifier: nothing, or the start of its cast,
    or the stop of its cast. *)
Lemma tick_at (w : World) (now : Time) (a : App) (id : string) :
  let a' := final (checkAndProcessNotifications w now a) in
  sameAt id a a'
  \/ (exists r found,
        DB a !! id = Some r
        /\ selects (SelectPendingStarted (formatDBTime now)) r = true
        /\ ActiveCasts a !! id = None
        /\ osStat w (playlistPath id) = true
        /\ DB a' !! id = Some (if dbExecOk w (UpdateStatus "active" id)
                               then setStatus "active" r else r)
        /\ ActiveCasts a' !! id
           = Some (mkCastSession id (device r) found (Some id) true))
  \/ (exists r s,
        DB a !! id = Some r
        /\ selects (SelectActiveEnded (formatDBTime now)) r = true
        /\ ActiveCasts a !! id = Some s /\ Active s = true
        /\ DB a' !! id = Some (if dbExecOk w (UpdateStatus "completed" id)
                               then setStatus "completed" r else r)
        /\ ActiveCasts a' !! id = None).
Proof.
  cbv zeta. rewrite tick_final.
  destruct (result (dbQuery w (SelectPendingStarted (formatDBTime now)) a))
    as [rows1|] eqn:Hq1; [|left; apply sameAt_refl].
  cbv zeta.
  pose proof (startLoop_at w now a id rows1 Hq1) as H1. cbv zeta in H1.
  set (a1 := final (forEach rows1 (startDue w now) a)) in *.
  destruct (result (dbQuery w (SelectActiveEnded (formatDBTime now)) a1))
    as [rows2|] eqn:Hq2.
  2:{ destruct H1 as [H1|H1]; [left; exact H1|right; left; exact H1]. }
  pose proof (stopLoop_at w now a1 id rows2 Hq2) as H2. cbv zeta in H2.
  set (a2 := final (forEach rows2 (stopEnded w now) a1)) in *.
  destruct H1 as [H1|(r & found & Hr & Hsel & Hnone & Hstat & Hdb & Hcasts)].
  - destruct H2 as [H2|(r & s & Hr & Hsel & Hs & Hact & Hdb & Hcasts)].
    + left. eapply sameAt_trans; eauto.
    + right. right. destruct H1 as [E1 E2]. exists r, s.
      rewrite E1 in Hr. rewrite E2 in Hs. auto 10.
  - destruct H2 as [[E1 E2]|(r2 & s & Hr2 & Hsel2 & _)].
    + right. left. exists r, found. rewrite E1, E2. auto 10.
    + exfalso. rewrite Hdb in Hr2. injection Hr2 as <-.
      apply selects_pending in Hsel. apply selects_active in Hsel2.
      destruct (dbExecOk w _); simpl in Hsel2; lia.
Qed.

(** X11: a tick moves the status of a row forward by at most one step
    and changes nothing else in the table.  After
    [checkAndProcessNotifications] every identifier without a row is
    still without one, and every row is as it was, or was pending and is
    now active, or was active and is now completed, its other columns
    unchanged. *)
Theorem tick_moves_status_forward (w : World) (now : Time) (a : App) (id : string) :
  match DB a !! id with
  | None => DB (final (checkAndProcessNotifications w now a)) !! id = None
  | Some r =>
      exists r', DB (final (checkAndProcessNotifications w now a)) !! id = Some r'
                 /\ statusStep r r'
  end.
Proof.
  pose proof (tick_at w now a id) as H. cbv zeta in H.
  destruct H as [[E _]|[(r & found & Hr & Hsel & _ & _ & Hdb & _)
                       |(r & s & Hr & Hsel & _ & _ & Hdb & _)]].
  - rewrite E. destruct (DB a !! id) as [r|]; [|reflexivity].
    exists r. split; [reflexivity|]. left. reflexivity.
  - rewrite Hr, Hdb. eexists. split; [reflexivity|].
    apply selects_pending in Hsel. destruct (dbExecOk w _); [|left; reflexivity].
    right. left. tauto.
  - rewrite Hr, Hdb. eexists. split; [reflexivity|].
    apply selects_active in Hsel. destruct (dbExecOk w _); [|left; reflexivity].
    right. right. tauto.
Qed.

(** X12: an active row without a session is never completed by the
    scheduler.  When the table of sessions has no entry for an active
    row (the table is in memory: after a restart it is empty), no number
    of ticks, whatever their clock readings, changes the row or gives it
    a session: [stopCast] returns before the update when it finds no
    session. *)
Theorem active_row_without_session_stays (ticks : list (World * Time)) (a : App)
  (id : string) (r : Row) :
  DB a !! id = Some r ->
  status r = "active" ->
  ActiveCasts a !! id = None ->
  sameAt id a (runTicks ticks a).
Proof.
  revert a. induction ticks as [|[w now] ticks IH]; intros a Hr Hst Hnone.
  - apply sameAt_refl.
  - simpl.
    assert (Hstep : sameAt id a (final (checkAndProcessNotifications w now a))).
    { pose proof (tick_at w now a id) as H. cbv zeta in H.
      destruct H as [H|[(r' & found & Hr' & Hsel & _)|(r' & s & _ & _ & Hs & _)]].
      - exact H.
      - apply selects_pending in Hsel. destruct Hsel as [Hp _]. congruence.
      - congruence. }
    eapply sameAt_trans; [exact Hstep|]. destruct Hstep as [E1 E2].
    apply IH; congruence.
Qed.

Lemma active_row_without_session_stays_witness :
  sameAt "n1" appRestarted
    (runTicks [(calm, inWindow); (calm, afterWindow)] appRestarted).
Proof.
  apply (active_row_without_session_stays [(calm, inWindow); (calm, afterWindow)]
           appRestarted "n1" row1); reflexivity.
Defined.

(** X13: a cast whose row could not be marked active is never stopped
    by the scheduler.  When [startCast] recorded the session and the
    update of the status failed, the row is pending with a session; from
    then on no number of ticks changes the row or the session: the
    scan for ended casts reads active rows only. *)
Theorem pending_row_with_session_stays (ticks : list (World * Time)) (a : App)
  (id : string) (r : Row) (s : CastSession) :
  DB a !! id = Some r ->
  status r = "pending" ->
  ActiveCasts a !! id = Some s ->
  sameAt id a (runTicks ticks a).
Proof.
  revert a. induction ticks as [|[w now] ticks IH]; intros a Hr Hst Hs.
  - apply sameAt_refl.
  - simpl.
    assert (Hstep : sameAt id a (final (checkAndProcessNotifications w now a))).
    { pose proof (tick_at w now a id) as H. cbv zeta in H.
      destruct H as [H|[(r' & found & _ & _ & Hnone & _)|(r' & s' & Hr' & Hsel & _)]].
      - exact H.
      - congruence.
      - apply selects_active in Hsel. destruct Hsel as [Hp _]. congruence. }
    eapply sameAt_trans; [exact Hstep|]. destruct Hstep as [E1 E2].
    apply (IH _); congruence.
Qed.

Lemma pending_row_with_session_stays_witness :
  DB appUnmarked !! "n1" = Some rowPending
  /\ ActiveCasts appUnmarked !! "n1" = Some session1
  /\ sameAt "n1" appUnmarked
       (runTicks [(calm, inWindow); (calm, afterWindow)] appUnmarked).
Proof.
  split; [vm_compute; reflexivity|]. split; [vm_compute; reflexivity|].
  apply (pending_row_with_session_stays [(calm, inWindow); (calm, afterWindow)]
           appUnmarked "n1" rowPending session1).
  - vm_compute. reflexivity.
  - reflexivity.
  - vm_compute. reflexivity.
Defined.

Lemma queryLoop_hits (w : World) (q : Query) (body : Notification -> M unit) (a : App)
  (id : string) (r : Row) :
  dbQueryOk w q = true -> DB a !! id = Some r -> selects q r = true ->
  (forall n b, ID n <> id -> sameAt id b (final (body n b))) ->
  exists rows b,
    result (dbQuery w q a) = Some rows
    /\ sameAt id a b
    /\ sameAt id (final (body (scanRow (id, r)) b)) (final (forEach rows body a)).
Proof.
  intros Hok Hr Hsel Hother.
  destruct (dbQuery_selected w q a id r Hok Hr Hsel) as (rows & Hq & Hin).
  exists rows.
  destruct (queryLoop_at w q body a id rows Hq Hother)
    as [[Hout _]|(r' & b & Hr' & _ & Hab & Hb)].
  - exfalso. apply Hout. apply (list_elem_of_fmap_2 ID) in Hin. exact Hin.
  - assert (r' = r) by congruence. subst r'. exists b. auto.
Qed.



(** X15: a tick stops every cast whose window has ended.  For an active
    row whose end is not after the clock reading and whose session is
    active, when both queries are answered: after the tick the session
    is gone, and the row is completed when the store took the update,
    whatever the other rows are. *)
Theorem tick_stops_ended_cast (w : World) (now : Time) (a : App) (id : string)
  (r : Row) (s : CastSession) :
  0 <= nsec now ->
  dbQueryOk w (SelectPendingStarted (formatDBTime now)) = true ->
  dbQueryOk w (SelectActiveEnded (formatDBTime now)) = true ->
  DB a !! id = Some r ->
  status r = "active" ->
  end_time r <= unixSec now ->
  ActiveCasts a !! id = Some s ->
  Active s = true ->
  let a' := final (checkAndProcessNotifications w now a) in
  ActiveCasts a' !! id = None
  /\ DB a' !! id = Some (if dbExecOk w (UpdateStatus "completed" id)
                         then setStatus "completed" r else r).
Proof.
  intros Hns Hok1 Hok2 Hr Hst Hend Hs Hact. cbv zeta.
  rewrite tick_final.
  destruct (result (dbQuery w (SelectPendingStarted (formatDBTime now)) a))
    as [rows1|] eqn:Hq1.
  2:{ exfalso. revert Hq1. munfold. mresults. rewrite Hok1. discriminate. }
  cbv zeta.
  pose proof (startLoop_at w now a id rows1 Hq1) as H1. cbv zeta in H1.
  set (a1 := final (forEach rows1 (startDue w now) a)) in *.
  destruct H1 as [[E1 E2]|(r' & found & Hr' & Hsel & _)].
  2:{ exfalso. apply selects_pending in Hsel. destruct Hsel as [Hp _]. congruence. }
  assert (Hsel : selects (SelectActiveEnded (formatDBTime now)) r = true).
  { unfold selects, formatDBTime. rewrite Hst. simpl. apply Z.leb_le. lia. }
  assert (Hr1 : DB a1 !! id = Some r) by congruence.
  destruct (queryLoop_hits w _ (stopEnded w now) a1 id r Hok2 Hr1 Hsel
              (fun n b => stopEnded_other w now id n b))
    as (rows2 & b & Hq2 & [Hab1 Hab2] & [Hb1 Hb2]).
  rewrite Hq2.
  rewrite stopEnded_final in Hb1, Hb2. rewrite (ended_check now r id Hns Hsel) in Hb1, Hb2.
  cbn [scanRow ID fst snd] in Hb1, Hb2.
  assert (Hs' : ActiveCasts b !! id = Some s) by congruence.
  destruct (stopCast_active w id b s Hs' Hact) as (_ & Hcasts & _ & Hdb & _).
  rewrite Hcasts in Hb2. rewrite Hdb in Hb1. rewrite lookup_delete_eq in Hb2.
  split; [exact Hb2|]. rewrite Hb1. destruct (dbExecOk w _).
  - rewrite lookup_alter_eq, Hab1, Hr1. reflexivity.
  - rewrite Hab1, Hr1. reflexivity.
Qed.

Lemma tick_stops_ended_cast_witness :
  ActiveCasts (final (checkAndProcessNotifications calm afterWindow app1)) !! "n1" = None
  /\ DB (final (checkAndProcessNotifications calm afterWindow app1)) !! "n1"
     = Some (if dbExecOk calm (UpdateStatus "completed" "n1")
             then setStatus "completed" row1 else row1).
Proof.
  apply (tick_stops_ended_cast calm afterWindow app1 "n1" row1 session1);
    first [reflexivity | simpl; lia].
Defined.

(** ** The three layouts of [parseTimeInUTC] *)

Lemma parseSteps_noZone (layout : list Chunk) (value value' : string) (f f' : Fields) :
  forallb noZone layout = true ->
  parseSteps layout value f = inl (value', f') ->
  f_z f' = f_z f /\ f_zoneOffset f' = f_zoneOffset f.
Proof.
  revert value f. induction layout as [|c layout IH]; intros value f Hall; simpl.
  - intros [= _ <-]. auto.
  - simpl in Hall. apply andb_prop in Hall as [Hc Hall].
    destruct (parseStd c value f) as [[v f1]|] eqn:Hstd; [|discriminate].
    intros H. destruct (IH _ _ Hall H) as [H1 H2].
    destruct (parseStd_noZone _ _ _ _ _ Hc Hstd) as [H3 H4].
    split; congruence.
Qed.

Lemma layoutZ_within_RFC3339 (lo : Z -> Z) (value : string) (t : Time) :
  Parse lo layoutZ value = inl t -> Parse lo RFC3339 value = inl t.
Proof.
  unfold Parse, parse.
  change layoutZ with ((datePrefix ++ Lit "T" :: timeOfDay) ++ [Lit "Z"]).
  change RFC3339 with ((datePrefix ++ Lit "T" :: timeOfDay) ++ [stdISO8601ColonTZ]).
  rewrite !parseChunks_app.
  destruct (parseSteps (datePrefix ++ Lit "T" :: timeOfDay) value initFields)
    as [[v f]|e] eqn:Hpre; [|discriminate].
  destruct (parseSteps_noZone (datePrefix ++ Lit "T" :: timeOfDay) _ _ _ _
              eq_refl Hpre) as [Hz Hoff].
  simpl in Hz, Hoff.
  cbn [parseChunks parseStd]. unfold skip.
  destruct v as [|c v]; [simpl; discriminate|].
  cbn [skipFrom]. change (Ascii.eqb "Z" " ") with false. cbn iota.
  destruct (Ascii.eqb c "Z"); [|discriminate].
  destruct v as [|c' v]; [|discriminate].
  cbn [f_day f_month f_year f_hour f_min f_sec f_nsec f_z f_zoneOffset].
  destruct (_ || _); [discriminate|].
  rewrite Hz, Hoff. simpl. intros [= <-]. reflexivity.
Qed.

(** X16: the second layout of [parseTimeInUTC] never decides.  Every
    text that [2006-01-02T15:04:05Z] reads is read by [time.RFC3339],
    as the same time; so the second attempt, made only after RFC 3339
    has refused the text, always fails, and [parseTimeInUTC] is the RFC
    3339 reading put in UTC, else the reading of the form with a space,
    else the error of the RFC 3339 attempt. *)
Theorem parseTimeInUTC_second_layout_never_decides (w : World) (timeStr : string) :
  (forall t, Parse (localOffset w) layoutZ timeStr = inl t ->
             Parse (localOffset w) RFC3339 timeStr = inl t)
  /\ parseTimeInUTC w timeStr
     = match Parse (localOffset w) RFC3339 timeStr with
       | inl t => inl (Time_UTC t)
       | inr e =>
           match ParseInLocationUTC (localOffset w) layoutSpace timeStr with
           | inl t => inl t
           | inr _ => inr e
           end
       end.
Proof.
  split; [apply layoutZ_within_RFC3339|].
  unfold parseTimeInUTC.
  destruct (Parse (localOffset w) RFC3339 timeStr) as [t|e] eqn:H1; [reflexivity|].
  destruct (Parse (localOffset w) layoutZ timeStr) as [t|e2] eqn:H2.
  - apply layoutZ_within_RFC3339 in H2. congruence.
  - destruct (ParseInLocationUTC _ _ _); reflexivity.
Qed.

(** ** What holds of the process at all times *)






Lemma startCast_marks (w : World) (id dev msg : string) (a : App) :
  VideoGenInProgress (final (startCast w id dev msg a)) = VideoGenInProgress a.
Proof.
  unfold startCast. munfold. mresults.
  destruct (ActiveCasts a !! id); simpl; [reflexivity|].
  destruct (find _ _); simpl; [|reflexivity].
  destruct (GetLANIp w); simpl; [|reflexivity].
  destruct (PlayMedia w _ _); simpl; [reflexivity|].
  destruct (dbExecOk w _); reflexivity.
Qed.

Lemma stopCast_marks (w : World) (id : string) (a : App) :
  VideoGenInProgress (final (stopCast w id a)) = VideoGenInProgress a.
Proof.
  destruct (ActiveCasts a !! id) as [s|] eqn:Hs.
  - destruct (Active s) eqn:Hact.
    + destruct (stopCast_active w id a s Hs Hact) as (_ & _ & Hv & _). exact Hv.
    + unfold stopCast. munfold. mresults. rewrite Hs. simpl. rewrite Hact. reflexivity.
  - rewrite (stopCast_absent w id a Hs). reflexivity.
Qed.

Lemma tick_marks (w : World) (now : Time) (a : App) :
  VideoGenInProgress (final (checkAndProcessNotifications w now a))
  = VideoGenInProgress a.
Proof.
  set (P := fun a b : App => VideoGenInProgress b = VideoGenInProgress a).
  assert (Hrefl : forall a, P a a) by reflexivity.
  assert (Htrans : forall a b c, P a b -> P b c -> P a c)
    by (unfold P; intros; congruence).
  rewrite tick_final.
  destruct (result (dbQuery w (SelectPendingStarted (formatDBTime now)) a))
    as [rows1|]; [|reflexivity].
  cbv zeta.
  assert (H1 : P a (final (forEach rows1 (startDue w now) a))).
  { apply (forEach_keeps P); [exact Hrefl|exact Htrans|].
    intros n b _. unfold P. rewrite startDue_final.
    destruct (_ && _); [apply startCast_marks|reflexivity]. }
  destruct (result (dbQuery w (SelectActiveEnded (formatDBTime now)) _))
    as [rows2|]; [|exact H1].
  eapply Htrans; [exact H1|].
  apply (forEach_keeps P); [exact Hrefl|exact Htrans|].
  intros n b _. unfold P. rewrite stopEnded_final.
  destruct (_ || _); [apply stopCast_marks|reflexivity].
Qed.

Lemma runOp_marks (a : App) (op : Op) :
  VideoGenInProgress (runOp a op) = VideoGenInProgress a.
Proof.
  destruct op as [w now|w body|w id]; simpl.
  - apply tick_marks.
  - destruct (createNotification_outcome w body a) as [[n Hn]|[_ Hfinal]].
    + destruct (createNotification_created w body a n Hn)
        as (rb & s & e & _ & _ & _ & _ & _ & ->). reflexivity.
    + rewrite Hfinal. reflexivity.
  - pose proof (deleteNotification_steps w id a) as Hsteps. cbv zeta in Hsteps.
    rewrite Hsteps. destruct (dbExecOk w _); rewrite final_pair; apply stopCast_marks.
Qed.

(** X18: the scheduler and the handlers never touch the marks of
    pre-generation.  After any sequence of ticks, creations and
    deletions [VideoGenInProgress] is as before; each of them is
    therefore one of the steps by anything else that the account of
    concurrent pre-generation allows for. *)
Theorem ticks_and_handlers_leave_marks (ops : list Op) (a : App) (threads : list PgPC) :
  VideoGenInProgress (runOps ops a) = VideoGenInProgress a
  /\ forall op, sysStep (mkSys a threads) (mkSys (runOp a op) threads).
Proof.
  split.
  - revert a. unfold runOps. induction ops as [|op ops IH]; intros a; simpl.
    + reflexivity.
    + rewrite IH. apply runOp_marks.
  - intros op. apply (step_other (mkSys a threads) (runOp a op)). apply runOp_marks.
Qed.

Lemma pgStep_casts (w : World) (pc : PgPC) (a : App) :
  ActiveCasts (final (pgStep w pc a)) = ActiveCasts a.
Proof.
  destruct pc as [now|[|n rows]|n rows|n rows|n p rows|]; simpl; munfold; mresults;
    try reflexivity.
  - destruct (dbQueryOk w _); reflexivity.
  - destruct (osStat w _); reflexivity.
  - destruct (VideoGenInProgress a !! ID n) as [[|]|]; reflexivity.
  - unfold pgJobBody. munfold.
    destruct (imageOutcome w (ID n)); simpl; try reflexivity.
    destruct (ttsOutcome w _ (ID n)); simpl; try reflexivity;
      destruct (ffmpegOutcome w _); reflexivity.
Qed.

Lemma pgRun_keeps (w : World) (fuel : nat) (pc : PgPC) (a : App) :
  DB (final (pgRun fuel w pc a)) = DB a
  /\ ActiveCasts (final (pgRun fuel w pc a)) = ActiveCasts a.
Proof.
  revert pc a. induction fuel as [|fuel IH]; intros pc a; [split; reflexivity|].
  assert (Hstep : forall pc0, pc0 = pc ->
            DB (final ((pc' ← pgStep w pc0; pgRun fuel w pc') a)) = DB a
            /\ ActiveCasts (final ((pc' ← pgStep w pc0; pgRun fuel w pc') a))
               = ActiveCasts a).
  { intros pc0 _. unfold mbind, M_bind, bind. mresults.
    pose proof (pgStep_DB w pc0 a) as H1. pose proof (pgStep_casts w pc0 a) as H2.
    mresults. destruct (pgStep w pc0 a) as [[pc' a'] t]. cbn [fst snd] in *.
    destruct (IH pc' a') as [H3 H4]. mresults.
    destruct (pgRun fuel w pc' a') as [[pc'' a''] t']. cbn [fst snd] in *.
    split; congruence. }
  destruct pc; try (apply Hstep; reflexivity). split; reflexivity.
Qed.

(** X19: a pre-generation run by itself returns and leaves the process
    as it found it.  Whatever the store, the image, the narration and
    ffmpeg do, a panic included,
    [preGenerateVideosForPendingNotifications] returns, with every mark
    of [VideoGenInProgress] as before, and with the table and the
    sessions unchanged. *)
Theorem preGenerate_returns_and_restores (w : World) (now : Time) (a : App) :
  let out := preGenerateVideosForPendingNotifications w now a in
  result out = PgReturned
  /\ (forall id, marked id (final out) = marked id a)
  /\ DB (final out) = DB a
  /\ ActiveCasts (final out) = ActiveCasts a.
Proof.
  cbv zeta. destruct (preGenerate_returns w now a) as [Hr Hm].
  split; [exact Hr|]. split; [exact Hm|].
  unfold preGenerateVideosForPendingNotifications. unfold mbind, M_bind, bind. mresults.
  pose proof (pgStep_DB w (PgQuery now) a) as H1.
  pose proof (pgStep_casts w (PgQuery now) a) as H2. mresults.
  destruct (pgStep w (PgQuery now) a) as [[pc a'] t]. cbn [fst snd] in *.
  destruct (pgRun_keeps w (pgBound pc) pc a') as [H3 H4]. mresults.
  destruct (pgRun (pgBound pc) w pc a') as [[pc'' a''] t']. cbn [fst snd] in *.
  split; congruence.
Qed.

(** ** What a pre-generation run generates *)

Lemma pgRun_step (w : World) (fuel : nat) (pc : PgPC) (a : App) :
  pc <> PgReturned ->
  trace (pgRun (S fuel) w pc a)
  = trace (pgStep w pc a)
    ++ trace (pgRun fuel w (result (pgStep w pc a)) (final (pgStep w pc a))).
Proof.
  intros Hpc.
  assert (H : pgRun (S fuel) w pc = (pc' ← pgStep w pc; pgRun fuel w pc')).
  { destruct pc; try reflexivity. contradiction. }
  rewrite H. unfold mbind, M_bind, bind. mresults.
  destruct (pgStep w pc a) as [[pc' a'] t]. cbn [fst snd].
  destruct (pgRun fuel w pc' a') as [[pc'' a''] t']. reflexivity.
Qed.

Lemma pgRun_returned (w : World) (fuel : nat) (a : App) :
  trace (pgRun fuel w PgReturned a) = [].
Proof. destruct fuel; reflexivity. Qed.

Lemma pgStep_images (w : World) (id : string) (pc : PgPC) (a : App) :
  (forall now, pc <> PgQuery now) ->
  (countIf (isImageOf id) (trace (pgStep w pc a))
   + pcWeight w id (result (pgStep w pc a)) <= pcWeight w id pc)%nat.
Proof.
  intros Hq.
  destruct pc as [now|[|n rows]|n rows|n rows|n p rows|]; simpl; munfold; mresults.
  - exfalso. apply (Hq now). reflexivity.
  - simpl. lia.
  - assert (Hn : needsVideo w id n
                 = String.eqb (ID n) id && negb (osStat w (playlistPath (ID n))))
      by reflexivity.
    rewrite Hn. destruct (osStat w (playlistPath (ID n))); simpl.
    + lia.
    + rewrite andb_true_r. lia.
  - destruct (VideoGenInProgress a !! ID n) as [[|]|]; simpl; lia.
  - unfold pgJobBody. munfold.
    destruct (imageOutcome w (ID n)); simpl;
      try (destruct (String.eqb (ID n) id); simpl; lia).
    destruct (ttsOutcome w _ (ID n)); simpl;
      repeat match goal with
             | |- context [ffmpegOutcome w ?args] => destruct (ffmpegOutcome w args)
             end; simpl;
      destruct (String.eqb (ID n) id); simpl; lia.
  - destruct p; simpl; lia.
  - simpl. lia.
Qed.

Lemma pgStep_not_query (w : World) (pc : PgPC) (a : App) :
  forall now, result (pgStep w pc a) <> PgQuery now.
Proof.
  intros now.
  destruct pc as [now0|[|n rows]|n rows|n rows|n p rows|]; simpl; munfold; mresults;
    simpl; try discriminate.
  - destruct (dbQueryOk w _); simpl; discriminate.
  - destruct (osStat w _); simpl; discriminate.
  - destruct (VideoGenInProgress a !! ID n) as [[|]|]; simpl; discriminate.
  - unfold pgJobBody. munfold.
    destruct (imageOutcome w (ID n)); simpl; try discriminate.
    destruct (ttsOutcome w _ (ID n)); simpl;
      repeat match goal with
             | |- context [ffmpegOutcome w ?args] => destruct (ffmpegOutcome w args)
             end; discriminate.
  - destruct p; discriminate.
Qed.

Lemma PgPC_returned_dec (pc : PgPC) : {pc = PgReturned} + {pc <> PgReturned}.
Proof. destruct pc; first [left; reflexivity | right; discriminate]. Qed.

Lemma pgRun_images (w : World) (id : string) (fuel : nat) (pc : PgPC) (a : App) :
  (forall now, pc <> PgQuery now) ->
  (countIf (isImageOf id) (trace (pgRun fuel w pc a)) <= pcWeight w id pc)%nat.
Proof.
  revert pc a. induction fuel as [|fuel IH]; intros pc a Hq; [simpl; lia|].
  destruct (PgPC_returned_dec pc) as [->|Hpc].
  - rewrite pgRun_returned. simpl. lia.
  - rewrite (pgRun_step w fuel pc a Hpc), countIf_app.
    pose proof (pgStep_images w id pc a Hq) as Hstep.
    pose proof (IH (result (pgStep w pc a)) (final (pgStep w pc a))
                   (pgStep_not_query w pc a)) as Hrest.
    lia.
Qed.

Lemma countIf_none {A} (p : A -> bool) (l : list A) :
  (forall x, x ∈ l -> p x = false) -> countIf p l = O.
Proof.
  induction l as [|x l IH]; intros H; [reflexivity|]. simpl.
  rewrite (H x (list_elem_of_here x l)). rewrite IH; [reflexivity|].
  intros y Hy. apply H. apply list_elem_of_further. exact Hy.
Qed.

Lemma countIf_some {A} (p : A -> bool) (l : list A) :
  (0 < countIf p l)%nat -> exists x, x ∈ l /\ p x = true.
Proof.
  induction l as [|x l IH]; simpl; [lia|]. intros H.
  destruct (p x) eqn:Hp.
  - exists x. split; [apply list_elem_of_here|exact Hp].
  - destruct (IH H) as (y & Hy & Hpy). exists y.
    split; [apply list_elem_of_further; exact Hy|exact Hpy].
Qed.

Lemma needsVideo_once (w : World) (id : string) (rows : list Notification) :
  NoDup (ID <$> rows) -> (countIf (needsVideo w id) rows <= 1)%nat.
Proof.
  induction rows as [|n rows IH]; intros Hnd; simpl; [lia|].
  rewrite fmap_cons in Hnd. apply NoDup_cons in Hnd. destruct Hnd as [Hn Hnd].
  destruct (needsVideo w id n) eqn:Hneeds; [|apply IH; exact Hnd].
  rewrite countIf_none; [lia|].
  intros m Hm. destruct (needsVideo w id m) eqn:Hm'; [|reflexivity].
  exfalso. apply Hn. unfold needsVideo in *.
  apply andb_prop in Hneeds as [E1 _]. apply andb_prop in Hm' as [E2 _].
  apply String.eqb_eq in E1. apply String.eqb_eq in E2.
  rewrite E1, <- E2. apply list_elem_of_fmap_2. exact Hm.
Qed.

Lemma pgStep_query (w : World) (now : Time) (a : App) :
  let q := SelectPendingSoon (formatDBTime now) (formatDBTime (Time_Add now (5 * Minute))) in
  pgStep w (PgQuery now) a
  = (match result (dbQuery w q a) with
     | None => PgReturned
     | Some rows => PgNext rows
     end, a, [EvQuery q (dbQueryOk w q)]).
Proof.
  cbv zeta. simpl. munfold. mresults. destruct (dbQueryOk w _); reflexivity.
Qed.

(** X20: a pre-generation run generates at most once for a
    notification, and only where a video is missing.  In the trace of
    [preGenerateVideosForPendingNotifications] run by itself the
    generation of the image of an identifier is started at most once;
    when it is started, the identifier has a pending row that starts
    after the clock reading and within five minutes of it, and its
    playlist is not on the disk. *)
Theorem preGenerate_generates_once_where_needed (w : World) (now : Time) (a : App)
  (id : string) :
  let out := preGenerateVideosForPendingNotifications w now a in
  (countIf (isImageOf id) (trace out) <= 1)%nat
  /\ ((0 < countIf (isImageOf id) (trace out))%nat ->
      exists r,
        DB a !! id = Some r
        /\ selects (SelectPendingSoon (formatDBTime now)
                      (formatDBTime (Time_Add now (5 * Minute)))) r = true
        /\ osStat w (playlistPath id) = false).
Proof.
  cbv zeta.
  set (q := SelectPendingSoon (formatDBTime now) (formatDBTime (Time_Add now (5 * Minute)))).
  assert (Htrace : exists rows,
            (result (dbQuery w q a) = Some rows \/ rows = [])
            /\ (countIf (isImageOf id)
                  (trace (preGenerateVideosForPendingNotifications w now a))
                <= countIf (needsVideo w id) rows)%nat).
  { unfold preGenerateVideosForPendingNotifications. unfold mbind, M_bind, bind.
    pose proof (pgStep_query w now a) as Hstep. cbv zeta in Hstep. fold q in Hstep.
    rewrite Hstep. mresults. cbn [fst snd].
    destruct (dbQuery w q a).1.1 as [rows|] eqn:Hq.
    - exists rows. split; [left; reflexivity|].
      pose proof (pgRun_images w id (pgBound (PgNext rows)) (PgNext rows) a) as H.
      mresults. destruct (pgRun (pgBound (PgNext rows)) w (PgNext rows) a)
        as [[pc' a'] t']. cbn [fst snd] in *.
      apply H. intros now'. discriminate.
    - exists []. split; [right; reflexivity|]. simpl. lia. }
  destruct Htrace as (rows & Hrows & Hle).
  assert (Hnd : NoDup (ID <$> rows)).
  { destruct Hrows as [Hq| ->]; [|constructor]. apply (dbQuery_NoDup w q a rows Hq). }
  pose proof (needsVideo_once w id rows Hnd) as Hone.
  split; [lia|]. intros Hpos.
  destruct (countIf_some (needsVideo w id) rows) as (n & Hn & Hneeds); [lia|].
  destruct Hrows as [Hq| ->]; [|inversion Hn].
  destruct (dbQuery_rows w q a rows Hq) as [_ Hin].
  destruct (Hin n Hn) as (r & Hr & Hsel & _).
  unfold needsVideo in Hneeds. apply andb_prop in Hneeds as [E1 E2].
  apply String.eqb_eq in E1. rewrite E1 in *.
  exists r. split; [exact Hr|]. split; [exact Hsel|].
  destruct (osStat w (playlistPath id)); [discriminate|reflexivity].
Qed.

Lemma preGenerate_generates_once_where_needed_witness :
  exists r,
    DB appPending !! "n1" = Some r
    /\ selects (SelectPendingSoon (formatDBTime (mkTime 1735725500 0 UTC))
                  (formatDBTime (Time_Add (mkTime 1735725500 0 UTC) (5 * Minute)))) r
       = true
    /\ osStat notReady (playlistPath "n1") = false.
Proof.
  apply (proj2 (preGenerate_generates_once_where_needed notReady
                  (mkTime 1735725500 0 UTC) appPending "n1")).
  vm_compute. lia.
Defined.

(** ** A cast from start to stop *)

Lemma startCast_none (w : World) (id dev msg : string) (a : App) :
  result (startCast w id dev msg a) = None ->
  ActiveCasts a !! id = None
  /\ exists found,
       ActiveCasts (final (startCast w id dev msg a))
       = <[id := mkCastSession id dev found (Some id) true]> (ActiveCasts a)
       /\ DB (final (startCast w id dev msg a))
          = (if dbExecOk w (UpdateStatus "active" id)
             then alter (setStatus "active") id (DB a) else DB a).
Proof.
  unfold startCast. munfold. mresults.
  destruct (ActiveCasts a !! id) eqn:Hs; simpl; [discriminate|].
  destruct (find _ _) as [found|]; simpl; [|discriminate].
  destruct (GetLANIp w); simpl; [|discriminate].
  destruct (PlayMedia w _ _); simpl; [discriminate|].
  intros _. split; [reflexivity|]. exists found.
  destruct (dbExecOk w _); simpl; auto.
Qed.

(** X21: a cast that was started is stopped by one [stopCast], which
    puts the table of sessions back.  After a [startCast] that returned
    no error, [stopCast] on the same identifier returns no error,
    cancels once, and leaves the table of sessions as it was before the
    start; the row of the identifier, if there is one, is completed
    when the store takes that update, whether or not it took the
    update to active, and the other rows are as before the start. *)
Theorem cast_started_then_stopped (w w' : World) (id dev msg : string) (a : App) :
  result (startCast w id dev msg a) = None ->
  let a1 := final (startCast w id dev msg a) in
  let out := stopCast w' id a1 in
  result out = None
  /\ ActiveCasts (final out) = ActiveCasts a
  /\ countIf isCancel (trace out) = 1%nat
  /\ (dbExecOk w' (UpdateStatus "completed" id) = true ->
      DB (final out) !! id = setStatus "completed" <$> DB a !! id)
  /\ (forall id', id' <> id -> DB (final out) !! id' = DB a !! id').
Proof.
  intros Hres. cbv zeta.
  destruct (startCast_none w id dev msg a Hres) as (Hnone & found & Hcasts & Hdb).
  set (a1 := final (startCast w id dev msg a)) in *.
  assert (Hs : ActiveCasts a1 !! id = Some (mkCastSession id dev found (Some id) true)).
  { rewrite Hcasts. apply lookup_insert_eq. }
  destruct (stopCast_active w' id a1 _ Hs eq_refl) as (Hr & Hc & _ & Hdb' & Hcancel & _).
  split; [exact Hr|]. split; [|split; [exact Hcancel|split]].
  - rewrite Hc, Hcasts. rewrite delete_insert_eq. apply delete_id. exact Hnone.
  - intros Hok. rewrite Hdb', Hok, lookup_alter_eq, Hdb.
    destruct (dbExecOk w _); [|reflexivity].
    rewrite lookup_alter_eq. destruct (DB a !! id); reflexivity.
  - intros id' Hne. rewrite Hdb', Hdb.
    destruct (dbExecOk w' _), (dbExecOk w _);
      rewrite ?lookup_alter_ne by congruence; reflexivity.
Qed.

Lemma cast_started_then_stopped_witness :
  result (stopCast calm "n1" (final (startCast calm "n1" "Living Room TV" "hi" appPending)))
  = None
  /\ ActiveCasts
       (final (stopCast calm "n1"
                 (final (startCast calm "n1" "Living Room TV" "hi" appPending))))
     = ActiveCasts appPending.
Proof.
  pose proof (cast_started_then_stopped calm calm "n1" "Living Room TV" "hi" appPending
                eq_refl) as H.
  cbv zeta in H. split; [exact (proj1 H)|exact (proj1 (proj2 H))].
Defined.

(** ** The lines of the image *)

(** X22: the image shows at most five lines of the message, none of
    them wider than 30 bytes unless it is a single word.  The lines
    drawn by [generateNotificationImageSimple] are the first five lines
    of the message wrapped at 30: there is at least one and there are at
    most five (what a longer message wraps into beyond them is not
    drawn), and each is at most 30 bytes long or is one word of the
    message. *)
Theorem messageLines_at_most_five (Fields : string -> list string) (message : string) :
  messageLines Fields message = take 5 (wrapText Fields message 30)
  /\ (1 <= length (messageLines Fields message) <= 5)%nat
  /\ (forall line, line ∈ messageLines Fields message ->
        Z.of_nat (String.length line) <= 30
        \/ line ∈ Fields message
        \/ (Fields message = [] /\ line = "")).
Proof.
  assert (Hlen : (1 <= length (wrapText Fields message 30))%nat).
  { unfold wrapText. destruct (Fields message) as [|first rest]; simpl; [lia|].
    pose proof (wrapLoop_length 30 rest [] first) as H. simpl in H. lia. }
  assert (Heq : messageLines Fields message = take 5 (wrapText Fields message 30)).
  { unfold messageLines. cbv zeta.
    destruct (5 <? length (wrapText Fields message 30))%nat eqn:Hlt; [reflexivity|].
    apply Nat.ltb_ge in Hlt. symmetry. apply take_ge. exact Hlt. }
  split; [exact Heq|]. rewrite Heq. split.
  - rewrite length_take. lia.
  - intros line Hin. apply elem_of_take in Hin. destruct Hin as (i & Hi & _).
    pose proof (wrapText_Forall Fields message 30) as H.
    rewrite Forall_forall in H. apply (H line).
    apply list_elem_of_lookup. exists i. exact Hi.
Qed.

(** ** Rows over the life of the process *)

Lemma statusPath_step (r r' r'' : Row) :
  statusPath r r' -> statusStep r' r'' -> statusPath r r''.
Proof.
  unfold statusPath, statusStep.
  intros [->|[[Hp ->]|[[Hp ->]|[Ha ->]]]] [->|[[H1 ->]|[H1 ->]]]; simpl in *;
    try discriminate; tauto.
Qed.

Lemma runOp_row (a : App) (op : Op) (id : string) (r : Row) :
  DB a !! id = Some r ->
  isDeleteOf id op = false ->
  exists r', DB (runOp a op) !! id = Some r' /\ statusStep r r'.
Proof.
  intros Hr Hop. destruct op as [w now|w body|w id']; simpl.
  - pose proof (tick_at w now a id) as H. cbv zeta in H.
    destruct H as [[E _]|[(r0 & found & Hr0 & Hsel & _ & _ & Hdb & _)
                         |(r0 & s & Hr0 & Hsel & _ & _ & Hdb & _)]].
    + rewrite E, Hr. exists r. split; [reflexivity|]. left. reflexivity.
    + assert (r0 = r) by congruence. subst r0. rewrite Hdb.
      eexists. split; [reflexivity|]. apply selects_pending in Hsel.
      destruct (dbExecOk w _); [right; left; tauto|left; reflexivity].
    + assert (r0 = r) by congruence. subst r0. rewrite Hdb.
      eexists. split; [reflexivity|]. apply selects_active in Hsel.
      destruct (dbExecOk w _); [right; right; tauto|left; reflexivity].
  - exists r. split; [|left; reflexivity].
    destruct (createNotification_outcome w body a) as [[n Hn]|[_ Hfinal]].
    + destruct (createNotification_created w body a n Hn)
        as (rb & s & e & _ & _ & _ & _ & Hfree & ->).
      simpl. rewrite lookup_insert_ne; [exact Hr|]. congruence.
    + rewrite Hfinal. exact Hr.
  - simpl in Hop. apply String.eqb_neq in Hop.
    exists r. split; [|left; reflexivity].
    pose proof (deleteNotification_steps w id' a) as Hsteps. cbv zeta in Hsteps.
    rewrite Hsteps. destruct (stopCast_other w id id' a Hop) as [Hdb _].
    destruct (dbExecOk w _); rewrite final_pair; simpl.
    + rewrite lookup_delete_ne by exact Hop. rewrite Hdb. exact Hr.
    + rewrite Hdb. exact Hr.
Qed.

(** X23: a row leaves the table only by its own deletion, and its
    status only moves forward.  After any sequence of ticks, creations
    and deletions of other identifiers, with any failures, a row is
    still in the table with the same message, times, device and repeat
    count, and its status is what it was, or has gone from pending to
    active or completed, or from active to completed; a completed row
    is never changed. *)
Theorem rows_persist_and_move_forward (ops : list Op) (a : App) (id : string) (r : Row) :
  DB a !! id = Some r ->
  forallb (fun op => negb (isDeleteOf id op)) ops = true ->
  exists r', DB (runOps ops a) !! id = Some r' /\ statusPath r r'
             /\ (status r = "completed" -> r' = r).
Proof.
  intros Hr Hops.
  assert (H : exists r', DB (runOps ops a) !! id = Some r' /\ statusPath r r').
  { assert (Hstart : exists r0, DB a !! id = Some r0 /\ statusPath r r0)
      by (exists r; split; [exact Hr|left; reflexivity]).
    clear Hr. revert a Hstart. unfold runOps.
    induction ops as [|op ops IH]; intros a Hstart; simpl; [exact Hstart|].
    simpl in Hops. apply andb_prop in Hops as [Hop Hops].
    apply negb_true_iff in Hop.
    apply (IH Hops). destruct Hstart as (r0 & Hr0 & Hpath).
    destruct (runOp_row a op id r0 Hr0 Hop) as (r1 & Hr1 & Hstep).
    exists r1. split; [exact Hr1|]. eapply statusPath_step; eauto. }
  destruct H as (r' & Hr' & Hpath). exists r'. split; [exact Hr'|].
  split; [exact Hpath|]. intros Hc.
  destruct Hpath as [->|[[Hp _]|[[Hp _]|[Ha _]]]]; [reflexivity|congruence..].
Qed.

Lemma rows_persist_and_move_forward_witness :
  exists r',
    DB (runOps [OpTick calm inWindow; OpCreate calm (Some requestFraction);
                OpTick calm afterWindow; OpDelete calm "n2"] appPending) !! "n1"
    = Some r'
    /\ statusPath rowPending r'
    /\ (status rowPending = "completed" -> r' = rowPending).
Proof.
  apply (rows_persist_and_move_forward
           [OpTick calm inWindow; OpCreate calm (Some requestFraction);
            OpTick calm afterWindow; OpDelete calm "n2"] appPending "n1" rowPending);
    reflexivity.
Defined.
